(** * Sketch UI generator: a shallow embedding of the node model,
      the structural validator and the archive packer.

    The development follows the JavaScript sources
    [scripts/sketch-generator.cjs], [scripts/sketch-validator.cjs],
    [scripts/sketch-packer.cjs] and [scripts/sketch-api.cjs].

    Conventions of the embedding:
    - a JavaScript string is the list of its UTF-16 code units;
    - a JavaScript number is a rational kept in lowest terms and [NaN] is
      an absent number; sums, differences, quotients and the products of
      operands that binary64 multiplies exactly (by a power of two, of
      small integers) are computed exactly, the products by the literal
      [1.2] are rounded to binary64; Infinity is not modelled;
    - objects are association lists in insertion order;
    - [Math.random] is an injected stream and every function that draws
      from it threads the number of draws made so far;
    - a JavaScript exception is the [Throw] outcome of a small error monad. *)

From Stdlib Require Import Strings.String Strings.Ascii QArith.QArith QArith.Qround
  QArith.Qabs QArith.Qpower Lqa.
From stdpp Require Import gmap list numbers.
Close Scope Q_scope.
Open Scope string_scope.
Open Scope list_scope.
Set Warnings "-register-all".

(* ================================================================== *)
(** ** JavaScript strings *)
(* ================================================================== *)

Module JsString.

(** UTF-16 code units. *)
Abbreviation jstring := (list N) (only parsing).

(** A literal of the source, written in ASCII. *)
Definition u (s : string) : jstring := map N_of_ascii (list_ascii_of_string s).

Fixpoint eqb (a b : jstring) : bool :=
  match a, b with
  | [], [] => true
  | x :: a', y :: b' => N.eqb x y && eqb a' b'
  | _, _ => false
  end.

(** [String.prototype.toUpperCase], on the ASCII range; the program only
    applies it to the identifier it has just assembled. *)
Definition upperUnit (c : N) : N :=
  if (97 <=? c)%N && (c <=? 122)%N then (c - 32)%N else c.

Definition toUpperCase (s : jstring) : jstring := map upperUnit s.

(** [s.substring(0, n)] and [s.slice(n)] for a non-negative [n]. *)
Definition substring0 (n : nat) (s : jstring) : jstring := take n s.
Definition slice (n : nat) (s : jstring) : jstring := drop n s.

(** [s.substr(start, len)]. *)
Definition substr (start len : nat) (s : jstring) : jstring :=
  take len (drop start s).

Definition startsWith (p s : jstring) : bool := eqb (take (length p) s) p.

(** [s[i]] followed by string concatenation: an index out of range reads
    [undefined], which [+=] renders as the word itself. *)
Definition indexForConcat (s : jstring) (i : Z) : jstring :=
  if (i <? 0)%Z then u "undefined"
  else match s !! Z.to_nat i with
       | Some c => [c]
       | None => u "undefined"
       end.

(** Decimal rendering of a natural number, as in a template literal. *)
Fixpoint digitsAcc (fuel : nat) (n : N) (acc : jstring) : jstring :=
  let acc' := (48 + n mod 10)%N :: acc in
  match fuel with
  | O => acc'
  | S fuel' => if (n / 10 =? 0)%N then acc' else digitsAcc fuel' (n / 10)%N acc'
  end.

Definition ofN (n : N) : jstring := digitsAcc (N.to_nat (N.size n)) n [].
Definition ofNat (n : nat) : jstring := ofN (N.of_nat n).

End JsString.

Export JsString.

(* ================================================================== *)
(** ** Regular expressions *)
(* ================================================================== *)

(** The three regular expressions of the program are anchored or searched
    over code units; they are interpreted by derivatives. *)

Module Regex.

Inductive regex : Type :=
| Never
| Empty
| Class (p : N -> bool)
| Cat (r1 r2 : regex)
| Or (r1 r2 : regex)
| Star (r : regex).

Fixpoint nullable (r : regex) : bool :=
  match r with
  | Never => false
  | Empty => true
  | Class _ => false
  | Cat r1 r2 => nullable r1 && nullable r2
  | Or r1 r2 => nullable r1 || nullable r2
  | Star _ => true
  end.

Fixpoint deriv (c : N) (r : regex) : regex :=
  match r with
  | Never => Never
  | Empty => Never
  | Class p => if p c then Empty else Never
  | Cat r1 r2 =>
      if nullable r1 then Or (Cat (deriv c r1) r2) (deriv c r2)
      else Cat (deriv c r1) r2
  | Or r1 r2 => Or (deriv c r1) (deriv c r2)
  | Star r1 => Cat (deriv c r1) (Star r1)
  end.

(** [/^r$/.test(s)] *)
Fixpoint matches (r : regex) (s : jstring) : bool :=
  match s with
  | [] => nullable r
  | c :: s' => matches (deriv c r) s'
  end.

Definition anyUnit : regex := Class (fun _ => true).

(** [/r/.test(s)], unanchored. *)
Definition search (r : regex) (s : jstring) : bool :=
  matches (Cat (Star anyUnit) (Cat r (Star anyUnit))) s.

(** [r{n}] *)
Fixpoint times (n : nat) (r : regex) : regex :=
  match n with
  | O => Empty
  | S n' => Cat r (times n' r)
  end.

(** [r?] and [r+] *)
Definition opt (r : regex) : regex := Or r Empty.
Definition plus (r : regex) : regex := Cat r (Star r).

Definition lit (c : N) : regex := Class (N.eqb c).
Definition range (lo hi : N) : N -> bool := fun c => (lo <=? c)%N && (c <=? hi)%N.

(** The [i] flag on a class of digits and upper-case ASCII letters: the
    input unit is compared after canonicalisation to upper case. *)
Definition ignoreCase (p : N -> bool) : N -> bool := fun c => p (upperUnit c).

(** Denotation, used to reason about [matches]. *)
Inductive Lang : regex -> jstring -> Prop :=
| LEmpty : Lang Empty []
| LClass p c : p c = true -> Lang (Class p) [c]
| LCat r1 r2 s1 s2 : Lang r1 s1 -> Lang r2 s2 -> Lang (Cat r1 r2) (s1 ++ s2)
| LOrL r1 r2 s : Lang r1 s -> Lang (Or r1 r2) s
| LOrR r1 r2 s : Lang r2 s -> Lang (Or r1 r2) s
| LStarNil r : Lang (Star r) []
| LStarCons r s1 s2 : Lang r s1 -> Lang (Star r) s2 -> Lang (Star r) (s1 ++ s2).

End Regex.

Import Regex.


(* ================================================================== *)
(** ** Numbers *)
(* ================================================================== *)

Module JsNum.

(** Arithmetic keeps rationals in lowest terms, so that equal numbers are
    equal terms. [mul] is the product of operands that binary64 multiplies
    exactly; [fmul] below is the rounded product. *)
Definition add (a b : Q) : Q := Qred (a + b).
Definition sub (a b : Q) : Q := Qred (a - b).
Definition mul (a b : Q) : Q := Qred (a * b).
Definition div (a b : Q) : Q := Qred (a / b).
Definition ofZ (z : Z) : Q := inject_Z z.
Definition ofNat (n : nat) : Q := inject_Z (Z.of_nat n).

Definition isZero (q : Q) : bool := (Qnum q =? 0)%Z.
Definition ltb (a b : Q) : bool :=
  (Qnum a * Z.pos (Qden b) <? Qnum b * Z.pos (Qden a))%Z.
Definition eqb (a b : Q) : bool := Qeq_bool a b.

(** [ToInt32]: truncate toward zero, then wrap to 32 signed bits. *)
Definition ToInt32 (q : Q) : Z :=
  let t := Z.quot (Qnum q) (Z.pos (Qden q)) in
  ((t + 2 ^ 31) mod 2 ^ 32 - 2 ^ 31)%Z.

(** [a | b] *)
Definition bitOr (a b : Q) : Z := Z.lor (ToInt32 a) (ToInt32 b).

(** [Math.round]: the nearest integer, a tie going up. *)
Definition round (q : Q) : Z := Qfloor (q + (1 # 2)).

(** [2 ^ e] for an exponent of either sign. *)
Definition pow2 (e : Z) : Q := (2 ^ e)%Q.

(** The binade of a non-zero rational: the [e] with
    [2 ^ e <= |q| < 2 ^ (e + 1)]. *)
Definition binade (q : Q) : Z :=
  let e := (Z.log2 (Z.abs (Qnum q)) - Z.log2 (Z.pos (Qden q)))%Z in
  if Qle_bool (pow2 e) (Qabs q) then e else (e - 1)%Z.

(** The nearest integer, a tie going to the even one. *)
Definition roundEven (q : Q) : Z :=
  let f := Qfloor q in
  match (q - inject_Z f ?= 1 # 2)%Q with
  | Lt => f
  | Gt => (f + 1)%Z
  | Eq => if Z.even f then f else (f + 1)%Z
  end.

(** The spacing of the binary64 numbers around a non-zero rational: 53 bits
    of significand in its binade, the spacing of the subnormal numbers
    below [2 ^ -1022]. *)
Definition ulp (q : Q) : Q := pow2 (Z.max (binade q) (-1022) - 52).

(** The numbers binary64 holds, Infinity apart: a significand below
    [2 ^ 53] at an exponent from [-1074] on. *)
Definition representable (z : Q) : Prop :=
  exists m e : Z, (Z.abs m < 2 ^ 53)%Z /\ (-1074 <= e)%Z /\ (z == inject_Z m * pow2 e)%Q.

(** The binary64 number nearest to a rational, a tie going to the even
    significand. The exponent is not bounded above: a magnitude that
    binary64 turns into Infinity is outside the model. *)
Definition binary64 (q : Q) : Q :=
  if isZero q then 0%Q
  else Qred (inject_Z (roundEven (q / ulp q)) * ulp q).

(** A decimal literal of the source whose value matters bit by bit: the
    binary64 number nearest to it. *)
Definition literal (q : Q) : Q := binary64 q.

(** [a * b] on binary64 operands, where the product has to be rounded. *)
Definition fmul (a b : Q) : Q := binary64 (a * b).

(** The numbers whose product with [1.2] stays finite. *)
Definition finite (q : Q) : Prop := (Qabs q < inject_Z (2 ^ 1023))%Q.

End JsNum.

(* ================================================================== *)
(** ** Values *)
(* ================================================================== *)

Module JsValue.

Inductive value : Type :=
| VUndef
| VNull
| VBool (b : bool)
| VNum (q : Q)
| VStr (s : jstring)
| VArr (items : list value)
| VObj (props : list (jstring * value))
  (** a member found on the prototype chain of a literal object or of an
      array: a built-in function, or for [__proto__] the prototype *)
| VInherited (key : jstring).

Inductive jstype := TUndefined | TObject | TBoolean | TNumber | TString | TFunction.

Definition typeof (v : value) : jstype :=
  match v with
  | VUndef => TUndefined
  | VNull => TObject
  | VBool _ => TBoolean
  | VNum _ => TNumber
  | VStr _ => TString
  | VArr _ => TObject
  | VObj _ => TObject
  | VInherited k => if JsString.eqb k (u "__proto__") then TObject else TFunction
  end.

Definition isType (t : jstype) (v : value) : bool :=
  match typeof v, t with
  | TUndefined, TUndefined | TObject, TObject | TBoolean, TBoolean
  | TNumber, TNumber | TString, TString | TFunction, TFunction => true
  | _, _ => false
  end.

Definition truthy (v : value) : bool :=
  match v with
  | VUndef | VNull => false
  | VBool b => b
  | VNum q => negb (JsNum.isZero q)
  | VStr s => match s with [] => false | _ => true end
  | VArr _ | VObj _ | VInherited _ => true
  end.

(** [a || b] *)
Definition orElse (a b : value) : value := if truthy a then a else b.

Definition isArray (v : value) : bool :=
  match v with VArr _ => true | _ => false end.

Definition isUndefined (v : value) : bool :=
  match v with VUndef => true | _ => false end.

(** Own properties. *)
Fixpoint lookup (k : jstring) (ps : list (jstring * value)) : option value :=
  match ps with
  | [] => None
  | (k', v) :: ps' => if JsString.eqb k k' then Some v else lookup k ps'
  end.

(** [o.k = v]: replaces the property in place or appends it. *)
Fixpoint assign (k : jstring) (v : value) (ps : list (jstring * value))
  : list (jstring * value) :=
  match ps with
  | [] => [(k, v)]
  | (k', v') :: ps' =>
      if JsString.eqb k k' then (k, v) :: ps' else (k', v') :: assign k v ps'
  end.

Definition set (k : jstring) (v : value) (o : value) : value :=
  match o with
  | VObj ps => VObj (assign k v ps)
  | _ => o
  end.

(** Names every literal object inherits from [Object.prototype]. *)
Definition objectPrototype : list jstring :=
  map u ["constructor"; "__defineGetter__"; "__defineSetter__"; "hasOwnProperty";
         "__lookupGetter__"; "__lookupSetter__"; "isPrototypeOf";
         "propertyIsEnumerable"; "toString"; "valueOf"; "__proto__";
         "toLocaleString"].

(** Method names of [Array.prototype] (ES2023). *)
Definition arrayPrototype : list jstring :=
  map u ["at"; "concat"; "copyWithin"; "entries"; "every"; "fill"; "filter";
         "find"; "findIndex"; "findLast"; "findLastIndex"; "flat"; "flatMap";
         "forEach"; "includes"; "indexOf"; "join"; "keys"; "lastIndexOf"; "map";
         "pop"; "push"; "reduce"; "reduceRight"; "reverse"; "shift"; "slice";
         "some"; "sort"; "splice"; "toReversed"; "toSorted"; "toSpliced";
         "unshift"; "values"; "with"].

Definition memb (k : jstring) (l : list jstring) : bool := existsb (JsString.eqb k) l.

Definition inherited (k : jstring) (chain : list jstring) : value :=
  if memb k chain then VInherited k else VUndef.

(** The array index a property key denotes, if it is the canonical decimal
    rendering of one: an integer below [2^32 - 1]. *)
Fixpoint indexAcc (k : jstring) (acc : N) : option N :=
  match k with
  | [] => Some acc
  | c :: k' =>
      if (48 <=? c)%N && (c <=? 57)%N then indexAcc k' (acc * 10 + (c - 48))%N
      else None
  end.

Definition arrayIndex (k : jstring) : option nat :=
  match k with
  | [] => None
  | [c] => if (48 <=? c)%N && (c <=? 57)%N then Some (N.to_nat (c - 48)) else None
  | c :: _ => if (49 <=? c)%N && (c <=? 57)%N
              then match indexAcc k 0 with
                   | Some i => if (i <? 4294967295)%N then Some (N.to_nat i) else None
                   | None => None
                   end
              else None
  end.

(** [v.k] and [v[k]] on a value that is neither [null] nor [undefined].
    On strings, numbers and booleans only [length] and the indices of a
    string are modelled: the program reads no other member of their
    prototypes. *)
Definition get (k : jstring) (v : value) : value :=
  match v with
  | VObj ps =>
      match lookup k ps with
      | Some x => x
      | None => inherited k objectPrototype
      end
  | VArr l =>
      if JsString.eqb k (u "length") then VNum (JsNum.ofNat (length l))
      else match arrayIndex k with
           | Some i => match l !! i with Some x => x | None => VUndef end
           | None => inherited k (arrayPrototype ++ objectPrototype)
           end
  | VStr s =>
      if JsString.eqb k (u "length") then VNum (JsNum.ofNat (length s))
      else match arrayIndex k with
           | Some i => match s !! i with Some c => VStr [c] | None => VUndef end
           | None => VUndef
           end
  | _ => VUndef
  end.

(** A path of property reads, guarded by nothing: [undefined] propagates. *)
Definition getPath (ks : list jstring) (v : value) : value :=
  fold_left (fun acc k => get k acc) ks v.

Definition str (s : string) : value := VStr (u s).
Definition int (z : Z) : value := VNum (inject_Z z).
Definition obj (ps : list (string * value)) : value :=
  VObj (map (fun kv => (u (fst kv), snd kv)) ps).

End JsValue.

Export JsValue.

(* ================================================================== *)
(** ** Exceptions *)
(* ================================================================== *)

Module JsError.

(** An exception object: its constructor, its message and the own
    properties assigned to it besides the message. *)
Record jsError := mkError {
  errorClass : jstring;
  message : jstring;
  ownProps : list (jstring * value)
}.

Inductive outcome (A : Type) : Type :=
| Return (a : A)
| Throw (e : jsError).
Arguments Return {A} a.
Arguments Throw {A} e.

Definition bind {A B} (m : outcome A) (k : A -> outcome B) : outcome B :=
  match m with
  | Return a => k a
  | Throw e => Throw e
  end.

(** [new Error(msg)] and the engine's own errors. *)
Definition newError (msg : jstring) : jsError := mkError (u "Error") msg [].
Definition typeError (msg : jstring) : jsError := mkError (u "TypeError") msg [].
Definition syntaxError (msg : jstring) : jsError := mkError (u "SyntaxError") msg [].

(** Reading a property of [null] or [undefined] (message as V8 words it). *)
Definition getE (k : jstring) (v : value) : outcome value :=
  match v with
  | VUndef =>
      Throw (typeError (u "Cannot read properties of undefined (reading '" ++ k ++ u "')"))
  | VNull =>
      Throw (typeError (u "Cannot read properties of null (reading '" ++ k ++ u "')"))
  | _ => Return (get k v)
  end.

(** [for each] over an array with an index, in the error monad. *)
Fixpoint forEachE {A B} (f : nat -> A -> B -> outcome B) (i : nat) (l : list A) (acc : B)
  : outcome B :=
  match l with
  | [] => Return acc
  | x :: l' => bind (f i x acc) (forEachE f (S i) l')
  end.

End JsError.

Export JsError.

Declare Scope js_scope.
Delimit Scope js_scope with js.
Notation "'do' x <- m 'in' k" := (JsError.bind m (fun x => k))
  (at level 10, x name, m at level 100, k at level 200) : js_scope.

(* ================================================================== *)
(** ** The random source *)
(* ================================================================== *)

Module Gen.

(** A computation that draws from [Math.random]: it is given the number of
    draws already made and returns the new count. *)
Definition Gen (A : Type) : Type := nat -> A * nat.

Definition ret {A} (a : A) : Gen A := fun n => (a, n).

Definition bind {A B} (m : Gen A) (k : A -> Gen B) : Gen B :=
  fun n => let '(a, n') := m n in k a n'.

(** [Array.prototype.map] with an effectful callback. *)
Fixpoint mapG {A B} (f : A -> Gen B) (l : list A) : Gen (list B) :=
  match l with
  | [] => ret []
  | x :: l' => bind (f x) (fun y => bind (mapG f l') (fun ys => ret (y :: ys)))
  end.

End Gen.

Notation "'draw' x <- m 'in' k" := (Gen.bind m (fun x => k))
  (at level 10, x name, m at level 100, k at level 200) : js_scope.

Open Scope js_scope.

(* ================================================================== *)
(** ** scripts/sketch-generator.cjs *)
(* ================================================================== *)

(** The argument records of the constructors.  A field the code only tests
    for truthiness and copies is a [value] ([VUndef] when absent); a field
    the code computes with is an optional number or string. *)

Module Frame.
Record t := make { x : Q; y : Q; width : Q; height : Q }.
End Frame.

Module Shadow.
Record t := make { offsetY : value; blur : value }.
End Shadow.

Module StyleOptions.
Record t := make {
  cornerRadius : value;
  constrainProportions : value;
  fills : option (list value);
  borderColor : value;
  borderPosition : value;
  borderWidth : value;
  shadow : option Shadow.t;
  fontFamily : value;
  displayFontSize : option Q;
  fontSize : option Q;
  alignment : value;
  verticalAlignment : value;
  color : value
}.

(** [{}] *)
Definition empty : t :=
  make VUndef VUndef None VUndef VUndef VUndef None VUndef None None VUndef VUndef VUndef.
End StyleOptions.

Module TextSpec.
Record t := make {
  color : value;
  fontSize : option Q;
  fontFamily : option jstring;
  alignment : value
}.

Definition empty : t := make VUndef None None VUndef.
End TextSpec.

(** [n || d] for an optional number. *)
Definition numOr (n : option Q) (d : Q) : Q :=
  match n with
  | Some q => if JsNum.isZero q then d else q
  | None => d
  end.

(** Truthiness of an optional number: present and not zero. *)
Definition numTruthy (n : option Q) : bool :=
  match n with
  | Some q => negb (JsNum.isZero q)
  | None => false
  end.

(** [s || d] for an optional string. *)
Definition strOr (s : option jstring) (d : jstring) : jstring :=
  match s with
  | Some (c :: r) => c :: r
  | _ => d
  end.

Definition SKETCH_VERSION : jstring := u "74.1".
Definition SKETCH_BUILD : Z := 128920.

Module RESIZING_CONSTRAINTS.
Definition NONE : Z := 63.
Definition FIXED_SIZE : Z := 15.
Definition FIXED_WIDTH : Z := 47.
Definition FIXED_HEIGHT : Z := 31.
Definition PIN_TO_ALL : Z := 30.
End RESIZING_CONSTRAINTS.

Definition CHINESE_FONT_MAP : value :=
  obj [("Roboto-Bold", str "PingFangSC-Regular");
       ("Roboto-Regular", str "PingFangSC-Regular");
       ("Roboto-Medium", str "PingFangSC-Regular");
       ("Roboto-Light", str "PingFangSC-Regular")].

(** *** parseColor *)

(** White space that [parseInt] skips. *)
Definition isStrWhiteSpace (c : N) : bool :=
  existsb (N.eqb c)
    [9; 10; 11; 12; 13; 32; 160; 5760; 8232; 8233; 8239; 8287; 12288; 65279]%N
  || ((8192 <=? c)%N && (c <=? 8202)%N).

Fixpoint skipWhiteSpace (s : jstring) : jstring :=
  match s with
  | c :: s' => if isStrWhiteSpace c then skipWhiteSpace s' else s
  | [] => []
  end.

Definition hexDigit (c : N) : option Z :=
  if (48 <=? c)%N && (c <=? 57)%N then Some (Z.of_N (c - 48))
  else if (65 <=? c)%N && (c <=? 70)%N then Some (Z.of_N (c - 55))
  else if (97 <=? c)%N && (c <=? 102)%N then Some (Z.of_N (c - 87))
  else None.

(** The longest prefix of hexadecimal digits, read as a number; [None] when
    there is no digit. *)
Fixpoint hexPrefix (s : jstring) (acc : option Z) : option Z :=
  match s with
  | [] => acc
  | c :: s' =>
      match hexDigit c with
      | Some d => hexPrefix s' (Some (16 * default 0%Z acc + d)%Z)
      | None => acc
      end
  end.

(** [parseInt(s, 16)]; [None] is [NaN]. *)
Definition parseInt16 (s : jstring) : option Z :=
  let s1 := skipWhiteSpace s in
  let '(sign, s2) :=
    match s1 with
    | 45%N :: r => ((-1)%Z, r)
    | 43%N :: r => (1%Z, r)
    | _ => (1%Z, s1)
    end in
  let s3 :=
    match s2 with
    | 48%N :: 120%N :: r => r
    | 48%N :: 88%N :: r => r
    | _ => s2
    end in
  option_map (Z.mul sign) (hexPrefix s3 None).

(** [parseInt(..., 16) / 255 || 0] *)
Definition channel (s : jstring) : Q :=
  match parseInt16 s with
  | Some n =>
      let r := JsNum.div (JsNum.ofZ n) 255 in
      if JsNum.isZero r then 0%Q else r
  | None => 0%Q
  end.

Definition black : value :=
  obj [("_class", str "color"); ("alpha", VNum 1); ("red", VNum 0);
       ("green", VNum 0); ("blue", VNum 0)].

Definition parseColor (colorStr : value) : value :=
  match colorStr with
  | VStr (c :: rest) =>
      if JsString.startsWith (u "#") (c :: rest) then
        let hex := JsString.slice 1 (c :: rest) in
        let r := channel (JsString.substr 0 2 hex) in
        let g := channel (JsString.substr 2 2 hex) in
        let b := channel (JsString.substr 4 2 hex) in
        obj [("_class", str "color"); ("alpha", VNum 1); ("red", VNum r);
             ("green", VNum g); ("blue", VNum b)]
      else black
  | _ => black
  end.

Section Generator.

(** [random k] is what the [k]-th call of [Math.random] returns. *)
Variable random : nat -> Q.

Definition mathRandom : Gen.Gen Q := fun n => (random n, S n).

(** *** generateUUID *)

Definition hex : jstring := u "0123456789ABCDEF".

(** The body of the [for] loop, [n] iterations from index [i]. *)
Fixpoint uuidLoop (n : nat) (i : Z) (uuid : jstring) : Gen.Gen jstring :=
  match n with
  | O => Gen.ret uuid
  | S n' =>
      if (i =? 8)%Z || (i =? 13)%Z || (i =? 18)%Z || (i =? 23)%Z then
        uuidLoop n' (i + 1)%Z (uuid ++ u "-")
      else if (i =? 14)%Z then
        uuidLoop n' (i + 1)%Z (uuid ++ u "4")
      else if (i =? 19)%Z then
        draw r <- mathRandom in
        uuidLoop n' (i + 1)%Z
          (uuid ++ JsString.indexForConcat hex (JsNum.bitOr (JsNum.mul r 4) 8))
      else
        draw r <- mathRandom in
        uuidLoop n' (i + 1)%Z
          (uuid ++ JsString.indexForConcat hex (JsNum.bitOr (JsNum.mul r 16) 0))
  end.

Definition generateUUID : Gen.Gen jstring :=
  draw uuid <- uuidLoop 36 0 [] in
  Gen.ret (JsString.toUpperCase uuid).

(** *** createLayerBase *)

Definition createLayerBase (classType : jstring) (frame : Frame.t) (options : value)
  : Gen.Gen value :=
  draw id <- generateUUID in
  Gen.ret (obj [
    ("_class", VStr classType);
    ("do_objectID", VStr id);
    ("frame", obj [
       ("_class", str "rect");
       ("x", VNum (Frame.x frame));
       ("y", VNum (Frame.y frame));
       ("width", VNum (Frame.width frame));
       ("height", VNum (Frame.height frame));
       ("constrainProportions",
          orElse (get (u "constrainProportions") options) (VBool false))]);
    ("resizingConstraint", int RESIZING_CONSTRAINTS.NONE);
    ("resizingType", int 0);
    ("rotation", int 0);
    ("shouldBreakMaskChain", VBool false);
    ("booleanOperation", int (-1));
    ("exportOptions", obj [
       ("_class", str "exportOptions");
       ("exportFormats", VArr []);
       ("includedLayerIds", VArr []);
       ("layerOptions", int 0);
       ("shouldTrim", VBool false)]);
    ("isFixedToViewport", VBool false);
    ("isFlippedHorizontal", VBool false);
    ("isFlippedVertical", VBool false);
    ("isLocked", VBool false);
    ("isVisible", VBool true);
    ("isTemplate", VBool false);
    ("layerListExpandedType", int 0);
    ("nameIsFixed", VBool false)]).

(** *** createStyle *)

Definition contextSettings : value :=
  obj [("_class", str "graphicsContextSettings"); ("blendMode", int 0);
       ("opacity", VNum 1)].

Definition fillOf (color : value) : value :=
  obj [("_class", str "fill");
       ("isEnabled", VBool true);
       ("color", parseColor color);
       ("fillType", int 0);
       ("noiseIndex", int 0);
       ("noiseIntensity", int 0);
       ("patternFillType", int 1);
       ("patternTileScale", VNum 1);
       ("gradient", obj [
          ("_class", str "gradient");
          ("elipseLength", VNum 0);
          ("from", str "{0.500000, 0.000000}");
          ("to", str "{0.500000, 1.000000}");
          ("gradientType", int 0);
          ("stops", VArr [])]);
       ("contextSettings", contextSettings)].

(** The guard of the text-style block:
    [options.fontFamily || options.displayFontSize || options.color]. *)
Definition wantsTextStyle (options : StyleOptions.t) : bool :=
  truthy (StyleOptions.fontFamily options)
  || numTruthy (StyleOptions.displayFontSize options)
  || truthy (StyleOptions.color options).

Definition textStyleOf (options : StyleOptions.t) : value :=
  let fontSize :=
    numOr (StyleOptions.displayFontSize options)
          (numOr (StyleOptions.fontSize options) 16) in
  let fontFamily := orElse (StyleOptions.fontFamily options) (str "Roboto-Regular") in
  let alignment := orElse (StyleOptions.alignment options) (int 0) in
  let verticalAlignment :=
    if isUndefined (StyleOptions.verticalAlignment options) then int 0
    else StyleOptions.verticalAlignment options in
  let textColor :=
    orElse (StyleOptions.color options)
      (obj [("_class", str "color"); ("alpha", VNum 1); ("red", VNum 0);
            ("green", VNum 0); ("blue", VNum 0)]) in
  obj [("_class", str "textStyle");
       ("verticalAlignment", verticalAlignment);
       ("encodeAttributes", obj [
          ("MSAttributedStringFontAttribute", obj [
             ("_class", str "fontDescriptor");
             ("attributes", obj [("name", fontFamily); ("size", VNum fontSize)])]);
          ("paragraphStyle", obj [
             ("_class", str "paragraphStyle");
             ("alignment", alignment);
             ("maximumLineHeight", VNum (JsNum.fmul fontSize (JsNum.literal (12 # 10))));
             ("minimumLineHeight", VNum (JsNum.fmul fontSize (JsNum.literal (12 # 10))));
             ("paragraphSpacing", int 0)]);
          ("textStyleVerticalAlignmentKey", verticalAlignment);
          ("MSAttributedStringColorAttribute", textColor)])].

Definition createStyle (options : StyleOptions.t) : Gen.Gen value :=
  draw id <- generateUUID in
  let style := obj [
    ("_class", str "style");
    ("do_objectID", VStr id);
    ("blur", obj [
       ("_class", str "blur");
       ("isEnabled", VBool false);
       ("center", str "{0.500000, 0.500000}");
       ("saturation", VNum 1);
       ("type", int 0);
       ("motionAngle", VNum 0);
       ("radius", VNum 10)]);
    ("borders", VArr []);
    ("fills", VArr []);
    ("shadows", VArr []);
    ("innerShadows", VArr []);
    ("contextSettings", contextSettings);
    ("startMarkerType", int 0);
    ("endMarkerType", int 0);
    ("miterLimit", int 10);
    ("windingRule", int 1);
    ("colorControls", obj [
       ("_class", str "colorControls");
       ("isEnabled", VBool false);
       ("brightness", VNum 0);
       ("contrast", VNum 1);
       ("hue", VNum 0);
       ("saturation", VNum 1)]);
    ("borderOptions", obj [
       ("_class", str "borderOptions");
       ("isEnabled", VBool true);
       ("lineCapStyle", int 0);
       ("lineJoinStyle", int 0);
       ("dashPattern", VArr [])])] in
  let style :=
    match StyleOptions.fills options with
    | Some (c :: cs) => set (u "fills") (VArr (map fillOf (c :: cs))) style
    | _ => style
    end in
  let style :=
    if truthy (StyleOptions.borderColor options) then
      set (u "borders") (VArr [obj [
        ("_class", str "border");
        ("isEnabled", VBool true);
        ("color", parseColor (StyleOptions.borderColor options));
        ("fillType", int 0);
        ("position", orElse (StyleOptions.borderPosition options) (int 1));
        ("thickness", orElse (StyleOptions.borderWidth options) (VNum 1));
        ("contextSettings", contextSettings)]]) style
    else style in
  let style :=
    match StyleOptions.shadow options with
    | Some sh =>
        set (u "shadows") (VArr [obj [
          ("_class", str "shadow");
          ("color", obj [("_class", str "color"); ("red", VNum 0); ("green", VNum 0);
                         ("blue", VNum 0); ("alpha", VNum (3 # 20))]);
          ("offsetX", int 0);
          ("offsetY", orElse (Shadow.offsetY sh) (int 4));
          ("blurRadius", orElse (Shadow.blur sh) (int 12));
          ("spread", int 0)]]) style
    | None => style
    end in
  let style :=
    if wantsTextStyle options then set (u "textStyle") (textStyleOf options) style
    else style in
  Gen.ret style.

(** *** createRectangle *)

Definition curvePoint (cornerRadius : value) (at_ : string) : value :=
  obj [("_class", str "curvePoint"); ("cornerRadius", cornerRadius);
       ("curveFrom", str at_); ("curveMode", int 1); ("curveTo", str at_);
       ("hasCurveFrom", VBool false); ("hasCurveTo", VBool false);
       ("point", str at_)].

Definition createRectangle (frame : Frame.t) (style : StyleOptions.t) (name : jstring)
  : Gen.Gen value :=
  let cornerRadius := orElse (StyleOptions.cornerRadius style) (int 0) in
  draw layer <- createLayerBase (u "rectangle") frame
      (obj [("constrainProportions",
             orElse (StyleOptions.constrainProportions style) (VBool false))]) in
  let layer := set (u "name") (VStr name) layer in
  let layer := set (u "edited") (VBool false) layer in
  let layer := set (u "isClosed") (VBool true) layer in
  let layer := set (u "pointRadiusBehaviour") (int 1) layer in
  let layer := set (u "hasClippingMask") (VBool false) layer in
  let layer := set (u "clippingMaskMode") (int 0) layer in
  let layer := set (u "fixedRadius") cornerRadius layer in
  let layer := set (u "hasConvertedToNewRoundCorners") (VBool true) layer in
  let layer := set (u "needsConvertionToNewRoundCorners") (VBool false) layer in
  let layer := set (u "points") (VArr [
      curvePoint cornerRadius "{0, 0}";
      curvePoint cornerRadius "{1, 0}";
      curvePoint cornerRadius "{1, 1}";
      curvePoint cornerRadius "{0, 1}"]) layer in
  draw st <- createStyle style in
  Gen.ret (set (u "style") st layer).

(** *** createText *)

(** [/[一-龥]/.test(text)] *)
Definition hasChinese (text : jstring) : bool :=
  Regex.search (Class (range 19968 40869)) text.

Definition createText (text : jstring) (frame : Frame.t) (style : TextSpec.t)
  : Gen.Gen value :=
  draw layer <- createLayerBase (u "text") frame (obj []) in
  let layer :=
    set (u "name") (orElse (VStr (JsString.substring0 30 text)) (str "Text")) layer in
  let color :=
    if truthy (TextSpec.color style) then parseColor (TextSpec.color style)
    else obj [("_class", str "color"); ("red", VNum 0); ("green", VNum 0);
              ("blue", VNum 0); ("alpha", VNum 1)] in
  let fontSize := numOr (TextSpec.fontSize style) 16 in
  let fontFamily := strOr (TextSpec.fontFamily style) (u "Roboto-Regular") in
  let alignment : Z :=
    match TextSpec.alignment style with
    | VStr a => if JsString.eqb a (u "center") then 2%Z
                else if JsString.eqb a (u "right") then 1%Z else 0%Z
    | _ => 0%Z
    end in
  let displayFontFamily :=
    if hasChinese text
    then orElse (get fontFamily CHINESE_FONT_MAP) (str "PingFangSC-Regular")
    else VStr fontFamily in
  let displayFontSize :=
    if hasChinese text then JsNum.ofZ (JsNum.round (JsNum.fmul fontSize (JsNum.literal (12 # 10))))
    else fontSize in
  let layer := set (u "attributedString") (obj [
    ("_class", str "attributedString");
    ("string", VStr text);
    ("attributes", VArr [obj [
       ("_class", str "stringAttribute");
       ("location", int 0);
       ("length", VNum (JsNum.ofNat (length text)));
       ("attributes", obj [
          ("MSAttributedStringFontAttribute", obj [
             ("_class", str "fontDescriptor");
             ("attributes", obj [("name", VStr fontFamily); ("size", VNum fontSize)])]);
          ("kerning", VNum 0);
          ("MSAttributedStringColorAttribute", color);
          ("paragraphStyle", obj [
             ("_class", str "paragraphStyle");
             ("alignment", int alignment);
             ("maximumLineHeight", VNum (JsNum.fmul fontSize (JsNum.literal (12 # 10))));
             ("minimumLineHeight", VNum (JsNum.fmul fontSize (JsNum.literal (12 # 10))));
             ("paragraphSpacing", int 0);
             ("lineHeightMultiple", VNum (6 # 5));
             ("allowsDefaultTighteningForTruncation", int 0)]);
          ("textStyleVerticalAlignmentKey", int 2);
          ("MSAttributedStringTextTransformAttribute", int 0);
          ("underlineStyle", int 0);
          ("strikethroughStyle", int 0)])]])]) layer in
  let layer := set (u "textBehaviour") (int 0) layer in
  let layer := set (u "glyphBounds") (str "") layer in
  let layer := set (u "lineSpacingBehaviour") (int 1) layer in
  let layer := set (u "automaticallyDrawOnUnderlyingPath") (VBool false) layer in
  let layer := set (u "dontSynchroniseWithSymbol") (VBool true) layer in
  let verticalAlignment : Z := if (alignment =? 2)%Z then 0%Z else 0%Z in
  let styleOptions :=
    StyleOptions.make VUndef VUndef (Some []) VUndef VUndef VUndef None
      displayFontFamily (Some displayFontSize) (Some fontSize)
      (int alignment) (int verticalAlignment) color in
  draw st <- createStyle styleOptions in
  Gen.ret (set (u "style") st layer).

(** *** createBackgroundRect *)
Definition createBackgroundRect (frame : Frame.t) (backgroundColor : value)
  : Gen.Gen value :=
  draw layer <- createLayerBase (u "rectangle") frame (obj []) in
  let layer := set (u "name") (str "background") layer in
  let layer := set (u "edited") (VBool false) layer in
  let layer := set (u "isClosed") (VBool true) layer in
  let layer := set (u "pointRadiusBehaviour") (int 1) layer in
  let layer := set (u "hasClippingMask") (VBool true) layer in
  let layer := set (u "clippingMaskMode") (int 0) layer in
  let layer := set (u "fixedRadius") (int 0) layer in
  let layer := set (u "hasConvertedToNewRoundCorners") (VBool true) layer in
  let layer := set (u "needsConvertionToNewRoundCorners") (VBool false) layer in
  let layer := set (u "points") (VArr [
      curvePoint (int 0) "{0, 0}";
      curvePoint (int 0) "{1, 0}";
      curvePoint (int 0) "{1, 1}";
      curvePoint (int 0) "{0, 1}"]) layer in
  draw st <- createStyle
      (StyleOptions.make VUndef VUndef (Some [backgroundColor]) VUndef VUndef VUndef None
                         VUndef None None VUndef VUndef VUndef) in
  Gen.ret (set (u "style") st layer).

Definition rulerData : value :=
  obj [("_class", str "rulerData"); ("base", int 0); ("guides", VArr [])].

(** *** createArtboard *)
Definition createArtboard (name : jstring) (width height : Q) (backgroundColor : value)
  : Gen.Gen value :=
  draw layer <- createLayerBase (u "artboard") (Frame.make 0 0 width height) (obj []) in
  let layer := set (u "name") (VStr name) layer in
  let layer := set (u "hasClickThrough") (VBool true) layer in
  let layer :=
    set (u "groupLayout") (obj [("_class", str "MSImmutableFreeformGroupLayout")]) layer in
  let layer := set (u "hasBackgroundColor") (VBool false) layer in
  let layer := set (u "backgroundColor") (parseColor backgroundColor) layer in
  let layer := set (u "horizontalRulerData") rulerData layer in
  let layer := set (u "verticalRulerData") rulerData layer in
  draw bg <- createBackgroundRect (Frame.make 0 0 width height) backgroundColor in
  let layer := set (u "layers") (VArr [bg]) layer in
  let layer := set (u "includeBackgroundColorInExport") (VBool false) layer in
  let layer := set (u "includeInCloudUpload") (VBool true) layer in
  let layer := set (u "isFlowHome") (VBool false) layer in
  let layer := set (u "resizesContent") (VBool false) layer in
  Gen.ret layer.

(** *** createPage *)
Definition createPage (name : jstring) (layers : list value) : Gen.Gen value :=
  draw id <- generateUUID in
  Gen.ret (obj [
    ("_class", str "page");
    ("do_objectID", VStr id);
    ("name", VStr name);
    ("hasClickThrough", VBool true);
    ("groupLayout", obj [("_class", str "MSImmutableFreeformGroupLayout")]);
    ("horizontalRulerData", rulerData);
    ("verticalRulerData", rulerData);
    ("layers", VArr layers);
    ("resizingConstraint", int 63);
    ("resizingType", int 0);
    ("rotation", int 0);
    ("shouldBreakMaskChain", VBool false);
    ("exportOptions", obj [
       ("_class", str "exportOptions");
       ("exportFormats", VArr []);
       ("includedLayerIds", VArr []);
       ("layerOptions", int 0);
       ("shouldTrim", VBool false)]);
    ("isFixedToViewport", VBool false);
    ("isFlippedHorizontal", VBool false);
    ("isFlippedVertical", VBool false);
    ("isLocked", VBool false);
    ("isVisible", VBool true);
    ("layerListExpandedType", int 0);
    ("nameIsFixed", VBool false)]).

(** *** generateSketchDocument *)
Definition container (cls : string) : Gen.Gen value :=
  draw id <- generateUUID in
  Gen.ret (obj [("_class", str cls); ("do_objectID", VStr id); ("objects", VArr [])]).

Definition generateSketchDocument (pages : list value) : Gen.Gen value :=
  draw id <- generateUUID in
  draw assetsId <- generateUUID in
  draw layerStyles <- container "sharedStyleContainer" in
  draw layerSymbols <- container "symbolContainer" in
  draw layerTextStyles <- container "sharedTextStyleContainer" in
  draw sharedSwatches <- container "swatchContainer" in
  Gen.ret (obj [
    ("_class", str "document");
    ("do_objectID", VStr id);
    ("appVersion", VStr SKETCH_VERSION);
    ("build", int SKETCH_BUILD);
    ("currentPageIndex", int 0);
    ("colorSpace", int 1);
    ("assets", obj [
       ("_class", str "assetCollection");
       ("do_objectID", VStr assetsId);
       ("colorAssets", VArr []);
       ("gradientAssets", VArr []);
       ("images", VArr []);
       ("colors", VArr []);
       ("gradients", VArr [])]);
    ("foreignLayerStyles", VArr []);
    ("foreignSymbols", VArr []);
    ("foreignTextStyles", VArr []);
    ("foreignSwatches", VArr []);
    ("layerStyles", layerStyles);
    ("layerSymbols", layerSymbols);
    ("layerTextStyles", layerTextStyles);
    ("sharedSwatches", sharedSwatches);
    ("fontReferences", VArr []);
    ("documentState", obj [("_class", str "documentState")]);
    ("pages", VArr pages)]).

End Generator.

(* ================================================================== *)
(** ** scripts/sketch-validator.cjs *)
(* ================================================================== *)

(** The double quote, for messages that quote a tag. *)
Definition dq : jstring := [34%N].
Definition quoted (s : string) : jstring := dq ++ u s ++ dq.

(** [v === 'lit'] *)
Definition isStr (lit : string) (v : value) : bool :=
  match v with
  | VStr s => JsString.eqb s (u lit)
  | _ => false
  end.

(** [v === n] for a number literal *)
Definition isNum (n : Q) (v : value) : bool :=
  match v with
  | VNum q => JsNum.eqb q n
  | _ => false
  end.

(** [!v || typeof v !== 'object'] *)
Definition notObject (v : value) : bool := negb (truthy v) || negb (isType TObject v).

(** [errors.push(msg)] under a condition *)
Definition pushIf (c : bool) (msg : jstring) (errors : list jstring) : list jstring :=
  if c then errors ++ [msg] else errors.

(** [forEach] with an index over an array, accumulating messages. *)
Fixpoint forEachI {A B} (f : nat -> A -> B -> B) (i : nat) (l : list A) (acc : B) : B :=
  match l with
  | [] => acc
  | x :: l' => forEachI f (S i) l' (f i x acc)
  end.

(** [Object.entries]: keys that are array indices first, in ascending
    order, then the other keys in insertion order. *)
Fixpoint insertByIndex (e : nat * (jstring * value)) (l : list (nat * (jstring * value)))
  : list (nat * (jstring * value)) :=
  match l with
  | [] => [e]
  | e' :: l' => if (fst e <? fst e')%nat then e :: e' :: l' else e' :: insertByIndex e l'
  end.

Definition indexed (ps : list (jstring * value)) : list (nat * (jstring * value)) :=
  fold_left (fun acc kv =>
               match arrayIndex (fst kv) with
               | Some i => insertByIndex (i, kv) acc
               | None => acc
               end) ps [].

Definition entries (v : value) : list (jstring * value) :=
  match v with
  | VObj ps =>
      map snd (indexed ps)
      ++ filter (fun kv => arrayIndex (fst kv) = None) ps
  | VArr l => imap (fun i x => (JsString.ofNat i, x)) l
  | VStr s => imap (fun i c => (JsString.ofNat i, VStr [c])) s
  | _ => []
  end.

(** The identifier layout: [/^[0-9A-F]{8}-[0-9A-F]{4}-4[0-9A-F]{3}-[89AB][0-9A-F]{3}-[0-9A-F]{12}$/i] *)
Definition isUpperHex (c : N) : bool := range 48 57 c || range 65 70 c.
Definition isVariant (c : N) : bool := existsb (N.eqb c) [56; 57; 65; 66]%N.
Definition hexClass : regex := Class (ignoreCase isUpperHex).
Definition variantClass : regex := Class (ignoreCase isVariant).
Definition dash : regex := lit 45.

Definition uuidRegex : regex :=
  Cat (times 8 hexClass) (Cat dash
  (Cat (times 4 hexClass) (Cat dash
  (Cat (lit 52) (Cat (times 3 hexClass) (Cat dash
  (Cat variantClass (Cat (times 3 hexClass) (Cat dash
  (times 12 hexClass)))))))))).

(** The point layout: [/^\{-?\d+(\.\d+)?, -?\d+(\.\d+)?\}$/] *)
Definition digit : regex := Class (range 48 57).
Definition coordinate : regex :=
  Cat (opt (lit 45)) (Cat (plus digit) (opt (Cat (lit 46) (plus digit)))).
Definition pointPattern : regex :=
  Cat (lit 123) (Cat coordinate (Cat (lit 44) (Cat (lit 32) (Cat coordinate (lit 125))))).

(** [s.replace(pat, '')] for a string pattern: the first occurrence goes. *)
Fixpoint removeFirst (pat s : jstring) : jstring :=
  match s with
  | [] => []
  | c :: s' =>
      if JsString.startsWith pat s then drop (length pat) s
      else c :: removeFirst pat s'
  end.

(* ================================================================== *)
(** ** The file system *)
(* ================================================================== *)

Module FS.

(** A path is the list of its segments from the root. *)
Abbreviation path := (list jstring) (only parsing).

Inductive node : Type :=
| Dir
  (** a file whose text [JSON.parse] reads as the value *)
| JsonFile (v : value)
  (** any other file, with the message [JSON.parse] rejects its text with *)
| RawFile (syntaxMessage : jstring)
  (** an archive written by the packer: its entries, relative to the
      packed directory *)
| ZipFile (entries : list (path * node)).

Abbreviation fs := (gmap path node) (only parsing).

(** The root always exists. *)
Definition lookupNode (files : fs) (p : path) : option node :=
  match p with
  | [] => Some Dir
  | _ => files !! p
  end.

Definition existsSync (files : fs) (p : path) : bool :=
  match lookupNode files p with Some _ => true | None => false end.

(** Splitting at [/]. *)
Fixpoint splitAcc (s : jstring) (cur : jstring) : list jstring :=
  match s with
  | [] => [rev cur]
  | c :: s' => if (c =? 47)%N then rev cur :: splitAcc s' [] else splitAcc s' (c :: cur)
  end.

Definition dots1 : jstring := u ".".
Definition dots2 : jstring := u "..".

(** [path.join(dir, rel)] on POSIX: empty and [.] segments vanish, [..]
    climbs. *)
Definition pushSegment (p : path) (seg : jstring) : path :=
  if JsString.eqb seg [] || JsString.eqb seg dots1 then p
  else if JsString.eqb seg dots2 then removelast p
  else p ++ [seg].

Definition join (dir : path) (rel : jstring) : path :=
  fold_left pushSegment (splitAcc rel []) dir.

Definition render (p : path) : jstring :=
  match p with
  | [] => u "/"
  | _ => concat (map (fun seg => u "/" ++ seg) p)
  end.

Definition ioError (code : string) (p : path) : jsError :=
  mkError (u "Error") (u code ++ u " '" ++ render p ++ u "'") [(u "code", VStr (u code))].

(** The text of the [SyntaxError] of [JSON.parse] on an archive, whose first
    unit is the [P] of the signature [PK]. The wording is the engine's: this
    is the one of V8 up to Node 18, later versions quote the unit and the
    input. *)
Definition archiveParseMessage : jstring := u "Unexpected token P in JSON at position 0".

(** [JSON.parse(fs.readFileSync(p, 'utf8'))] *)
Definition readJSON (files : fs) (p : path) : outcome value :=
  match lookupNode files p with
  | None => Throw (ioError "ENOENT: no such file or directory, open" p)
  | Some Dir =>
      Throw (mkError (u "Error") (u "EISDIR: illegal operation on a directory, read")
                     [(u "code", VStr (u "EISDIR"))])
  | Some (JsonFile v) => Return v
  | Some (RawFile msg) => Throw (syntaxError msg)
  | Some (ZipFile _) => Throw (syntaxError archiveParseMessage)
  end.

Definition isPrefix (p q : path) : bool :=
  (length p <=? length q)%nat && bool_decide (take (length p) q = p).

(** [fs.rmSync(p, { recursive: true })] *)
Definition rmSync (files : fs) (p : path) : fs :=
  filter (fun kv => isPrefix p (fst kv) = false) files.

(** [fs.mkdirSync(p, { recursive: true })]: every missing ancestor is
    created; a file in the way is an error. *)
Fixpoint mkdirFrom (files : fs) (done : path) (todo : list jstring) : outcome fs :=
  match todo with
  | [] => Return files
  | seg :: todo' =>
      let here := done ++ [seg] in
      match files !! here with
      | None => mkdirFrom (<[here := Dir]> files) here todo'
      | Some Dir => mkdirFrom files here todo'
      | Some _ =>
          Throw (ioError (match todo' with
                          | [] => "EEXIST: file already exists, mkdir"
                          | _ => "ENOTDIR: not a directory, mkdir"
                          end) (done ++ todo))
      end
  end.

Definition mkdirSync (files : fs) (p : path) : outcome fs := mkdirFrom files [] p.

(** [fs.writeFileSync(p, text)]: the parent must be a directory and the
    target must not be one. *)
Definition writeFileSync (files : fs) (p : path) (n : node) : outcome fs :=
  match p with
  | [] => Throw (ioError "EISDIR: illegal operation on a directory, open" p)
  | _ =>
      match lookupNode files (removelast p) with
      | Some Dir =>
          match files !! p with
          | Some Dir => Throw (ioError "EISDIR: illegal operation on a directory, open" p)
          | _ => Return (<[p := n]> files)
          end
      | Some _ => Throw (ioError "ENOTDIR: not a directory, open" p)
      | None => Throw (ioError "ENOENT: no such file or directory, open" p)
      end
  end.

(** Everything below a directory, relative to it. *)
Definition below (files : fs) (dir : path) : list (path * node) :=
  omap (fun kv =>
          if isPrefix dir (fst kv) && negb (length (fst kv) =? length dir)%nat
          then Some (drop (length dir) (fst kv), snd kv) else None)
       (map_to_list files).

End FS.

(** [JSON.parse(JSON.stringify(v))]: entries holding [undefined] or a
    function vanish from objects and read [null] in arrays. *)
Fixpoint jsonRoundTrip (v : value) : value :=
  match v with
  | VObj ps =>
      VObj ((fix props (ps : list (jstring * value)) : list (jstring * value) :=
               match ps with
               | [] => []
               | (k, x) :: ps' =>
                   match x with
                   | VUndef => props ps'
                   | VInherited f =>
                       if JsString.eqb f (u "__proto__") then (k, VObj []) :: props ps'
                       else props ps'
                   | _ => (k, jsonRoundTrip x) :: props ps'
                   end
               end) ps)
  | VArr l =>
      VArr ((fix items (l : list value) : list value :=
               match l with
               | [] => []
               | x :: l' =>
                   match x with
                   | VUndef => VNull :: items l'
                   | VInherited f =>
                       (if JsString.eqb f (u "__proto__") then VObj [] else VNull) :: items l'
                   | _ => jsonRoundTrip x :: items l'
                   end
               end) l)
  | VInherited f => if JsString.eqb f (u "__proto__") then VObj [] else VUndef
  | _ => v
  end.

Section Validator.

(** [Number.prototype.toString], the engine's shortest decimal that reads
    back as the same binary64 number, is left to the engine. *)
Variable numberToString : Q -> jstring.

(** [String(v)], as [RegExp.prototype.test] and [+] apply it.  An object
    that carries its own [toString] entry has no primitive value. *)
Fixpoint toStringV (v : value) : outcome jstring :=
  match v with
  | VUndef => Return (u "undefined")
  | VNull => Return (u "null")
  | VBool b => Return (if b then u "true" else u "false")
  | VNum q => Return (numberToString q)
  | VStr s => Return s
  | VArr l =>
      (fix join (l : list value) (first : bool) : outcome jstring :=
         match l with
         | [] => Return []
         | x :: l' =>
             do sx <- match x with
                      | VUndef | VNull => Return []
                      | _ => toStringV x
                      end in
             do rest <- join l' false in
             Return ((if first then [] else u ",") ++ sx ++ rest)
         end) l true
  | VObj ps =>
      match lookup (u "toString") ps with
      | Some _ => Throw (typeError (u "Cannot convert object to primitive value"))
      | None => Return (u "[object Object]")
      end
  | VInherited k =>
      if JsString.eqb k (u "__proto__") then Return (u "[object Object]")
      else Return (u "function " ++ k ++ u "() { [native code] }")
  end.

(** *** isValidUUID *)
Definition isValidUUID (uuid : value) : outcome bool :=
  do s <- toStringV uuid in
  Return (Regex.matches uuidRegex s).

(** *** validateColor *)
Definition validateColor (color : value) (path : jstring) : list jstring :=
  let errors := [] in
  if notObject color then errors ++ [path ++ u " must be an object"] else
  let errors :=
    pushIf (negb (isStr "color" (get (u "_class") color)))
           (path ++ u "._class must be " ++ quoted "color") errors in
  forEachI (fun _ prop errors =>
              pushIf (match get (u prop) color with
                      | VNum q => JsNum.ltb q 0 || JsNum.ltb 1 q
                      | _ => true
                      end)
                     (path ++ u "." ++ u prop ++ u " must be a number between 0 and 1")
                     errors)
           0 ["red"; "green"; "blue"; "alpha"] errors.

(** *** validateRect *)
Definition validateRect (rect : value) (path : jstring) : list jstring :=
  let errors := [] in
  if notObject rect then errors ++ [path ++ u " must be an object"] else
  let errors :=
    pushIf (negb (isStr "rect" (get (u "_class") rect)))
           (path ++ u "._class must be " ++ quoted "rect") errors in
  forEachI (fun _ prop errors =>
              pushIf (negb (isType TNumber (get (u prop) rect)))
                     (path ++ u "." ++ u prop ++ u " must be a number") errors)
           0 ["x"; "y"; "width"; "height"] errors.

(** *** validateRulerData *)
Definition validateRulerData (data : value) (path : jstring) : list jstring :=
  let errors := [] in
  if notObject data then errors ++ [path ++ u " must be an object"] else
  let errors :=
    pushIf (negb (isStr "rulerData" (get (u "_class") data)))
           (path ++ u "._class must be " ++ quoted "rulerData") errors in
  let errors :=
    pushIf (negb (isType TNumber (get (u "base") data)))
           (path ++ u ".base must be a number") errors in
  let errors :=
    pushIf (negb (isArray (get (u "guides") data)))
           (path ++ u ".guides must be an array") errors in
  errors.

(** *** validateExportOptions *)
Definition validateExportOptions (options : value) (path : jstring) : list jstring :=
  let errors := [] in
  if notObject options then errors ++ [path ++ u " must be an object"] else
  let errors :=
    pushIf (negb (isStr "exportOptions" (get (u "_class") options)))
           (path ++ u "._class must be " ++ quoted "exportOptions") errors in
  let errors :=
    pushIf (negb (isArray (get (u "exportFormats") options)))
           (path ++ u ".exportFormats must be an array") errors in
  let errors :=
    pushIf (negb (isArray (get (u "includedLayerIds") options)))
           (path ++ u ".includedLayerIds must be an array") errors in
  let errors :=
    pushIf (negb (isType TNumber (get (u "layerOptions") options)))
           (path ++ u ".layerOptions must be a number") errors in
  let errors :=
    pushIf (negb (isType TBoolean (get (u "shouldTrim") options)))
           (path ++ u ".shouldTrim must be a boolean") errors in
  errors.

(** *** validateCurvePoint *)
Definition validateCurvePoint (point : value) (path : jstring) : list jstring :=
  let errors := [] in
  if notObject point then errors ++ [path ++ u " must be an object"] else
  let errors :=
    pushIf (negb (isStr "curvePoint" (get (u "_class") point)))
           (path ++ u "._class must be " ++ quoted "curvePoint") errors in
  let errors :=
    pushIf (negb (isType TNumber (get (u "cornerRadius") point)))
           (path ++ u ".cornerRadius must be a number") errors in
  let errors :=
    pushIf (negb (isType TNumber (get (u "curveMode") point)))
           (path ++ u ".curveMode must be a number") errors in
  let errors :=
    pushIf (negb (isType TBoolean (get (u "hasCurveFrom") point)))
           (path ++ u ".hasCurveFrom must be a boolean") errors in
  let errors :=
    pushIf (negb (isType TBoolean (get (u "hasCurveTo") point)))
           (path ++ u ".hasCurveTo must be a boolean") errors in
  forEachI (fun _ prop errors =>
              pushIf (match get (u prop) point with
                      | VStr s => negb (Regex.matches pointPattern s)
                      | _ => true
                      end)
                     (path ++ u "." ++ u prop ++ u " must be a point string like "
                           ++ quoted "{0, 0}") errors)
           0 ["point"; "curveFrom"; "curveTo"] errors.

(** *** validateFill *)
Definition validateFill (fill : value) (path : jstring) : list jstring :=
  let errors := [] in
  if notObject fill then errors ++ [path ++ u " must be an object"] else
  let errors :=
    pushIf (negb (isStr "fill" (get (u "_class") fill)))
           (path ++ u "._class must be " ++ quoted "fill") errors in
  let errors :=
    pushIf (negb (isType TNumber (get (u "fillType") fill)))
           (path ++ u ".fillType must be a number") errors in
  let errors :=
    pushIf (negb (isType TBoolean (get (u "isEnabled") fill)))
           (path ++ u ".isEnabled must be a boolean") errors in
  let errors :=
    if truthy (get (u "color") fill)
    then errors ++ validateColor (get (u "color") fill) (path ++ u ".color")
    else errors in
  errors.

(** *** validateStyle *)
Definition validateStyle (style : value) (path : jstring) : outcome (list jstring) :=
  let errors := [] in
  if notObject style then Return (errors ++ [path ++ u " must be an object"]) else
  let errors :=
    pushIf (negb (isStr "style" (get (u "_class") style)))
           (path ++ u "._class must be " ++ quoted "style") errors in
  do bad <- (if truthy (get (u "do_objectID") style)
             then do ok <- isValidUUID (get (u "do_objectID") style) in Return (negb ok)
             else Return false) in
  let errors := pushIf bad (path ++ u ".do_objectID must be a valid UUID") errors in
  let errors :=
    match get (u "fills") style with
    | VArr fills =>
        forEachI (fun i fill errors =>
                    errors ++ validateFill fill (path ++ u ".fills[" ++ JsString.ofNat i ++ u "]"))
                 0 fills errors
    | _ => errors ++ [path ++ u ".fills must be an array"]
    end in
  let errors :=
    pushIf (negb (isArray (get (u "borders") style)))
           (path ++ u ".borders must be an array") errors in
  let errors :=
    pushIf (negb (isArray (get (u "shadows") style)))
           (path ++ u ".shadows must be an array") errors in
  let errors :=
    pushIf (negb (isArray (get (u "innerShadows") style)))
           (path ++ u ".innerShadows must be an array") errors in
  Return errors.

(** *** validateRectangle *)
Definition validateRectangle (rect : value) (path : jstring) : outcome (list jstring) :=
  let errors := [] in
  if notObject rect then Return (errors ++ [path ++ u " must be an object"]) else
  let errors :=
    pushIf (negb (isStr "rectangle" (get (u "_class") rect)))
           (path ++ u "._class must be " ++ quoted "rectangle") errors in
  do ok <- isValidUUID (get (u "do_objectID") rect) in
  let errors := pushIf (negb ok) (path ++ u ".do_objectID must be a valid UUID") errors in
  let errors :=
    pushIf (negb (isType TString (get (u "name") rect)))
           (path ++ u ".name must be a string") errors in
  let errors := errors ++ validateRect (get (u "frame") rect) (path ++ u ".frame") in
  let errors :=
    pushIf (negb (isType TNumber (get (u "resizingConstraint") rect)))
           (path ++ u ".resizingConstraint must be a number") errors in
  let errors :=
    pushIf (negb (isType TNumber (get (u "booleanOperation") rect)))
           (path ++ u ".booleanOperation must be a number") errors in
  let errors :=
    errors ++ validateExportOptions (get (u "exportOptions") rect) (path ++ u ".exportOptions") in
  let errors :=
    pushIf (negb (isType TBoolean (get (u "isVisible") rect)))
           (path ++ u ".isVisible must be a boolean") errors in
  let errors :=
    pushIf (negb (isType TBoolean (get (u "isLocked") rect)))
           (path ++ u ".isLocked must be a boolean") errors in
  let errors :=
    pushIf (negb (isType TBoolean (get (u "edited") rect)))
           (path ++ u ".edited must be a boolean") errors in
  let errors :=
    pushIf (negb (isType TBoolean (get (u "isClosed") rect)))
           (path ++ u ".isClosed must be a boolean") errors in
  let errors :=
    pushIf (negb (isType TNumber (get (u "pointRadiusBehaviour") rect)))
           (path ++ u ".pointRadiusBehaviour must be a number") errors in
  let errors :=
    pushIf (negb (isType TNumber (get (u "fixedRadius") rect)))
           (path ++ u ".fixedRadius must be a number") errors in
  let errors :=
    match get (u "points") rect with
    | VArr points =>
        if negb (length points =? 4)%nat
        then errors ++ [path ++ u ".points must have exactly 4 points"]
        else forEachI (fun i point errors =>
                         errors ++ validateCurvePoint point
                           (path ++ u ".points[" ++ JsString.ofNat i ++ u "]"))
                      0 points errors
    | _ => errors ++ [path ++ u ".points must be an array"]
    end in
  if truthy (get (u "style") rect) then
    do es <- validateStyle (get (u "style") rect) (path ++ u ".style") in
    Return (errors ++ es)
  else Return errors.

(** [a?.k] *)
Definition getOpt (k : jstring) (a : value) : value :=
  match a with
  | VUndef | VNull => VUndef
  | _ => get k a
  end.

(** *** validateText *)
Definition validateStringAttribute (path : jstring) (i : nat) (attr : value)
    (errors : list jstring) : outcome (list jstring) :=
  let here := path ++ u ".attributedString.attributes[" ++ JsString.ofNat i ++ u "]" in
  do cls <- getE (u "_class") attr in
  let errors :=
    pushIf (negb (isStr "stringAttribute" cls))
           (here ++ u "._class must be " ++ quoted "stringAttribute") errors in
  let errors :=
    pushIf (negb (isType TNumber (get (u "location") attr)))
           (here ++ u ".location must be a number") errors in
  let errors :=
    pushIf (negb (isType TNumber (get (u "length") attr)))
           (here ++ u ".length must be a number") errors in
  let fontDesc :=
    getOpt (u "MSAttributedStringFontAttribute") (get (u "attributes") attr) in
  if truthy fontDesc then
    let errors :=
      pushIf (negb (isStr "fontDescriptor" (get (u "_class") fontDesc)))
             (here ++ u ".MSAttributedStringFontAttribute._class must be "
                   ++ quoted "fontDescriptor") errors in
    if notObject (get (u "attributes") fontDesc) then
      Return (errors ++ [here ++
        u ".MSAttributedStringFontAttribute.attributes is required (Figma compatibility)"])
    else
      let errors :=
        pushIf (negb (isType TString (get (u "name") (get (u "attributes") fontDesc))))
               (here ++ u ".MSAttributedStringFontAttribute.attributes.name must be a string")
               errors in
      let errors :=
        pushIf (negb (isType TNumber (get (u "size") (get (u "attributes") fontDesc))))
               (here ++ u ".MSAttributedStringFontAttribute.attributes.size must be a number")
               errors in
      Return errors
  else Return errors.

Definition validateText (text : value) (path : jstring) : outcome (list jstring) :=
  let errors := [] in
  if notObject text then Return (errors ++ [path ++ u " must be an object"]) else
  let errors :=
    pushIf (negb (isStr "text" (get (u "_class") text)))
           (path ++ u "._class must be " ++ quoted "text") errors in
  do ok <- isValidUUID (get (u "do_objectID") text) in
  let errors := pushIf (negb ok) (path ++ u ".do_objectID must be a valid UUID") errors in
  let errors :=
    pushIf (negb (isType TString (get (u "name") text)))
           (path ++ u ".name must be a string") errors in
  let errors := errors ++ validateRect (get (u "frame") text) (path ++ u ".frame") in
  let errors :=
    pushIf (negb (isType TNumber (get (u "resizingConstraint") text)))
           (path ++ u ".resizingConstraint must be a number") errors in
  let errors :=
    pushIf (negb (isType TNumber (get (u "booleanOperation") text)))
           (path ++ u ".booleanOperation must be a number") errors in
  let errors :=
    errors ++ validateExportOptions (get (u "exportOptions") text) (path ++ u ".exportOptions") in
  let errors :=
    pushIf (negb (isType TBoolean (get (u "isVisible") text)))
           (path ++ u ".isVisible must be a boolean") errors in
  let attributedString := get (u "attributedString") text in
  do errors <-
    (if notObject attributedString then
       Return (errors ++ [path ++ u ".attributedString must be an object"])
     else
       let errors :=
         pushIf (negb (isStr "attributedString" (get (u "_class") attributedString)))
                (path ++ u ".attributedString._class must be " ++ quoted "attributedString")
                errors in
       let errors :=
         pushIf (negb (isType TString (get (u "string") attributedString)))
                (path ++ u ".attributedString.string must be a string") errors in
       match get (u "attributes") attributedString with
       | VArr attributes => forEachE (validateStringAttribute path) 0 attributes errors
       | _ => Return (errors ++ [path ++ u ".attributedString.attributes must be an array"])
       end) in
  if truthy (get (u "style") text) then
    do es <- validateStyle (get (u "style") text) (path ++ u ".style") in
    Return (errors ++ es)
  else Return errors.

(** [groupLayout] is checked the same way on artboards and pages. *)
Definition checkGroupLayout (o : value) (path : jstring) (errors : list jstring)
  : list jstring :=
  if notObject (get (u "groupLayout") o) then
    errors ++ [path ++ u ".groupLayout is required for Figma compatibility"]
  else
    pushIf (negb (isStr "MSImmutableFreeformGroupLayout"
                        (get (u "_class") (get (u "groupLayout") o))))
           (path ++ u ".groupLayout._class must be " ++ quoted "MSImmutableFreeformGroupLayout")
           errors.

(** *** validateArtboard *)

(** The callback of [artboard.layers.forEach]. *)
Definition validateArtboardLayer (path : jstring) (i : nat) (layer : value)
    (errors : list jstring) : outcome (list jstring) :=
  let here := path ++ u ".layers[" ++ JsString.ofNat i ++ u "]" in
  do cls <- getE (u "_class") layer in
  if isStr "rectangle" cls then
    do es <- validateRectangle layer here in Return (errors ++ es)
  else if isStr "text" cls then
    do es <- validateText layer here in Return (errors ++ es)
  else Return errors.

Definition validateArtboard (artboard : value) (path : jstring) : outcome (list jstring) :=
  let errors := [] in
  if notObject artboard then Return (errors ++ [path ++ u " must be an object"]) else
  let errors :=
    pushIf (negb (isStr "artboard" (get (u "_class") artboard)))
           (path ++ u "._class must be " ++ quoted "artboard") errors in
  do ok <- isValidUUID (get (u "do_objectID") artboard) in
  let errors := pushIf (negb ok) (path ++ u ".do_objectID must be a valid UUID") errors in
  let errors :=
    pushIf (negb (isType TString (get (u "name") artboard)))
           (path ++ u ".name must be a string") errors in
  let errors := checkGroupLayout artboard path errors in
  let errors := errors ++ validateRect (get (u "frame") artboard) (path ++ u ".frame") in
  let errors :=
    pushIf (negb (isType TNumber (get (u "resizingConstraint") artboard)))
           (path ++ u ".resizingConstraint must be a number") errors in
  let errors :=
    pushIf (negb (isType TNumber (get (u "booleanOperation") artboard)))
           (path ++ u ".booleanOperation must be a number") errors in
  let errors :=
    errors ++ validateExportOptions (get (u "exportOptions") artboard)
                (path ++ u ".exportOptions") in
  let errors :=
    pushIf (negb (isType TBoolean (get (u "isVisible") artboard)))
           (path ++ u ".isVisible must be a boolean") errors in
  let errors :=
    pushIf (negb (isType TBoolean (get (u "hasBackgroundColor") artboard)))
           (path ++ u ".hasBackgroundColor must be a boolean") errors in
  let errors :=
    if truthy (get (u "backgroundColor") artboard)
    then errors ++ validateColor (get (u "backgroundColor") artboard)
                     (path ++ u ".backgroundColor")
    else errors in
  let errors :=
    errors ++ validateRulerData (get (u "horizontalRulerData") artboard)
                (path ++ u ".horizontalRulerData") in
  let errors :=
    errors ++ validateRulerData (get (u "verticalRulerData") artboard)
                (path ++ u ".verticalRulerData") in
  let errors :=
    pushIf (negb (isType TBoolean (get (u "hasClickThrough") artboard)))
           (path ++ u ".hasClickThrough must be a boolean") errors in
  match get (u "layers") artboard with
  | VArr layers => forEachE (validateArtboardLayer path) 0 layers errors
  | _ => Return (errors ++ [path ++ u ".layers must be an array"])
  end.

(** *** validatePage *)

(** The callback of [page.layers.forEach]. *)
Definition validatePageLayer (path : jstring) (i : nat) (layer : value)
    (errors : list jstring) : outcome (list jstring) :=
  do cls <- getE (u "_class") layer in
  if isStr "artboard" cls then
    do es <- validateArtboard layer (path ++ u ".layers[" ++ JsString.ofNat i ++ u "]") in
    Return (errors ++ es)
  else Return errors.

Definition validatePage (page : value) (path : jstring) : outcome (list jstring) :=
  let errors := [] in
  if notObject page then Return (errors ++ [path ++ u " must be an object"]) else
  let errors :=
    pushIf (negb (isStr "page" (get (u "_class") page)))
           (path ++ u "._class must be " ++ quoted "page") errors in
  do ok <- isValidUUID (get (u "do_objectID") page) in
  let errors := pushIf (negb ok) (path ++ u ".do_objectID must be a valid UUID") errors in
  let errors :=
    pushIf (negb (isType TString (get (u "name") page)))
           (path ++ u ".name must be a string") errors in
  let errors := checkGroupLayout page path errors in
  let errors :=
    errors ++ validateRulerData (get (u "horizontalRulerData") page)
                (path ++ u ".horizontalRulerData") in
  let errors :=
    errors ++ validateRulerData (get (u "verticalRulerData") page)
                (path ++ u ".verticalRulerData") in
  let errors :=
    pushIf (negb (isType TBoolean (get (u "hasClickThrough") page)))
           (path ++ u ".hasClickThrough must be a boolean") errors in
  let errors :=
    errors ++ validateExportOptions (get (u "exportOptions") page) (path ++ u ".exportOptions") in
  match get (u "layers") page with
  | VArr layers => forEachE (validatePageLayer path) 0 layers errors
  | _ => Return (errors ++ [path ++ u ".layers must be an array"])
  end.

(** *** validateDocument *)
Definition validatePageRef (path : jstring) (i : nat) (pageRef : value)
    (errors : list jstring) : outcome (list jstring) :=
  let here := path ++ u ".pages[" ++ JsString.ofNat i ++ u "]" in
  do cls <- getE (u "_class") pageRef in
  let errors :=
    pushIf (negb (isStr "MSJSONFileReference" cls))
           (here ++ u "._class must be " ++ quoted "MSJSONFileReference") errors in
  let errors :=
    pushIf (negb (isStr "MSImmutablePage" (get (u "_ref_class") pageRef)))
           (here ++ u "._ref_class must be " ++ quoted "MSImmutablePage") errors in
  let errors :=
    pushIf (negb (isType TString (get (u "_ref") pageRef)))
           (here ++ u "._ref must be a string") errors in
  Return errors.

(** [!o.k || o.k._class !== 'cls'] *)
Definition lacksClass (k : string) (cls : string) (o : value) : bool :=
  negb (truthy (get (u k) o)) || negb (isStr cls (get (u "_class") (get (u k) o))).

Definition validateDocument (doc : value) (path : jstring) : outcome (list jstring) :=
  let errors := [] in
  if notObject doc then Return (errors ++ [path ++ u " must be an object"]) else
  let errors :=
    pushIf (negb (isStr "document" (get (u "_class") doc)))
           (path ++ u "._class must be " ++ quoted "document") errors in
  do ok <- isValidUUID (get (u "do_objectID") doc) in
  let errors := pushIf (negb ok) (path ++ u ".do_objectID must be a valid UUID") errors in
  let errors :=
    pushIf (negb (isType TString (get (u "appVersion") doc)))
           (path ++ u ".appVersion must be a string") errors in
  let errors :=
    pushIf (negb (isType TNumber (get (u "build") doc)))
           (path ++ u ".build must be a number") errors in
  let errors :=
    pushIf (negb (isType TNumber (get (u "currentPageIndex") doc)))
           (path ++ u ".currentPageIndex must be a number") errors in
  let errors :=
    pushIf (negb (isType TNumber (get (u "colorSpace") doc)))
           (path ++ u ".colorSpace must be a number") errors in
  do errors <-
    match get (u "pages") doc with
    | VArr pages => forEachE (validatePageRef path) 0 pages errors
    | _ => Return (errors ++ [path ++ u ".pages must be an array"])
    end in
  let errors :=
    pushIf (lacksClass "assets" "assetCollection" doc)
           (path ++ u ".assets must have _class " ++ quoted "assetCollection") errors in
  let errors :=
    pushIf (lacksClass "layerStyles" "sharedStyleContainer" doc)
           (path ++ u ".layerStyles must have _class " ++ quoted "sharedStyleContainer")
           errors in
  let errors :=
    pushIf (lacksClass "layerSymbols" "symbolContainer" doc)
           (path ++ u ".layerSymbols must have _class " ++ quoted "symbolContainer") errors in
  let errors :=
    pushIf (lacksClass "layerTextStyles" "sharedTextStyleContainer" doc)
           (path ++ u ".layerTextStyles must have _class " ++ quoted "sharedTextStyleContainer")
           errors in
  Return errors.

(** *** validateMeta *)
Definition validateMetaArtboard (path pageId : jstring) (entry : jstring * value)
    (errors : list jstring) : outcome (list jstring) :=
  let '(artboardId, artboardData) := entry in
  let here := path ++ u ".pagesAndArtboards[" ++ pageId ++ u "].artboards" in
  do ok <- isValidUUID (VStr artboardId) in
  let errors :=
    pushIf (negb ok) (here ++ u " has invalid UUID key: " ++ artboardId) errors in
  do name <- getE (u "name") artboardData in
  let errors :=
    pushIf (negb (isType TString name))
           (here ++ u "[" ++ artboardId ++ u "].name must be a string") errors in
  Return errors.

Definition validateMetaPage (path : jstring) (entry : jstring * value)
    (errors : list jstring) : outcome (list jstring) :=
  let '(pageId, pageData) := entry in
  do ok <- isValidUUID (VStr pageId) in
  let errors :=
    pushIf (negb ok) (path ++ u ".pagesAndArtboards has invalid UUID key: " ++ pageId)
           errors in
  do name <- getE (u "name") pageData in
  let errors :=
    pushIf (negb (isType TString name))
           (path ++ u ".pagesAndArtboards[" ++ pageId ++ u "].name must be a string")
           errors in
  if notObject (get (u "artboards") pageData) then
    Return (errors ++ [path ++ u ".pagesAndArtboards[" ++ pageId
                            ++ u "].artboards must be an object"])
  else
    forEachE (fun _ => validateMetaArtboard path pageId) 0
             (entries (get (u "artboards") pageData)) errors.

Definition validateMeta (meta : value) (path : jstring) : outcome (list jstring) :=
  let errors := [] in
  if notObject meta then Return (errors ++ [path ++ u " must be an object"]) else
  let errors :=
    pushIf (negb (isType TString (get (u "commit") meta)))
           (path ++ u ".commit must be a string") errors in
  let errors :=
    pushIf (negb (isType TNumber (get (u "version") meta)))
           (path ++ u ".version must be a number (121-146)") errors in
  let errors :=
    pushIf (negb (isNum 99 (get (u "compatibilityVersion") meta)))
           (path ++ u ".compatibilityVersion must be 99") errors in
  let errors :=
    pushIf (negb (isType TString (get (u "app") meta)))
           (path ++ u ".app must be a string") errors in
  let errors :=
    pushIf (negb (isType TNumber (get (u "build") meta)))
           (path ++ u ".build must be a number") errors in
  let errors :=
    pushIf (negb (isType TString (get (u "appVersion") meta)))
           (path ++ u ".appVersion must be a string") errors in
  let errors :=
    pushIf (negb (isType TNumber (get (u "autosaved") meta)))
           (path ++ u ".autosaved must be a number (0 or 1)") errors in
  if notObject (get (u "pagesAndArtboards") meta) then
    Return (errors ++ [path ++ u ".pagesAndArtboards must be an object"])
  else
    forEachE (fun _ => validateMetaPage path) 0
             (entries (get (u "pagesAndArtboards") meta)) errors.

(** *** validateUser *)
Definition validateUser (user : value) (pageIds : list jstring) (path : jstring)
  : list jstring :=
  let errors := [] in
  if notObject user then errors ++ [path ++ u " must be an object"] else
  let document := get (u "document") user in
  let errors :=
    if notObject document then errors ++ [path ++ u ".document must be an object"]
    else
      let errors :=
        pushIf (negb (isType TNumber (get (u "pageListHeight") document)))
               (path ++ u ".document.pageListHeight must be a number") errors in
      pushIf (negb (isType TNumber (get (u "pageListCollapsed") document)))
             (path ++ u ".document.pageListCollapsed must be a number") errors in
  forEachI (fun _ pageId errors =>
              if negb (truthy (get pageId user)) then
                errors ++ [path ++ u " missing data for page " ++ pageId]
              else
                let errors :=
                  pushIf (negb (isType TString (get (u "scrollOrigin") (get pageId user))))
                         (path ++ u "[" ++ pageId ++ u "].scrollOrigin must be a string")
                         errors in
                pushIf (negb (isType TNumber (get (u "zoomValue") (get pageId user))))
                       (path ++ u "[" ++ pageId ++ u "].zoomValue must be a number")
                       errors)
           0 pageIds errors.

(** *** validateSketchDirectory *)

Record validation := mkValidation { valid : bool; errors : list jstring }.

(** [ref._ref?.replace('pages/', '')]: [None] is [undefined]. *)
Definition refPageId (callee : string) (pageRef : value) : outcome (option jstring) :=
  do ref <- getE (u "_ref") pageRef in
  match ref with
  | VUndef | VNull => Return None
  | VStr s => Return (Some (removeFirst (u "pages/") s))
  | _ => Throw (typeError (u callee ++ u "._ref?.replace is not a function"))
  end.

(** The body of the [for (const pageRef of doc.pages)] loop. *)
Fixpoint validatePageFiles (files : FS.fs) (pagesDir : FS.path) (pageRefs : list value)
    (errors : list jstring) : list jstring * option jsError :=
  match pageRefs with
  | [] => (errors, None)
  | pageRef :: rest =>
      match refPageId "pageRef" pageRef with
      | Throw e => (errors, Some e)
      | Return (Some (c :: r)) =>
          let pageId := c :: r in
          let pagePath := FS.join pagesDir (pageId ++ u ".json") in
          if negb (FS.existsSync files pagePath) then
            validatePageFiles files pagesDir rest
              (errors ++ [u "Missing page file: pages/" ++ pageId ++ u ".json"])
          else
            match (do page <- FS.readJSON files pagePath in validatePage page (u "page")) with
            | Throw e => (errors, Some e)
            | Return es => validatePageFiles files pagesDir rest (errors ++ es)
            end
      | Return _ => validatePageFiles files pagesDir rest errors
      end
  end.

(** [doc.pages?.map(p => p._ref?.replace('pages/', '')).filter(Boolean) || []] *)
Fixpoint mapRefs (pageRefs : list value) : outcome (list jstring) :=
  match pageRefs with
  | [] => Return []
  | p :: rest =>
      do id <- refPageId "p" p in
      do ids <- mapRefs rest in
      Return (match id with
              | Some (c :: r) => (c :: r) :: ids
              | _ => ids
              end)
  end.

Definition pageIdsOf (doc : value) : outcome (list jstring) :=
  match get (u "pages") doc with
  | VUndef | VNull => Return []
  | VArr pageRefs => mapRefs pageRefs
  | _ => Throw (typeError (u "doc.pages?.map is not a function"))
  end.

(** What the [try] block leaves in [errors], and the exception that ended
    it, if any. *)
Definition tryBlock (files : FS.fs) (sketchDir : FS.path) (errors : list jstring)
  : list jstring * option jsError :=
  let pagesDir := FS.join sketchDir (u "pages") in
  match (do doc <- FS.readJSON files (FS.join sketchDir (u "document.json")) in
         do es <- validateDocument doc (u "document") in
         Return (doc, es)) with
  | Throw e => (errors, Some e)
  | Return (doc, es) =>
      let errors := errors ++ es in
      let '(errors, thrown) :=
        match getE (u "pages") doc with
        | Throw e => (errors, Some e)
        | Return (VArr pageRefs) => validatePageFiles files pagesDir pageRefs errors
        | Return _ => (errors, None)
        end in
      match thrown with
      | Some e => (errors, Some e)
      | None =>
          match (do meta <- FS.readJSON files (FS.join sketchDir (u "meta.json")) in
                 validateMeta meta (u "meta")) with
          | Throw e => (errors, Some e)
          | Return es =>
              let errors := errors ++ es in
              match (do user <- FS.readJSON files (FS.join sketchDir (u "user.json")) in
                     do pageIds <- pageIdsOf doc in
                     Return (validateUser user pageIds (u "user"))) with
              | Throw e => (errors, Some e)
              | Return es => (errors ++ es, None)
              end
          end
      end
  end.

(** The checks made before any file is read: the three required files and
    the [pages] directory. *)
Definition missingEntries (files : FS.fs) (sketchDir : FS.path) : list jstring :=
  let errors := [] in
  let errors :=
    forEachI (fun _ file errors =>
                pushIf (negb (FS.existsSync files (FS.join sketchDir (u file))))
                       (u "Missing required file: " ++ u file) errors)
             0 ["document.json"; "meta.json"; "user.json"] errors in
  let pagesDir := FS.join sketchDir (u "pages") in
  pushIf (negb (FS.existsSync files pagesDir)) (u "Missing pages directory") errors.

Definition validateSketchDirectory (files : FS.fs) (sketchDir : FS.path) : validation :=
  let errors := missingEntries files sketchDir in
  if (0 <? length errors)%nat then mkValidation false errors else
  let '(errors, thrown) := tryBlock files sketchDir errors in
  let errors :=
    match thrown with
    | Some e => errors ++ [u "Error parsing JSON: " ++ message e]
    | None => errors
    end in
  mkValidation (length errors =? 0)%nat errors.

End Validator.

(* ================================================================== *)
(** ** scripts/sketch-packer.cjs *)
(* ================================================================== *)

Module IO.

(** What a call of the packer can change: the files and the number of
    draws made from [Math.random]. *)
Record world := mkWorld { files : FS.fs; draws : nat }.

(** A computation that may throw; the world it leaves is returned either
    way. *)
Definition IO (A : Type) : Type := world -> outcome A * world.

Definition ret {A} (a : A) : IO A := fun w => (Return a, w).

Definition bind {A B} (m : IO A) (k : A -> IO B) : IO B :=
  fun w => match m w with
           | (Return a, w') => k a w'
           | (Throw e, w') => (Throw e, w')
           end.

Definition throw {A} (e : jsError) : IO A := fun w => (Throw e, w).

Definition liftO {A} (o : outcome A) : IO A := fun w => (o, w).

Definition liftG {A} (g : Gen.Gen A) : IO A :=
  fun w => let '(a, n) := g (draws w) in (Return a, mkWorld (files w) n).

(** An operation that rewrites the files or fails. *)
Definition fsOp (f : FS.fs -> outcome FS.fs) : IO unit :=
  fun w => match f (files w) with
           | Return fs' => (Return tt, mkWorld fs' (draws w))
           | Throw e => (Throw e, w)
           end.

Definition fsRead {A} (f : FS.fs -> A) : IO A := fun w => (Return (f (files w)), w).

Fixpoint mapIO {A B} (f : A -> IO B) (l : list A) : IO (list B) :=
  match l with
  | [] => ret []
  | x :: l' => bind (f x) (fun y => bind (mapIO f l') (fun ys => ret (y :: ys)))
  end.

End IO.

Notation "'run' x <- m 'in' k" := (IO.bind m (fun x => k))
  (at level 10, x name, m at level 100, k at level 200) : js_scope.

(** The record [packSketch] resolves with. *)
Module Packed.
Record t := make {
  sketchPath : FS.path;
  sketchPathRelative : jstring;
  folderPath : FS.path;
  uncompressedPath : FS.path;
  uncompressedPathRelative : jstring;
  outputDir : FS.path;
  baseDir : FS.path;
  baseDirRelative : jstring;
  uniqueFilename : jstring;
  size : N;
  sizeFormatted : jstring
}.
End Packed.

(** [path.relative(from, to)] between two resolved paths. *)
Fixpoint stripCommon (from to : FS.path) : FS.path * FS.path :=
  match from, to with
  | a :: from', b :: to' => if JsString.eqb a b then stripCommon from' to' else (from, to)
  | _, _ => (from, to)
  end.

Fixpoint joinWith (sep : jstring) (l : list jstring) : jstring :=
  match l with
  | [] => []
  | [s] => s
  | s :: l' => s ++ sep ++ joinWith sep l'
  end.

Definition relative (from to : FS.path) : jstring :=
  let '(up, down) := stripCommon from to in
  joinWith (u "/") (map (fun _ => u "..") up ++ down).

(** [(size / 1024).toFixed(2)] *)
Definition toFixed2 (q : Q) : jstring :=
  let n := Z.to_N (Qfloor (q * 100 + (1 # 2))) in
  let cents := (n mod 100)%N in
  JsString.ofN (n / 100) ++ u "." ++
  (if (cents <? 10)%N then u "0" else []) ++ JsString.ofN cents.

(** [a && b] *)
Definition andAlso (a b : value) : value := if truthy a then b else a.

(** [o[k] = v] for a computed key: the key [__proto__] swaps the prototype
    and leaves the own properties as they are. *)
Definition setKey (k : jstring) (v : value) (o : value) : value :=
  if JsString.eqb k (u "__proto__") then o else set k v o.

Section Packer.

Variable numberToString : Q -> jstring.
Variable random : nat -> Q.
(** [os.homedir()], [process.cwd()] and [Date.now()] at the call. *)
Variable homedir : FS.path.
Variable cwd : FS.path.
Variable now : N.
(** The number of bytes of the archive AdmZip writes for given entries. *)
Variable zipSize : list (FS.path * FS.node) -> N.

Definition DEFAULT_OUTPUT_DIR : FS.path :=
  FS.join (FS.join (FS.join homedir (u ".openclaw")) (u "workspace")) (u "sketch-output").

Definition generateUniqueFilename (baseName : jstring) : jstring :=
  baseName ++ u "_" ++ JsString.ofN now.

Definition ensureOutputDir (outputDir : FS.path) : IO.IO FS.path :=
  run present <- IO.fsRead (fun fs => FS.existsSync fs outputDir) in
  run _ <- (if present then IO.ret tt
            else IO.fsOp (fun fs => FS.mkdirSync fs outputDir)) in
  IO.ret outputDir.

Definition writeJSON (dir : FS.path) (filename : jstring) (data : value) : IO.IO FS.path :=
  let filePath := FS.join dir filename in
  run _ <- IO.fsOp (fun fs => FS.writeFileSync fs filePath (FS.JsonFile (jsonRoundTrip data))) in
  IO.ret filePath.

Definition createZipWithAdmZip (sourceDir outputPath : FS.path) : IO.IO unit :=
  run entries <- IO.fsRead (fun fs => FS.below fs sourceDir) in
  IO.fsOp (fun fs => FS.writeFileSync fs outputPath (FS.ZipFile entries)).

(** [documentData.k || { _class: cls, do_objectID: generateUUID(), objects: [] }] *)
Definition orContainer (given : value) (cls : string) : IO.IO value :=
  if truthy given then IO.ret given
  else run id <- IO.liftG (generateUUID random) in
       IO.ret (obj [("_class", str cls); ("do_objectID", VStr id); ("objects", VArr [])]).

(** The callback of [page.layers.forEach] in the page loop. *)
Definition touchLayer (layer : value) : outcome value :=
  do cls <- getE (u "_class") layer in
  if isStr "artboard" cls && negb (truthy (get (u "hasClickThrough") layer))
  then Return (set (u "hasClickThrough") (VBool true) layer)
  else Return layer.

Fixpoint touchLayers (layers : list value) : outcome (list value) :=
  match layers with
  | [] => Return []
  | layer :: rest =>
      do layer' <- touchLayer layer in
      do rest' <- touchLayers rest in
      Return (layer' :: rest')
  end.

(** The callback of [pages.forEach]: the page as it is after the call. *)
Definition writePage (pagesDir : FS.path) (page : value) : IO.IO value :=
  let pageId := get (u "do_objectID") page in
  let page :=
    if negb (truthy (get (u "hasClickThrough") page))
    then set (u "hasClickThrough") (VBool true) page else page in
  run page <-
    (if truthy (get (u "layers") page) then
       match get (u "layers") page with
       | VArr layers =>
           run layers' <- IO.liftO (touchLayers layers) in
           IO.ret (set (u "layers") (VArr layers') page)
       | _ => IO.throw (typeError (u "page.layers.forEach is not a function"))
       end
     else IO.ret page) in
  run name <- IO.liftO (toStringV numberToString pageId) in
  run _ <- writeJSON pagesDir (name ++ u ".json") page in
  IO.ret page.

(** The statements of [packSketch] that lay the document out on disk, up
    to the writing of [user.json]: they yield the output directory, the
    unique name and the directory of the document. *)
Definition layOut (documentData : value) (filename : option jstring)
    (outputDir : option FS.path) : IO.IO (FS.path * jstring * FS.path) :=
  let filename := strOr filename (u "design") in
  run baseDir <- ensureOutputDir (match outputDir with
                                  | Some d => d
                                  | None => DEFAULT_OUTPUT_DIR
                                  end) in
  let uniqueFilename := generateUniqueFilename filename in
  let sketchDir := FS.join baseDir uniqueFilename in
  run present <- IO.fsRead (fun fs => FS.existsSync fs sketchDir) in
  run _ <- (if present then IO.fsOp (fun fs => Return (FS.rmSync fs sketchDir))
            else IO.ret tt) in
  run _ <- IO.fsOp (fun fs => FS.mkdirSync fs sketchDir) in
  let pagesDir := FS.join sketchDir (u "pages") in
  run _ <- IO.fsOp (fun fs => FS.mkdirSync fs pagesDir) in
  run given <- IO.liftO (getE (u "pages") documentData) in
  run pages <-
    match orElse given (VArr []) with
    | VArr pages => IO.ret pages
    | _ => IO.throw (typeError (u "pages.map is not a function"))
    end in
  run pageIds <- IO.liftO ((fix ids (l : list value) : outcome (list value) :=
                              match l with
                              | [] => Return []
                              | p :: l' =>
                                  do id <- getE (u "do_objectID") p in
                                  do rest <- ids l' in
                                  Return (id :: rest)
                              end) pages) in
  run docId <-
    (if truthy (get (u "do_objectID") documentData)
     then IO.ret (get (u "do_objectID") documentData)
     else run id <- IO.liftG (generateUUID random) in IO.ret (VStr id)) in
  run assets <-
    (if truthy (get (u "assets") documentData) then IO.ret (get (u "assets") documentData)
     else run id <- IO.liftG (generateUUID random) in
          IO.ret (obj [("_class", str "assetCollection"); ("do_objectID", VStr id);
                       ("colorAssets", VArr []); ("gradientAssets", VArr []);
                       ("images", VArr []); ("colors", VArr []); ("gradients", VArr [])])) in
  run layerStyles <-
    orContainer (get (u "layerStyles") documentData) "sharedStyleContainer" in
  run layerSymbols <-
    orContainer (get (u "layerSymbols") documentData) "symbolContainer" in
  run layerTextStyles <-
    orContainer (get (u "layerTextStyles") documentData) "sharedTextStyleContainer" in
  run swatchId <- IO.liftG (generateUUID random) in
  run pageRefs <-
    IO.liftO ((fix refs (l : list value) : outcome (list value) :=
                 match l with
                 | [] => Return []
                 | id :: l' =>
                     do s <- toStringV numberToString id in
                     do rest <- refs l' in
                     Return (obj [("_class", str "MSJSONFileReference");
                                  ("_ref_class", str "MSImmutablePage");
                                  ("_ref", VStr (u "pages/" ++ s))] :: rest)
                 end) pageIds) in
  let document := obj [
    ("_class", str "document");
    ("do_objectID", docId);
    ("appVersion", VStr SKETCH_VERSION);
    ("build", int SKETCH_BUILD);
    ("currentPageIndex", orElse (get (u "currentPageIndex") documentData) (int 0));
    ("assets", assets);
    ("colorSpace",
       if isUndefined (get (u "colorSpace") documentData) then int 1
       else get (u "colorSpace") documentData);
    ("foreignLayerStyles", VArr []);
    ("foreignSymbols", VArr []);
    ("foreignTextStyles", VArr []);
    ("foreignSwatches", VArr []);
    ("layerStyles", layerStyles);
    ("layerSymbols", layerSymbols);
    ("layerTextStyles", layerTextStyles);
    ("sharedSwatches", obj [("_class", str "swatchContainer");
                            ("do_objectID", VStr swatchId); ("objects", VArr [])]);
    ("fontReferences", VArr []);
    ("documentState", obj [("_class", str "documentState")]);
    ("pages", VArr pageRefs)] in
  run _ <- writeJSON sketchDir (u "document.json") document in
  run pages <- IO.mapIO (writePage pagesDir) pages in
  let first := default VUndef (pages !! 0%nat) in
  run pageId <-
    (let given := andAlso first (get (u "do_objectID") first) in
     if truthy given then IO.ret given
     else run id <- IO.liftG (generateUUID random) in IO.ret (VStr id)) in
  let firstLayer :=
    andAlso (andAlso first (get (u "layers") first))
            (get (u "0") (get (u "layers") first)) in
  run artboardId <-
    (let given := andAlso firstLayer (get (u "do_objectID") firstLayer) in
     if truthy given then IO.ret given
     else run id <- IO.liftG (generateUUID random) in IO.ret (VStr id)) in
  let artboardName :=
    orElse (andAlso firstLayer (get (u "name") firstLayer)) (str "Artboard") in
  run pageKey <- IO.liftO (toStringV numberToString pageId) in
  run artboardKey <- IO.liftO (toStringV numberToString artboardId) in
  let pageEntry :=
    obj [("name", orElse (andAlso first (get (u "name") first)) (str "Page 1"));
         ("artboards", setKey artboardKey (obj [("name", artboardName)]) (obj []))] in
  let meta := obj [
    ("commit", str "eec98fa25f4692ad75f1a3b955a6293b4a93836e");
    ("version", int 136);
    ("compatibilityVersion", int 99);
    ("app", str "com.bohemiancoding.sketch3");
    ("autosaved", int 0);
    ("pagesAndArtboards", setKey pageKey pageEntry (obj []));
    ("variant", str "NONAPPSTORE");
    ("fonts", VArr []);
    ("created", obj [
       ("commit", str "238f363ed3de77eb1d86e03176f8a10f7928ed51");
       ("appVersion", VStr SKETCH_VERSION);
       ("build", int SKETCH_BUILD);
       ("app", str "com.bohemiancoding.sketch3");
       ("compatibilityVersion", int 99);
       ("coeditCompatibilityVersion", int 99);
       ("version", int 136);
       ("variant", str "NONAPPSTORE")]);
    ("appVersion", VStr SKETCH_VERSION);
    ("build", int SKETCH_BUILD)] in
  run _ <- writeJSON sketchDir (u "meta.json") meta in
  run user <-
    IO.liftO ((fix fill (l : list value) (user : value) : outcome value :=
                 match l with
                 | [] => Return user
                 | id :: l' =>
                     do k <- toStringV numberToString id in
                     fill l' (setKey k (obj [("scrollOrigin", str "{-0.000000, -0.000000}");
                                             ("zoomValue", VNum (796296238899231 # 1000000000000000))])
                                     user)
                 end) pageIds
                (obj [("document", obj [("pageListHeight", int 85);
                                        ("pageListCollapsed", int 0)])])) in
  run _ <- writeJSON sketchDir (u "user.json") user in
  IO.ret (baseDir, uniqueFilename, sketchDir).

(** [options.validate !== false], after [options = options || {}] *)
Definition validationEnabled (options : value) : bool :=
  negb (match get (u "validate") (orElse options (obj [])) with
        | VBool false => true
        | _ => false
        end).

Definition packSketch (documentData : value) (filename : option jstring)
    (outputDir : option FS.path) (options : value) : IO.IO Packed.t :=
  let validate := validationEnabled options in
  run lay <- layOut documentData filename outputDir in
  let '(baseDir, uniqueFilename, sketchDir) := lay in
  run _ <-
    (if validate then
       run validation <-
         IO.fsRead (fun fs => validateSketchDirectory numberToString fs sketchDir) in
       if negb (valid validation) then IO.throw (newError (u "Sketch validation failed"))
       else IO.ret tt
     else IO.ret tt) in
  let sketchPath := FS.join baseDir (uniqueFilename ++ u ".sketch") in
  run _ <- createZipWithAdmZip sketchDir sketchPath in
  run size <- IO.fsRead (fun fs => match fs !! sketchPath with
                                   | Some (FS.ZipFile entries) => zipSize entries
                                   | _ => 0%N
                                   end) in
  IO.ret (Packed.make
            sketchPath (relative cwd sketchPath)
            sketchDir sketchDir (relative cwd sketchDir)
            baseDir baseDir (relative cwd baseDir)
            uniqueFilename size
            (toFixed2 (inject_Z (Z.of_N size) / 1024) ++ u " KB")).

End Packer.

(* ================================================================== *)
(** ** scripts/sketch-api.cjs: the [dataTable] case of generateModule *)
(* ================================================================== *)

Module Palette.
Record t := make {
  primary : value;
  secondary : value;
  background : value;
  surface : value;
  textPrimary : value;
  textSecondary : value;
  border : value
}.
End Palette.

Module Context.
Record t := make { x : Q; y : Q; width : Q; colorPalette : Palette.t }.
End Context.

(** An entry of [module.columns] of the shape the guide of the skill
    documents for a [dataTable] ([{ name: "...", width: 120 }]): a string
    [name] and a numeric [width]. The code reads both members unguarded;
    an entry of another shape is not described by this record, and what is
    stated of a table is stated of tables whose columns have this shape. *)
Module Column.
Record t := make { name : jstring; width : Q }.
End Column.

(** A module description whose [type] is ['dataTable'], with a string for
    a title and a number for a height where there is one.  The row arrays
    are objects the caller shares with the call: [rows] lists their
    addresses and a heap holds their contents, so that what the call does
    to a row is what the caller sees afterwards, also when one array
    occurs in the list twice. *)
Module DataTable.
Abbreviation loc := nat (only parsing).
Abbreviation heap := (gmap nat (list value)) (only parsing).

Record t := make {
  height : option Q;
  title : option jstring;
  columns : option (list Column.t);
  rows : option (list loc);
  hasCheckbox : value;
  hasActions : value
}.

(** The array at an address. *)
Definition deref (h : heap) (r : loc) : list value := default [] (h !! r).
End DataTable.

(** [row.pop()] *)
Definition pop (row : list value) : list value := removelast row.

(** Computations that draw from the random source and may throw. *)
Module GenE.
Definition GenE (A : Type) : Type := nat -> outcome A * nat.
Definition ret {A} (a : A) : GenE A := fun n => (Return a, n).
Definition bind {A B} (m : GenE A) (k : A -> GenE B) : GenE B :=
  fun n => match m n with
           | (Return a, n') => k a n'
           | (Throw e, n') => (Throw e, n')
           end.
Definition liftG {A} (g : Gen.Gen A) : GenE A :=
  fun n => let '(a, n') := g n in (Return a, n').
Definition liftO {A} (o : outcome A) : GenE A := fun n => (o, n).
End GenE.

Notation "'step' x <- m 'in' k" := (GenE.bind m (fun x => k))
  (at level 10, x name, m at level 100, k at level 200) : js_scope.

Section Assembler.

Variable numberToString : Q -> jstring.
Variable random : nat -> Q.

Definition fillsOnly (color : value) : StyleOptions.t :=
  StyleOptions.make VUndef VUndef (Some [color]) VUndef VUndef VUndef None
                    VUndef None None VUndef VUndef VUndef.

Definition fillsRounded (color : value) (radius : Z) : StyleOptions.t :=
  StyleOptions.make (int radius) VUndef (Some [color]) VUndef VUndef VUndef None
                    VUndef None None VUndef VUndef VUndef.

Definition textOf (size : Q) (family : string) (color : value) (alignment : string)
  : TextSpec.t :=
  TextSpec.make color (Some size) (Some (u family)) (str alignment).

(** [module.columns[colIndex]?.width || 80]; reading an index of a missing
    [columns] throws. *)
Definition columnWidth (columns : option (list Column.t)) (colIndex : nat) : outcome Q :=
  match columns with
  | None =>
      Throw (typeError (u "Cannot read properties of undefined (reading '"
                          ++ JsString.ofNat colIndex ++ u "')"))
  | Some cols => Return (numOr (option_map Column.width (cols !! colIndex)) 80)
  end.

(** The callback of [module.columns.forEach]. *)
Fixpoint columnHeaders (ctx : Context.t) (cols : list Column.t) (colX : Q)
    (layers : list value) : Gen.Gen (list value) :=
  match cols with
  | [] => Gen.ret layers
  | col :: rest =>
      draw colHeader <-
        createText random (Column.name col)
          (Frame.make colX (JsNum.add (Context.y ctx) 62) (Column.width col) 20)
          (textOf 13 "Roboto-Medium" (Palette.textSecondary (Context.colorPalette ctx)) "left") in
      columnHeaders ctx rest (JsNum.add colX (Column.width col)) (layers ++ [colHeader])
  end.

(** The callback of [row.forEach]. *)
Fixpoint cells (ctx : Context.t) (columns : option (list Column.t)) (rowY : Q)
    (row : list value) (colIndex : nat) (cellX : Q) (layers : list value)
  : GenE.GenE (list value) :=
  match row with
  | [] => GenE.ret layers
  | cell :: rest =>
      step text <- GenE.liftO (toStringV numberToString cell) in
      step w <- GenE.liftO (columnWidth columns colIndex) in
      step cellText <- GenE.liftG
        (createText random text
           (Frame.make cellX (JsNum.add rowY 12) w 20)
           (textOf 13 "Roboto-Regular" (Palette.textPrimary (Context.colorPalette ctx)) "left")) in
      step w' <- GenE.liftO (columnWidth columns colIndex) in
      cells ctx columns rowY rest (S colIndex) (JsNum.add cellX w') (layers ++ [cellText])
  end.

(** The callback of [module.rows.forEach]: the layers, or the exception
    that ended the loop, together with the heap as the loop leaves it. *)
Fixpoint tableRows (ctx : Context.t) (m : DataTable.t) (rows : list DataTable.loc)
    (rowIndex : nat) (layers : list value) (h : DataTable.heap) (n : nat)
  : outcome (list value) * DataTable.heap * nat :=
  match rows with
  | [] => (Return layers, h, n)
  | r :: rest =>
      let palette := Context.colorPalette ctx in
      let x := Context.x ctx in
      let rowY := JsNum.add (JsNum.add (Context.y ctx) 92)
                            (JsNum.mul (JsNum.ofNat rowIndex) 44) in
      let rowBg := if (rowIndex mod 2 =? 0)%nat then Palette.surface palette
                   else Palette.background palette in
      let '(tableRow, n) :=
        createRectangle random
          (Frame.make (JsNum.add x 16) rowY (JsNum.sub (Context.width ctx) 32) 44)
          (fillsOnly rowBg)
          (u "Row " ++ JsString.ofNat (rowIndex + 1)) n in
      let layers := layers ++ [tableRow] in
      let cellX := JsNum.add x 20 in
      let '(layers, cellX, n) :=
        if truthy (DataTable.hasCheckbox m) then
          let '(checkbox, n) :=
            createRectangle random
              (Frame.make cellX (JsNum.add rowY 14) 16 16)
              (fillsRounded (Palette.border palette) 2)
              (u "Checkbox") n in
          (layers ++ [checkbox], JsNum.add cellX 30, n)
        else (layers, cellX, n) in
      let h := if truthy (DataTable.hasActions m) then alter pop r h else h in
      match cells ctx (DataTable.columns m) rowY (DataTable.deref h r) 0 cellX layers n with
      | (Throw e, n) => (Throw e, h, n)
      | (Return layers, n) => tableRows ctx m rest (S rowIndex) layers h n
      end
  end.

(** The layers of the module, or the exception, and the heap of row
    arrays as the call leaves it. *)
Definition generateModule (m : DataTable.t) (ctx : Context.t)
    (h : DataTable.heap) (n : nat)
  : outcome (list value) * DataTable.heap * nat :=
  let palette := Context.colorPalette ctx in
  let x := Context.x ctx in
  let y := Context.y ctx in
  let width := Context.width ctx in
  let layers := [] in
  let '(tableBg, n) :=
    createRectangle random
      (Frame.make x y width (numOr (DataTable.height m) 300))
      (fillsRounded (Palette.surface palette) 8)
      (u "Data Table") n in
  let layers := layers ++ [tableBg] in
  let '(layers, n) :=
    match DataTable.title m with
    | Some (c :: r) =>
        let '(tableTitle, n) :=
          createText random (c :: r)
            (Frame.make (JsNum.add x 16) (JsNum.add y 16) (JsNum.sub width 32) 24)
            (textOf 16 "Roboto-Bold" (Palette.textPrimary palette) "left") n in
        (layers ++ [tableTitle], n)
    | _ => (layers, n)
    end in
  let '(addBtn, n) :=
    createRectangle random
      (Frame.make (JsNum.sub (JsNum.add x width) 100) (JsNum.add y 12) 80 32)
      (fillsRounded (Palette.primary palette) 4)
      (u "Add Button") n in
  let layers := layers ++ [addBtn] in
  let '(addBtnText, n) :=
    createText random [26032%N; 22686%N]
      (Frame.make (JsNum.sub (JsNum.add x width) 100) (JsNum.add y 18) 80 20)
      (textOf 13 "Roboto-Medium" (str "#FFFFFF") "center") n in
  let layers := layers ++ [addBtnText] in
  let '(theadBg, n) :=
    createRectangle random
      (Frame.make (JsNum.add x 16) (JsNum.add y 52) (JsNum.sub width 32) 40)
      (fillsOnly (Palette.background palette))
      (u "Table Header") n in
  let layers := layers ++ [theadBg] in
  let '(layers, n) :=
    match DataTable.columns m with
    | Some cols => columnHeaders ctx cols (JsNum.add x 20) layers n
    | None => (layers, n)
    end in
  match DataTable.rows m with
  | Some rows => tableRows ctx m rows 0 layers h n
  | None => (Return layers, h, n)
  end.

End Assembler.

(* ================================================================== *)
(** ** The LayoutValidator class *)
(* ================================================================== *)

(** A numeric property of a module entry: absent ([undefined]), [NaN] or a
    number. *)
Module Measure.

Inductive t : Type := Absent | NaN | Num (q : Q).

(** [ToNumber] on such a property; [None] is [NaN]. *)
Definition toNum (a : t) : option Q :=
  match a with
  | Num q => Some q
  | _ => None
  end.

Definition ofNum (n : option Q) : t :=
  match n with
  | Some q => Num q
  | None => NaN
  end.

(** [a + b] *)
Definition add (a b : t) : t :=
  match toNum a, toNum b with
  | Some x, Some y => Num (JsNum.add x y)
  | _, _ => NaN
  end.

(** [a < b], [a <= b] and [a > b]: false as soon as one side is [NaN]. *)
Definition lt (a b : t) : bool :=
  match toNum a, toNum b with
  | Some x, Some y => JsNum.ltb x y
  | _, _ => false
  end.

Definition le (a b : t) : bool :=
  match toNum a, toNum b with
  | Some x, Some y => Qle_bool x y
  | _, _ => false
  end.

Definition gt (a b : t) : bool := lt b a.

(** [a !== b] *)
Definition strictNe (a b : t) : bool :=
  match a, b with
  | Absent, Absent => false
  | Num x, Num y => negb (Qeq_bool x y)
  | _, _ => true
  end.

(** [a !== undefined] *)
Definition defined (a : t) : bool :=
  match a with
  | Absent => false
  | _ => true
  end.

(** [a || d] for a number [d] *)
Definition numOr (a : t) (d : Q) : Q :=
  match a with
  | Num q => if JsNum.isZero q then d else q
  | _ => d
  end.

End Measure.

(** The argument of the constructor. *)
Module LayoutOptions.
Record t := make {
  artboardWidth : Measure.t;
  artboardHeight : Measure.t;
  padding : Measure.t;
  moduleGap : Measure.t
}.

(** [{}] *)
Definition empty : t := make Measure.Absent Measure.Absent Measure.Absent Measure.Absent.
End LayoutOptions.

(** The argument of [addModule]. *)
Module ModuleSpec.
Record t := make {
  id : jstring;
  type : jstring;
  height : Measure.t;
  width : Measure.t;
  y : Measure.t
}.
End ModuleSpec.

(** An entry of [this.modules], of [this.modulePositions] or of a repaired
    layout.  The three kinds of entries carry different properties; a
    property an entry does not have is [Absent]. *)
Module Box.
Record t := make {
  id : jstring;
  type : jstring;
  x : Measure.t;
  y : Measure.t;
  width : Measure.t;
  height : Measure.t;
  originalY : Measure.t;
  right : Measure.t;
  bottom : Measure.t
}.

(** [{ ...module, y: y', bottom: bottom' }] *)
Definition restack (module : t) (y' bottom' : Measure.t) : t :=
  make (id module) (type module) (x module) y' (width module) (height module)
       (originalY module) (right module) bottom'.

(** [{ ...module, x: x', y: y', width: width', right: right', bottom: bottom' }] *)
Definition regrid (module : t) (x' y' width' right' bottom' : Measure.t) : t :=
  make (id module) (type module) x' y' width' (height module)
       (originalY module) right' bottom'.
End Box.

Module Overlap.
Record t := make {
  type : jstring;
  moduleA : jstring;
  moduleB : jstring;
  message : jstring
}.
End Overlap.

Module Overflow.
Record t := make {
  type : jstring;
  moduleId : jstring;
  message : jstring
}.
End Overflow.

(** What [validate] returns. *)
Module LayoutResult.
Record t := make {
  hasOverlaps : bool;
  hasOverflows : bool;
  overlaps : list Overlap.t;
  overflows : list Overflow.t;
  modules : list Box.t;
  wasAutoFixed : bool;
  layoutReport : jstring
}.
End LayoutResult.

(** The argument of [validate]. *)
Module ValidateOptions.
Record t := make { autoFix : value; fixStrategy : value }.

(** [{}] *)
Definition empty : t := make VUndef VUndef.
End ValidateOptions.

Module LayoutValidator.

(** The instance. *)
Record t := make {
  artboardWidth : Q;
  artboardHeight : Q;
  padding : Q;
  moduleGap : Q;
  modules : list Box.t;
  modulePositions : list Box.t
}.

(** The fixed parts of the messages, as UTF-16 code units. *)
Definition bottomOpen : jstring := [32; 40; 24213; 37096; 58; 32]%N.
Definition between : jstring := [41; 32; 19982; 32]%N.
Definition topOpen : jstring := [32; 40; 39030; 37096; 58; 32]%N.
Definition verticalTail : jstring := [41; 32; 22402; 30452; 37325; 21472]%N.
Definition and_ : jstring := [32; 19982; 32]%N.
Definition horizontalTail : jstring := [32; 27700; 24179; 37325; 21472]%N.
Definition leftEdge : jstring :=
  [32; 36229; 20986; 24038; 36793; 30028; 32; 40; 120; 58; 32]%N.
Definition topEdge : jstring :=
  [32; 36229; 20986; 19978; 36793; 30028; 32; 40; 121; 58; 32]%N.
Definition rightEdge : jstring :=
  [32; 36229; 20986; 21491; 36793; 30028; 32; 40; 114; 105; 103; 104; 116; 58; 32]%N.
Definition bottomEdge : jstring :=
  [32; 36229; 20986; 19979; 36793; 30028; 32; 40; 98; 111; 116; 116; 111; 109; 58; 32]%N.
Definition reportTitle : jstring :=
  [55357; 56522; 32; 24067; 23616; 20998; 26512; 58]%N.
Definition reportCanvas : jstring :=
  [32; 32; 10003; 32; 30011; 24067; 23610; 23544; 58; 32]%N.
Definition reportCount : jstring :=
  [32; 32; 10003; 32; 27169; 22359; 25968; 37327; 58; 32]%N.
Definition reportProblems : jstring :=
  [32; 32; 10007; 32; 26816; 27979; 21040; 24067; 23616; 38382; 39064]%N.
Definition reportClean : jstring :=
  [32; 32; 10003; 32; 26080; 37325; 21472; 47; 28322; 20986]%N.
Definition reportPositions : jstring :=
  [32; 32; 55357; 56528; 32; 27169; 22359; 20301; 32622; 58]%N.

Section Methods.

Variable numberToString : Q -> jstring.

(** A property inside a template literal. *)
Definition render (a : Measure.t) : jstring :=
  match a with
  | Measure.Absent => u "undefined"
  | Measure.NaN => u "NaN"
  | Measure.Num q => numberToString q
  end.

(** [new LayoutValidator(options)] *)
Definition new (options : LayoutOptions.t) : t :=
  make (Measure.numOr (LayoutOptions.artboardWidth options) 393)
       (Measure.numOr (LayoutOptions.artboardHeight options) 852)
       (Measure.numOr (LayoutOptions.padding options) 16)
       (Measure.numOr (LayoutOptions.moduleGap options) 8)
       [] [].

Definition _calculateY (this : t) (type : jstring) : Measure.t :=
  match list.last (modules this) with
  | None => Measure.Num (padding this)
  | Some lastModule =>
      Measure.add (Measure.add (Box.y lastModule) (Box.height lastModule))
                  (Measure.Num (moduleGap this))
  end.

Definition addModule (this : t) (module : ModuleSpec.t) : t :=
  let width := Measure.numOr (ModuleSpec.width module) (artboardWidth this) in
  let y :=
    if Measure.defined (ModuleSpec.y module) then ModuleSpec.y module
    else _calculateY this (ModuleSpec.type module) in
  let moduleData :=
    Box.make (ModuleSpec.id module) (ModuleSpec.type module)
             (Measure.Num (padding this)) y
             (Measure.Num (JsNum.sub width (JsNum.mul (padding this) 2)))
             (ModuleSpec.height module) y Measure.Absent Measure.Absent in
  make (artboardWidth this) (artboardHeight this) (padding this) (moduleGap this)
       (modules this ++ [moduleData])
       (modulePositions this ++
        [Box.make (ModuleSpec.id module) (ModuleSpec.type module)
                  (Box.x moduleData) (Box.y moduleData)
                  Measure.Absent Measure.Absent Measure.Absent
                  (Measure.add (Box.x moduleData) (Box.width moduleData))
                  (Measure.add (Box.y moduleData) (Box.height moduleData))]).

Definition _isOverlapping (a b : Box.t) : bool :=
  negb (Measure.le (Box.right a) (Box.x b)
        || Measure.le (Box.bottom a) (Box.y b)
        || Measure.le (Box.right b) (Box.x a)
        || Measure.le (Box.bottom b) (Box.y a)).

(** The body of the inner loop of [_checkVerticalOverlap]. *)
Definition verticalOverlap (current next : Box.t) : option Overlap.t :=
  if Measure.gt (Box.bottom current) (Box.y next)
     && Measure.lt (Box.y current) (Box.y next)
  then Some (Overlap.make (u "vertical") (Box.id current) (Box.id next)
               (Box.id current ++ bottomOpen ++ render (Box.bottom current) ++ between
                ++ Box.id next ++ topOpen ++ render (Box.y next) ++ verticalTail))
  else None.

(** The two nested loops visit the pairs [i < j] with [i] outermost. *)
Fixpoint _checkVerticalOverlap (modules : list Box.t) : list Overlap.t :=
  match modules with
  | [] => []
  | current :: rest => omap (verticalOverlap current) rest ++ _checkVerticalOverlap rest
  end.

(** The body of the inner loop of [_checkHorizontalOverlap]. *)
Definition horizontalOverlap (current next : Box.t) : option Overlap.t :=
  let yOverlap :=
    negb (Measure.le (Box.bottom current) (Box.y next)
          || Measure.le (Box.bottom next) (Box.y current)) in
  if yOverlap then
    let xOverlap :=
      negb (Measure.le (Box.right current) (Box.x next)
            || Measure.le (Box.right next) (Box.x current)) in
    if xOverlap then
      Some (Overlap.make (u "horizontal") (Box.id current) (Box.id next)
              (Box.id current ++ and_ ++ Box.id next ++ horizontalTail))
    else None
  else None.

Fixpoint _checkHorizontalOverlap (modules : list Box.t) : list Overlap.t :=
  match modules with
  | [] => []
  | current :: rest =>
      omap (horizontalOverlap current) rest ++ _checkHorizontalOverlap rest
  end.

(** The four tests [_checkBoundaryOverflow] makes on one module. *)
Definition boundaryOverflow (this : t) (module : Box.t) : list Overflow.t :=
  let overflows := [] in
  let overflows :=
    if Measure.lt (Box.x module) (Measure.Num 0)
    then overflows ++ [Overflow.make (u "boundary") (Box.id module)
                         (Box.id module ++ leftEdge ++ render (Box.x module) ++ u ")")]
    else overflows in
  let overflows :=
    if Measure.lt (Box.y module) (Measure.Num 0)
    then overflows ++ [Overflow.make (u "boundary") (Box.id module)
                         (Box.id module ++ topEdge ++ render (Box.y module) ++ u ")")]
    else overflows in
  let overflows :=
    if Measure.gt (Box.right module) (Measure.Num (artboardWidth this))
    then overflows ++ [Overflow.make (u "boundary") (Box.id module)
                         (Box.id module ++ rightEdge ++ render (Box.right module)
                          ++ u " > " ++ numberToString (artboardWidth this) ++ u ")")]
    else overflows in
  let overflows :=
    if Measure.gt (Box.bottom module) (Measure.Num (artboardHeight this))
    then overflows ++ [Overflow.make (u "boundary") (Box.id module)
                         (Box.id module ++ bottomEdge ++ render (Box.bottom module)
                          ++ u " > " ++ numberToString (artboardHeight this) ++ u ")")]
    else overflows in
  overflows.

Definition _checkBoundaryOverflow (this : t) (modules : list Box.t) : list Overflow.t :=
  flat_map (boundaryOverflow this) modules.

(** The loop of [_autoFixStack], from a given [currentY]. *)
Fixpoint stackFrom (this : t) (currentY : Measure.t) (modules : list Box.t) : list Box.t :=
  match modules with
  | [] => []
  | module :: rest =>
      if Measure.defined (Box.originalY module)
         && Measure.strictNe (Box.originalY module) currentY
      then
        Box.restack module (Box.originalY module)
                    (Measure.add (Box.originalY module) (Box.height module))
        :: stackFrom this
             (Measure.add (Measure.add (Box.originalY module) (Box.height module))
                          (Measure.Num (moduleGap this)))
             rest
      else
        Box.restack module currentY (Measure.add currentY (Box.height module))
        :: stackFrom this
             (Measure.add currentY
                          (Measure.add (Box.height module) (Measure.Num (moduleGap this))))
             rest
  end.

Definition _autoFixStack (this : t) (modules : list Box.t) : list Box.t :=
  stackFrom this (Measure.Num (padding this)) modules.

(** The number of columns of the grid. *)
Definition cols : nat := 2.

(** The search for the shortest column. *)
Definition minColumn (colHeights : list Measure.t) : nat :=
  fold_left (fun minCol i =>
               if Measure.lt (default Measure.Absent (colHeights !! i))
                             (default Measure.Absent (colHeights !! minCol))
               then i else minCol)
            (seq 1 (cols - 1)) 0%nat.

(** The loop of [_autoFixGrid], from given column heights. *)
Fixpoint gridFrom (this : t) (colWidth : Q) (colHeights : list Measure.t)
    (modules : list Box.t) : list Box.t :=
  match modules with
  | [] => []
  | module :: rest =>
      let minCol := minColumn colHeights in
      let x := JsNum.add (padding this)
                         (JsNum.mul (JsNum.ofNat minCol) (JsNum.add colWidth (padding this))) in
      let y := default Measure.Absent (colHeights !! minCol) in
      Box.regrid module (Measure.Num x) y (Measure.Num colWidth)
                 (Measure.Num (JsNum.add x colWidth))
                 (Measure.add y (Box.height module))
      :: gridFrom this colWidth
           (<[minCol := Measure.add y (Measure.add (Box.height module)
                                                   (Measure.Num (moduleGap this)))]>
              colHeights)
           rest
  end.

Definition _autoFixGrid (this : t) (modules : list Box.t) : list Box.t :=
  let colWidth :=
    JsNum.div (JsNum.sub (artboardWidth this)
                         (JsNum.mul (padding this) (JsNum.ofNat (cols + 1))))
              (JsNum.ofNat cols) in
  gridFrom this colWidth (replicate cols (Measure.Num (padding this))) modules.

(** [this.hasOverlaps] and [this.hasOverflows]: neither the constructor nor
    a method assigns them. *)
Definition thisHasOverlaps : value := VUndef.
Definition thisHasOverflows : value := VUndef.

Definition reportLines (this : t) (modules : list Box.t) : list jstring :=
  let lines :=
    [reportTitle;
     reportCanvas ++ numberToString (artboardWidth this) ++ u "x"
       ++ numberToString (artboardHeight this);
     reportCount ++ JsString.ofNat (length modules)] in
  let lines :=
    if truthy (orElse thisHasOverlaps thisHasOverflows)
    then lines ++ [reportProblems] else lines ++ [reportClean] in
  let lines := lines ++ [reportPositions] in
  fold_left (fun lines m =>
               lines ++ [u "     - " ++ Box.id m ++ u ": (" ++ render (Box.x m) ++ u ", "
                         ++ render (Box.y m) ++ u ") - " ++ render (Box.width m) ++ u "x"
                         ++ render (Box.height m)])
            modules lines.

Definition _generateReport (this : t) (modules : list Box.t) : jstring :=
  joinWith [10%N] (reportLines this modules).

Definition nonEmpty {A} (l : list A) : bool := (0 <? length l)%nat.

Definition validate (this : t) (options : ValidateOptions.t) : LayoutResult.t :=
  let autoFix := ValidateOptions.autoFix options in
  let fixStrategy := ValidateOptions.fixStrategy options in
  let verticalOverlaps := _checkVerticalOverlap (modulePositions this) in
  let horizontalOverlaps := _checkHorizontalOverlap (modulePositions this) in
  let boundaryOverflows := _checkBoundaryOverflow this (modulePositions this) in
  let allOverlaps := verticalOverlaps ++ horizontalOverlaps in
  let hasOverlaps := nonEmpty allOverlaps in
  let hasOverflows := nonEmpty boundaryOverflows in
  if truthy autoFix && (hasOverlaps || hasOverflows) then
    let resultModules :=
      if isStr "grid" fixStrategy then _autoFixGrid this (modulePositions this)
      else _autoFixStack this (modulePositions this) in
    let fixedVertical := _checkVerticalOverlap resultModules in
    let fixedHorizontal := _checkHorizontalOverlap resultModules in
    let fixedOverflows := _checkBoundaryOverflow this resultModules in
    LayoutResult.make
      (nonEmpty fixedVertical || nonEmpty fixedHorizontal)
      (nonEmpty fixedOverflows)
      (fixedVertical ++ fixedHorizontal)
      fixedOverflows
      resultModules
      true
      (_generateReport this resultModules)
  else
    LayoutResult.make hasOverlaps hasOverflows allOverlaps boundaryOverflows
                      (modulePositions this) false
                      (_generateReport this (modulePositions this)).

Definition getLayoutReport (this : t) : jstring :=
  _generateReport this (modulePositions this).

End Methods.

End LayoutValidator.

(* ================================================================== *)
(** ** Predicates used in the statements *)
(* ================================================================== *)

(** What the canonical identifier layout asks of the unit at position [j]:
    a dash at 8, 13, 18 and 23, the digit 4 at 14, one of 8, 9, A, B at 19
    and an upper-case hexadecimal digit elsewhere. *)
Definition layoutAt (j : nat) (c : N) : bool :=
  if existsb (Nat.eqb j) [8; 13; 18; 23]%nat then (c =? 45)%N
  else if (j =? 14)%nat then (c =? 52)%N
  else if (j =? 19)%nat then isVariant c
  else isUpperHex c.

Definition canonicalLayout (s : jstring) : Prop :=
  length s = 36%nat /\ forall j c, s !! j = Some c -> layoutAt j c = true.

(** The value of the hexadecimal digit that the draw number [k] of an
    identifier contributes: [(r * 16) | 0], and [(r * 4) | 8] for the draw
    that fills position 19, which is the sixteenth. *)
Definition plainDigit (r : Q) : Z := JsNum.bitOr (JsNum.mul r 16) 0.
Definition variantDigit (r : Q) : Z := JsNum.bitOr (JsNum.mul r 4) 8.
Definition drawnDigit (k : nat) (r : Q) : Z :=
  if (k =? 15)%nat then variantDigit r else plainDigit r.

(** The unit of [hex] at an index, and the identifier assembled from the
    31 digits drawn. *)
Definition hexChar (z : Z) : N := nth (Z.to_nat z) hex 0%N.

Definition hexValue (c : N) : Z :=
  (if (c <? 58)%N then Z.of_N c - 48 else Z.of_N c - 55)%Z.

Definition assembled (d : nat -> Z) : jstring :=
  [hexChar (d 0); hexChar (d 1); hexChar (d 2); hexChar (d 3);
   hexChar (d 4); hexChar (d 5); hexChar (d 6); hexChar (d 7); 45%N;
   hexChar (d 8); hexChar (d 9); hexChar (d 10); hexChar (d 11); 45%N;
   52%N; hexChar (d 12); hexChar (d 13); hexChar (d 14); 45%N;
   hexChar (d 15); hexChar (d 16); hexChar (d 17); hexChar (d 18); 45%N;
   hexChar (d 19); hexChar (d 20); hexChar (d 21); hexChar (d 22);
   hexChar (d 23); hexChar (d 24); hexChar (d 25); hexChar (d 26);
   hexChar (d 27); hexChar (d 28); hexChar (d 29); hexChar (d 30)]%nat.

(** An object has an own property under the key. *)
Definition hasOwn (k : jstring) (o : value) : bool :=
  match o with
  | VObj ps => match lookup k ps with Some _ => true | None => false end
  | _ => false
  end.

(** A number is a channel value when it lies in the closed unit interval. *)
Definition inUnitInterval (v : value) : Prop :=
  match v with
  | VNum q => (0 <= q)%Q /\ (q <= 1)%Q
  | _ => False
  end.

(** The keys of the font substitution map. *)
Definition fontMapKeys : list jstring :=
  map u ["Roboto-Bold"; "Roboto-Regular"; "Roboto-Medium"; "Roboto-Light"].

(** Where the two font descriptors of a text layer live. *)
Definition attributeFont (layer : value) : value :=
  getPath (map u ["attributedString"; "attributes"; "0"; "attributes";
                  "MSAttributedStringFontAttribute"; "attributes"]) layer.

Definition styleFont (layer : value) : value :=
  getPath (map u ["style"; "textStyle"; "encodeAttributes";
                  "MSAttributedStringFontAttribute"; "attributes"]) layer.

(** The ideograph range of the detection rule, U+4E00 to U+9FA5. *)
Definition isCJK (c : N) : bool := range 19968 40869 c.

(** The outcome of a call is an exception of the named class. *)
Definition failsWith {A} (cls : string) (r : outcome A) : Prop :=
  exists e, r = Throw e /\ errorClass e = u cls.

(** [o.layers = ls] *)
Definition withLayers (ls : list value) (o : value) : value := set (u "layers") (VArr ls) o.

(** A layer that can be read (neither [null] nor [undefined]) and whose
    [_class] is none of the given tags. *)
Definition tagOutside (tags : list string) (layer : value) : Prop :=
  match layer with
  | VUndef | VNull => False
  | _ => forallb (fun t => negb (isStr t (get (u "_class") layer))) tags = true
  end.

(** The walk over [doc.pages] inside the [try] block of the directory
    validator: what it leaves in [errors], and the exception that ended
    it, if any. *)
Definition walkPages (numberToString : Q -> jstring) (files : FS.fs) (sketchDir : FS.path)
    (doc : value) (errors : list jstring) : list jstring * option jsError :=
  match getE (u "pages") doc with
  | Throw e => (errors, Some e)
  | Return (VArr pageRefs) =>
      validatePageFiles numberToString files (FS.join sketchDir (u "pages")) pageRefs errors
  | Return _ => (errors, None)
  end.

(** No archive appears: every archive the second file system holds was
    already in the first, with the same entries. *)
Definition noNewArchive (before after : FS.fs) : Prop :=
  forall p entries, after !! p = Some (FS.ZipFile entries) ->
                    before !! p = Some (FS.ZipFile entries).

(** A computation that, however it ends, leaves no new archive. *)
Definition archiveFree {A} (m : IO.IO A) : Prop :=
  forall w, noNewArchive (IO.files w) (IO.files (snd (m w))).

(** The path names a directory. *)
Definition isDirectory (files : FS.fs) (p : FS.path) : bool :=
  match FS.lookupNode files p with
  | Some FS.Dir => true
  | _ => false
  end.

(** The exception carries the list of violations in one of its own
    properties. *)
Definition carriesViolations (e : jsError) (violations : list jstring) : Prop :=
  exists k, lookup k (ownProps e) = Some (VArr (map VStr violations)).

(** The call ended without an exception. *)
Definition succeeded {A} (o : outcome A) : bool :=
  match o with
  | Return _ => true
  | Throw _ => false
  end.

(** [row.pop()] on the array at each of the addresses, in order. *)
Definition popRows (rows : list nat) (h : gmap nat (list value)) : gmap nat (list value) :=
  fold_left (fun h r => alter pop r h) rows h.

(** A colour argument without a minus sign: any value that is not a
    string, and any string that holds no [-]. *)
Definition unsignedColor (v : value) : Prop := forall s, v = VStr s -> ~ In 45%N s.

(** The four palette colours that end up in fills. *)
Definition paletteUnsigned (p : Palette.t) : Prop :=
  unsignedColor (Palette.primary p) /\ unsignedColor (Palette.background p)
  /\ unsignedColor (Palette.surface p) /\ unsignedColor (Palette.border p).

(** The layer loop of the artboard validator goes through the layers
    without a message and without an exception, wherever they sit. *)
Definition accepted (numberToString : Q -> jstring) (layers : list value) : Prop :=
  forall path i errors,
    forEachE (validateArtboardLayer numberToString path) i layers errors = Return errors.

(** [String(v)] returns. *)
Definition printable (numberToString : Q -> jstring) (v : value) : Prop :=
  exists s, toStringV numberToString v = Return s.

(** Every cell of every row array can be rendered. *)
Definition printableHeap (numberToString : Q -> jstring) (h : gmap nat (list value)) : Prop :=
  forall r l, h !! r = Some l -> Forall (printable numberToString) l.

(** The pairs of a list in which the first component comes first, in the
    order two nested loops visit them. *)
Fixpoint orderedPairs {A} (l : list A) : list (A * A) :=
  match l with
  | [] => []
  | a :: rest => map (pair a) rest ++ orderedPairs rest
  end.

(** The two modules a pair or an overlap record names. *)
Definition idPair (p : Box.t * Box.t) : jstring * jstring := (Box.id (fst p), Box.id (snd p)).
Definition namedPair (o : Overlap.t) : jstring * jstring :=
  (Overlap.moduleA o, Overlap.moduleB o).

(** A module that leaves its position to [addModule] and has a height
    that is a number and not negative. *)
Definition autoPlaced (m : ModuleSpec.t) : Prop :=
  ModuleSpec.y m = Measure.Absent
  /\ exists h, ModuleSpec.height m = Measure.Num h /\ (0 <= h)%Q.

(** The horizontal extents of two entries meet. *)
Definition xRangesMeet (a b : Box.t) : bool :=
  negb (Measure.le (Box.right a) (Box.x b) || Measure.le (Box.right b) (Box.x a)).

(** Bottoms stay below a bound, and every entry ends where no later entry
    has started. *)
Definition stackedUpTo (top : Q) (positions : list Box.t) : Prop :=
  Forall (fun p => exists b, Box.bottom p = Measure.Num b /\ (b <= top)%Q) positions
  /\ ForallOrdPairs (fun p q => Measure.le (Box.bottom p) (Box.y q) = true) positions.

(** An entry without [height] and [originalY]. *)
Definition sizeless (p : Box.t) : Prop :=
  Box.height p = Measure.Absent /\ Box.originalY p = Measure.Absent.

(** A repaired entry: same module, same horizontal extent, no bottom. *)
Definition bottomless (p r : Box.t) : Prop :=
  Box.id r = Box.id p /\ Box.x r = Box.x p /\ Box.right r = Box.right p
  /\ Box.bottom r = Measure.NaN.

(** The identifier layout, read without regard to letter case. *)
Definition caseBlindLayout (s : jstring) : Prop :=
  length s = 36%nat /\ forall j c, s !! j = Some c -> layoutAt j (upperUnit c) = true.

(* ================================================================== *)
(** ** Sample inputs *)
(* ================================================================== *)

(** A random source that cycles through 0/16, 1/16, ..., 15/16. *)
Definition cycle16 : nat -> Q := fun k => (Z.of_nat (k mod 16) # 16)%Q.

(** A rendering of numbers that is right on the integers [0..9]; the
    samples render no other number. *)
Definition digitString : Q -> jstring := fun q => JsString.ofN (Z.to_N (Qfloor q)).

(** What [generateSketchJSON] builds for a design without modules: one
    page holding one artboard of 393 by 852. *)
Definition emptyDesign : Gen.Gen value :=
  draw artboard <- createArtboard cycle16 (u "Design") 393 852 (str "#F2F2F7") in
  draw page <- createPage cycle16 (u "Design") [artboard] in
  generateSketchDocument cycle16 [page].

(** The same document with a page that is no page. *)
Definition brokenDesign : value :=
  set (u "pages") (VArr [obj [("do_objectID", str "nope")]]) (fst (emptyDesign 0%nat)).

(** An empty disk, after the draws of the sample document. *)
Definition emptyDisk : IO.world := IO.mkWorld ∅ (snd (emptyDesign 0%nat)).

(** A module description of a table with actions whose first row array
    also serves as its third row. *)
Definition sharedRowsTable : DataTable.t :=
  DataTable.make None (Some (u "Orders"))
    (Some [Column.make (u "Id") 60; Column.make (u "Name") 120])
    (Some [0; 1; 0]%nat) (VBool false) (VBool true).

Definition sharedRowsHeap : gmap nat (list value) :=
  list_to_map [(0%nat, [str "1"; str "Ann"; str "edit"; str "x"]);
               (1%nat, [str "2"])].

Definition sampleContext : Context.t :=
  Context.make 16 0 361
    (Palette.make (str "#007AFF") (str "#5856D6") (str "#F2F2F7") (str "#FFFFFF")
                  (str "#1C1C1E") (str "#8E8E93") VUndef).

(** A table with actions and two row arrays of its own, each ending in an
    action cell; and two row arrays that are empty. *)
Definition actionsTable : DataTable.t :=
  DataTable.make None None
    (Some [Column.make (u "Id") 60; Column.make (u "Name") 120])
    (Some [0; 1]%nat) (VBool false) (VBool true).

Definition actionsHeap : gmap nat (list value) :=
  list_to_map [(0%nat, [str "1"; str "Ann"; str "edit"]);
               (1%nat, [str "2"; str "Bob"; str "edit"])].

Definition emptyRowsHeap : gmap nat (list value) :=
  list_to_map [(0%nat, []); (1%nat, [])].

(** A table description without [columns]. *)
Definition headlessTable : DataTable.t :=
  DataTable.make None None None (Some [0]%nat) (VBool false) (VBool true).

(** Three modules that leave their position to [addModule]; the last one
    is taller than the artboard. *)
Definition stackedModules : list ModuleSpec.t :=
  [ModuleSpec.make (u "header") (u "header") (Measure.Num 56)
     Measure.Absent Measure.Absent;
   ModuleSpec.make (u "hero") (u "hero") (Measure.Num 0)
     (Measure.Num 200) Measure.Absent;
   ModuleSpec.make (u "list") (u "list") (Measure.Num 900)
     Measure.Absent Measure.Absent].

(** Two modules with positions of their own, the second starting inside
    the first. *)
Definition pinnedModules : list ModuleSpec.t :=
  [ModuleSpec.make (u "a") (u "card") (Measure.Num 50) Measure.Absent (Measure.Num 100);
   ModuleSpec.make (u "b") (u "card") (Measure.Num 50) Measure.Absent (Measure.Num 120)].
Lemma jstring_eqb_eq (a b : jstring) : JsString.eqb a b = true <-> a = b.
Proof.
  revert b; induction a as [|x a IH]; intros [|y b]; simpl; split;
    try congruence; try done.
  - intros [Hx Hab]%andb_prop. apply N.eqb_eq in Hx. apply IH in Hab. congruence.
  - intros [= -> ->]. rewrite N.eqb_refl. simpl. by apply IH.
Qed.

Lemma jstring_eqb_refl (a : jstring) : JsString.eqb a a = true.
Proof. by apply jstring_eqb_eq. Qed.

Lemma jstring_eqb_neq (a b : jstring) : JsString.eqb a b = false <-> a <> b.
Proof.
  split.
  - intros H Hab. apply jstring_eqb_eq in Hab. congruence.
  - intros H. destruct (JsString.eqb a b) eqn:E; [|done].
    apply jstring_eqb_eq in E. contradiction.
Qed.

Lemma nullable_Lang (r : regex) : nullable r = true -> Lang r [].
Proof.
  induction r; simpl; intros H; try discriminate.
  - constructor.
  - apply andb_prop in H as [H1 H2].
    change (@nil N) with (@nil N ++ @nil N). constructor; auto.
  - apply orb_prop in H as [H|H]; [apply LOrL | apply LOrR]; auto.
  - constructor.
Qed.

Lemma deriv_Lang (r : regex) (c : N) (s : jstring) :
  Lang (deriv c r) s -> Lang r (c :: s).
Proof.
  assert (Hcat : forall r1 r2 s0,
             (forall s1, Lang (deriv c r1) s1 -> Lang r1 (c :: s1)) ->
             Lang (Cat (deriv c r1) r2) s0 -> Lang (Cat r1 r2) (c :: s0)).
  { intros r1 r2 s0 IH H. inversion H; subst.
    rewrite app_comm_cons. constructor; auto. }
  revert s; induction r; simpl; intros s H.
  - inversion H.
  - inversion H.
  - destruct (p c) eqn:E; inversion H; subst. by constructor.
  - destruct (nullable r1) eqn:E; [|by apply Hcat].
    inversion H; subst; [by apply Hcat|].
    change (c :: s) with ([] ++ c :: s). constructor; auto.
    by apply nullable_Lang.
  - inversion H; subst; [apply LOrL | apply LOrR]; auto.
  - inversion H; subst. rewrite app_comm_cons. constructor; auto.
Qed.

Lemma Lang_nullable (r : regex) : Lang r [] -> nullable r = true.
Proof.
  intros H. remember [] as s eqn:Hs. induction H; simpl; try done.
  - apply app_eq_nil in Hs as [-> ->]. rewrite IHLang1, IHLang2; done.
  - rewrite IHLang; done.
  - rewrite IHLang; [|done]. by destruct (nullable r1).
Qed.

Lemma Lang_deriv (r : regex) (c : N) (s : jstring) :
  Lang r (c :: s) -> Lang (deriv c r) s.
Proof.
  intros H. remember (c :: s) as cs eqn:Hcs. revert c s Hcs.
  induction H; intros c0 s0 Hcs; simpl; try discriminate.
  - injection Hcs as -> <-. rewrite H. constructor.
  - destruct s1 as [|x s1]; simpl in Hcs.
    + subst s2. rewrite (Lang_nullable _ H). apply LOrR. by apply IHLang2.
    + injection Hcs as -> <-.
      destruct (nullable r1); [apply LOrL|]; constructor; auto.
  - apply LOrL. auto.
  - apply LOrR. auto.
  - destruct s1 as [|x s1]; simpl in Hcs.
    + by apply IHLang2.
    + injection Hcs as -> <-. constructor; auto.
Qed.

Lemma matches_Lang (r : regex) (s : jstring) : matches r s = true <-> Lang r s.
Proof.
  revert r; induction s as [|c s IH]; intros r; simpl.
  - split; [apply nullable_Lang | apply Lang_nullable].
  - rewrite IH. split; [apply deriv_Lang | apply Lang_deriv].
Qed.

Lemma Lang_times (n : nat) (p : N -> bool) (s : jstring) :
  length s = n -> Forall (fun c => p c = true) s -> Lang (times n (Class p)) s.
Proof.
  revert s; induction n as [|n IH]; intros [|c s] Hl Hs; simpl in *; try discriminate.
  - constructor.
  - inversion Hs; subst. change (c :: s) with ([c] ++ s).
    constructor; [by constructor | apply IH; auto].
Qed.

(* ================================================================== *)
(** ** Rounding to binary64 *)
(* ================================================================== *)

Section Binary64.
Local Open Scope Q_scope.

Lemma pow2_pos e : 0 < JsNum.pow2 e.
Proof. apply Qpower_0_lt. reflexivity. Qed.

Lemma pow2_succ e : JsNum.pow2 (e + 1) == 2 * JsNum.pow2 e.
Proof. unfold JsNum.pow2. rewrite Qpower_plus by discriminate. rewrite Qpower_1_r. ring. Qed.

Lemma pow2_sub (a b : Z) : (0 <= a)%Z -> (0 <= b)%Z ->
  JsNum.pow2 (a - b) == inject_Z (2 ^ a) / inject_Z (2 ^ b).
Proof.
  intros Ha Hb. unfold JsNum.pow2. rewrite Qpower_minus by discriminate.
  rewrite !Zpower_Qpower by done. reflexivity.
Qed.

Lemma pow2_mono (a b : Z) : (a <= b)%Z -> JsNum.pow2 a <= JsNum.pow2 b.
Proof. intros H. apply Qpower_le_compat_l; [done | discriminate]. Qed.

Lemma div_lt_div (n d x b : Q) : 0 < d -> 0 < b -> n * b < x * d -> n / d < x / b.
Proof.
  intros Hd Hb H. apply Qlt_shift_div_l; [done|].
  assert (E : n / d * b == n * b / d) by (field; lra).
  rewrite E. by apply Qlt_shift_div_r.
Qed.

Lemma div_le_div (n d x b : Q) : 0 < d -> 0 < b -> n * b <= x * d -> n / d <= x / b.
Proof.
  intros Hd Hb H. apply Qle_shift_div_l; [done|].
  assert (E : n / d * b == n * b / d) by (field; lra).
  rewrite E. by apply Qle_shift_div_r.
Qed.

Lemma binade_spec (q : Q) :
  ~ q == 0 -> JsNum.pow2 (JsNum.binade q) <= Qabs q /\ Qabs q < JsNum.pow2 (JsNum.binade q + 1).
Proof.
  intros Hq. unfold JsNum.binade.
  set (n := Z.abs (Qnum q)). set (d := Z.pos (Qden q)).
  assert (Hn : (0 < n)%Z).
  { unfold n. destruct q as [a b]. unfold Qeq in Hq. simpl in *. lia. }
  assert (Hd : (0 < d)%Z) by (unfold d; lia).
  assert (Habs : Qabs q == inject_Z n / inject_Z d).
  { destruct q as [a b]. unfold Qabs, n, d. simpl.
    rewrite (Qmake_Qdiv (Z.abs a) b). reflexivity. }
  destruct (Z.log2_spec n Hn) as [Hn1 Hn2].
  destruct (Z.log2_spec d Hd) as [Hd1 Hd2].
  set (a := Z.log2 n) in *. set (b := Z.log2 d) in *.
  assert (Ha : (0 <= a)%Z) by apply Z.log2_nonneg.
  assert (Hb : (0 <= b)%Z) by apply Z.log2_nonneg.
  rewrite Z.pow_succ_r in Hn2, Hd2 by done.
  assert (HA : (0 < 2 ^ a)%Z) by (apply Z.pow_pos_nonneg; lia).
  assert (HB : (0 < 2 ^ b)%Z) by (apply Z.pow_pos_nonneg; lia).
  assert (Hsub : JsNum.pow2 (a - b) == inject_Z (2 ^ a) / inject_Z (2 ^ b)) by (by apply pow2_sub).
  assert (Hlow : inject_Z (2 ^ a) / inject_Z (2 ^ b) / 2 < Qabs q).
  { rewrite Habs.
    assert (E : inject_Z (2 ^ a) / inject_Z (2 ^ b) / 2
                == inject_Z (2 ^ a) / (2 * inject_Z (2 ^ b))).
    { field. change 0 with (inject_Z 0). rewrite inject_Z_injective. lia. }
    rewrite E.
    apply div_lt_div.
    - change 2 with (inject_Z 2). rewrite <- inject_Z_mult.
      change 0 with (inject_Z 0). rewrite <- Zlt_Qlt. lia.
    - change 0 with (inject_Z 0). rewrite <- Zlt_Qlt. lia.
    - change 2 with (inject_Z 2). rewrite <- !inject_Z_mult. rewrite <- Zlt_Qlt. nia. }
  assert (Hhigh : Qabs q < 2 * (inject_Z (2 ^ a) / inject_Z (2 ^ b))).
  { rewrite Habs.
    assert (E : 2 * (inject_Z (2 ^ a) / inject_Z (2 ^ b))
                == 2 * inject_Z (2 ^ a) / inject_Z (2 ^ b)).
    { field. change 0 with (inject_Z 0). rewrite inject_Z_injective. lia. }
    rewrite E.
    apply div_lt_div.
    - change 0 with (inject_Z 0). rewrite <- Zlt_Qlt. lia.
    - change 0 with (inject_Z 0). rewrite <- Zlt_Qlt. lia.
    - change 2 with (inject_Z 2). rewrite <- !inject_Z_mult. rewrite <- Zlt_Qlt. nia. }
  destruct (Qle_bool (JsNum.pow2 (a - b)) (Qabs q)) eqn:E.
  - apply Qle_bool_iff in E. split; [done|].
    rewrite pow2_succ, Hsub. exact Hhigh.
  - assert (Hlt : Qabs q < JsNum.pow2 (a - b)).
    { apply Qnot_le_lt. intros H. apply Qle_bool_iff in H. congruence. }
    split.
    + replace (a - b)%Z with (a - b - 1 + 1)%Z in Hsub by lia.
      rewrite pow2_succ in Hsub. apply Qlt_le_weak.
      assert (E' : JsNum.pow2 (a - b - 1) == inject_Z (2 ^ a) / inject_Z (2 ^ b) / 2)
        by (rewrite <- Hsub; field).
      rewrite E'. exact Hlow.
    + replace (a - b - 1 + 1)%Z with (a - b)%Z by lia. exact Hlt.
Qed.

Lemma roundEven_error (r : Q) : Qabs (inject_Z (JsNum.roundEven r) - r) <= 1 # 2.
Proof.
  unfold JsNum.roundEven.
  pose proof (Qfloor_le r) as H1. pose proof (Qlt_floor r) as H2.
  rewrite inject_Z_plus in H2. change (inject_Z 1) with 1 in H2.
  destruct (r - inject_Z (Qfloor r) ?= 1 # 2) eqn:E.
  - apply Qeq_alt in E. apply Qabs_Qle_condition.
    destruct (Z.even (Qfloor r)); [|rewrite inject_Z_plus; change (inject_Z 1) with 1]; lra.
  - apply Qlt_alt in E. apply Qabs_Qle_condition. lra.
  - apply Qgt_alt in E. apply Qabs_Qle_condition.
    rewrite inject_Z_plus. change (inject_Z 1) with 1. lra.
Qed.

Lemma isZero_spec (q : Q) : JsNum.isZero q = false -> ~ q == 0.
Proof. unfold JsNum.isZero, Qeq. destruct q as [a b]. simpl. intros H%Z.eqb_neq. lia. Qed.

Lemma binary64_error (q : Q) : Qabs (JsNum.binary64 q - q) <= JsNum.ulp q / 2.
Proof.
  unfold JsNum.binary64. destruct (JsNum.isZero q) eqn:E.
  - assert (Hq : q == 0).
    { unfold JsNum.isZero, Qeq in *. destruct q; simpl in *. apply Z.eqb_eq in E. lia. }
    assert (E0 : Qabs (0 - q) == 0) by (rewrite Hq; reflexivity).
    rewrite E0.
    apply Qle_shift_div_l; [reflexivity|]. rewrite Qmult_0_l. apply Qlt_le_weak, pow2_pos.
  - rewrite Qred_correct.
    pose proof (pow2_pos (Z.max (JsNum.binade q) (-1022) - 52)) as Hu. fold (JsNum.ulp q) in Hu.
    pose proof (roundEven_error (q / JsNum.ulp q)) as Hr.
    assert (E1 : inject_Z (JsNum.roundEven (q / JsNum.ulp q)) * JsNum.ulp q - q
                 == (inject_Z (JsNum.roundEven (q / JsNum.ulp q)) - q / JsNum.ulp q) * JsNum.ulp q) by (field; lra).
    rewrite E1, Qabs_Qmult, (Qabs_pos (JsNum.ulp q)) by lra.
    assert (E2 : JsNum.ulp q / 2 == (1 # 2) * JsNum.ulp q) by field. rewrite E2.
    apply Qmult_le_compat_r; [exact Hr | lra].
Qed.
Lemma Qfloor_unique (z : Q) (n : Z) : inject_Z n <= z -> z < inject_Z (n + 1) -> Qfloor z = n.
Proof.
  intros H1 H2.
  pose proof (Qfloor_le z) as H3. pose proof (Qlt_floor z) as H4.
  assert (Ha : (n < Qfloor z + 1)%Z) by (rewrite Zlt_Qlt; lra).
  assert (Hb : (Qfloor z < n + 1)%Z) by (rewrite Zlt_Qlt; lra).
  lia.
Qed.

Lemma binade_below (q : Q) (b : Z) : ~ q == 0 -> Qabs q < JsNum.pow2 b -> (JsNum.binade q < b)%Z.
Proof.
  intros Hq H. destruct (binade_spec q Hq) as [H1 _].
  apply (Qpower_lt_compat_l_inv 2); [|reflexivity].
  fold (JsNum.pow2 (JsNum.binade q)) (JsNum.pow2 b). lra.
Qed.

(** For a whole-number size up to [2 ^ 40] the JsNum.binary64 product rounds as
    the exact one does. *)
Lemma scaled_whole (k : Z) :
  (0 < k <= 2 ^ 40)%Z ->
  Qfloor (JsNum.binary64 (inject_Z k * JsNum.binary64 (12 # 10)) + (1 # 2))
  = Qfloor (inject_Z k * (12 # 10) + (1 # 2)).
Proof.
  intros Hk.
  assert (Hlit : JsNum.binary64 (12 # 10) = 5404319552844595 # 4503599627370496)
    by (vm_compute; reflexivity).
  rewrite Hlit.
  set (x := inject_Z k * (5404319552844595 # 4503599627370496)).
  set (t := inject_Z k * (12 # 10) + (1 # 2)).
  assert (Hk1 : 1 <= inject_Z k).
  { change 1 with (inject_Z 1). rewrite <- Zle_Qle. lia. }
  assert (Hk2 : inject_Z k <= inject_Z (2 ^ 40)) by (rewrite <- Zle_Qle; lia).
  assert (Hx0 : 0 < x) by (unfold x; nra).
  assert (Hxq : ~ x == 0) by lra.
  assert (Hxb : Qabs x < JsNum.pow2 41).
  { rewrite Qabs_pos by lra. unfold x.
    change (JsNum.pow2 41) with (inject_Z (2 ^ 41)). 
    change (inject_Z (2 ^ 41)) with (2 * inject_Z (2 ^ 40)). nra. }
  pose proof (binade_below x 41 Hxq Hxb) as Hb.
  pose proof (binary64_error x) as He.
  assert (Hu : JsNum.ulp x <= JsNum.pow2 (-12)).
  { unfold JsNum.ulp. apply pow2_mono. lia. }
  change (JsNum.pow2 (-12)) with (1 # 4096) in Hu.
  apply Qabs_Qle_condition in He.
  assert (Hd : t - (1 # 2) - (1 # 20480) <= x <= t - (1 # 2)).
  { unfold x, t. change (inject_Z (2 ^ 40)) with 1099511627776 in Hk2. nra. }
  set (n := Qfloor t).
  pose proof (Qfloor_le t) as H3. pose proof (Qlt_floor t) as H4. fold n in H3, H4.
  rewrite inject_Z_plus in H4. change (inject_Z 1) with 1 in H4.
  assert (Ht : 10 * t == inject_Z (12 * k + 5)).
  { unfold t. rewrite inject_Z_plus, inject_Z_mult. change (inject_Z 12) with 12.
    change (inject_Z 5) with 5. field. }
  assert (Hn1 : (10 * n + 1 <= 12 * k + 5)%Z).
  { assert (10 * n <= 12 * k + 5)%Z; [|lia].
    rewrite Zle_Qle, <- Ht, inject_Z_mult. change (inject_Z 10) with 10. lra. }
  assert (Hn2 : (12 * k + 5 <= 10 * n + 9)%Z).
  { assert (12 * k + 5 < 10 * n + 10)%Z; [|lia].
    rewrite Zlt_Qlt, <- Ht, inject_Z_plus, inject_Z_mult. change (inject_Z 10) with 10. lra. }
  assert (Hq1 : inject_Z n + (1 # 10) <= t).
  { rewrite Zle_Qle in Hn1. rewrite <- Ht, inject_Z_plus, inject_Z_mult in Hn1.
    change (inject_Z 10) with 10 in Hn1. change (inject_Z 1) with 1 in Hn1. lra. }
  assert (Hq2 : t <= inject_Z n + (9 # 10)).
  { rewrite Zle_Qle in Hn2. rewrite <- Ht, inject_Z_plus, inject_Z_mult in Hn2.
    change (inject_Z 10) with 10 in Hn2. change (inject_Z 9) with 9 in Hn2. lra. }
  assert (Hhalf : JsNum.ulp x / 2 <= 1 # 8192).
  { apply Qle_shift_div_r; [reflexivity|]. lra. }
  revert He Hhalf Hd Hq1 Hq2. clearbody n t x.
  generalize (JsNum.binary64 x) (JsNum.ulp x / 2). intros y h He Hhalf Hd Hq1 Hq2.
  apply Qfloor_unique.
  - lra.
  - rewrite inject_Z_plus. change (inject_Z 1) with 1. lra.
Qed.
Lemma Qabs_ge (x : Q) : x <= Qabs x /\ - x <= Qabs x.
Proof.
  split; [apply Qle_Qabs|]. rewrite <- Qabs_opp. apply Qle_Qabs.
Qed.

Lemma far_above (r i c : Q) :
  - c < r < c -> Qabs (i - r) <= Qabs (c - r) -> c + 1 <= i -> False.
Proof.
  intros Hr Hn Hi. rewrite (Qabs_pos (c - r)) in Hn by lra.
  destruct (Qabs_ge (i - r)) as [Ha _]. lra.
Qed.

Lemma far_below (r i c : Q) :
  - c < r < c -> Qabs (i - r) <= Qabs (- c - r) -> i <= - c - 1 -> False.
Proof.
  intros Hr Hn Hi. rewrite (Qabs_neg (- c - r)) in Hn by lra.
  destruct (Qabs_ge (i - r)) as [_ Ha]. lra.
Qed.

Lemma roundEven_nearest (r : Q) (k : Z) :
  Qabs (inject_Z (JsNum.roundEven r) - r) <= Qabs (inject_Z k - r).
Proof.
  pose proof (Qfloor_le r) as H1. pose proof (Qlt_floor r) as H2.
  rewrite inject_Z_plus in H2. change (inject_Z 1) with 1 in H2.
  assert (Hk : inject_Z k <= inject_Z (Qfloor r) \/ inject_Z (Qfloor r) + 1 <= inject_Z k).
  { destruct (Z_le_gt_dec k (Qfloor r)) as [H | H].
    - left. by rewrite <- Zle_Qle.
    - right. change 1 with (inject_Z 1). rewrite <- inject_Z_plus, <- Zle_Qle. lia. }
  unfold JsNum.roundEven.
  destruct (r - inject_Z (Qfloor r) ?= 1 # 2) eqn:E.
  - apply Qeq_alt in E.
    destruct (Z.even (Qfloor r)); [|rewrite inject_Z_plus; change (inject_Z 1) with 1];
      apply Qabs_case; intros; apply Qabs_case; intros; lra.
  - apply Qlt_alt in E. apply Qabs_case; intros; apply Qabs_case; intros; lra.
  - apply Qgt_alt in E. rewrite inject_Z_plus. change (inject_Z 1) with 1.
    apply Qabs_case; intros; apply Qabs_case; intros; lra.
Qed.
Lemma pow2_add (a b : Z) : JsNum.pow2 (a + b) == JsNum.pow2 a * JsNum.pow2 b.
Proof. unfold JsNum.pow2. by rewrite Qpower_plus. Qed.

Lemma pow2_inject (a : Z) : (0 <= a)%Z -> JsNum.pow2 a == inject_Z (2 ^ a).
Proof. intros H. unfold JsNum.pow2. by rewrite Zpower_Qpower. Qed.

Lemma binary64_value (q : Q) :
  ~ q == 0 -> JsNum.binary64 q == inject_Z (JsNum.roundEven (q / JsNum.ulp q)) * JsNum.ulp q.
Proof.
  intros Hq. unfold JsNum.binary64. destruct (JsNum.isZero q) eqn:E.
  - exfalso. apply Hq. unfold JsNum.isZero, Qeq in *. destruct q; simpl in *.
    apply Z.eqb_eq in E. lia.
  - apply Qred_correct.
Qed.

(** No multiple of the spacing is nearer than the rounded value. *)
Lemma binary64_multiple (q : Q) (k : Z) :
  ~ q == 0 -> Qabs (JsNum.binary64 q - q) <= Qabs (inject_Z k * JsNum.ulp q - q).
Proof.
  intros Hq. rewrite (binary64_value q Hq).
  pose proof (pow2_pos (Z.max (JsNum.binade q) (-1022) - 52)) as Hu. fold (JsNum.ulp q) in Hu.
  assert (E : forall j, inject_Z j * JsNum.ulp q - q == (inject_Z j - q / JsNum.ulp q) * JsNum.ulp q)
    by (intros j; field; lra).
  rewrite !E, !Qabs_Qmult, (Qabs_pos (JsNum.ulp q)) by lra.
  apply Qmult_le_compat_r; [apply roundEven_nearest | lra].
Qed.

(** [JsNum.binary64] rounds to a nearest JsNum.representable number. *)
Lemma binary64_nearest (q z : Q) :
  JsNum.representable z -> Qabs (JsNum.binary64 q - q) <= Qabs (z - q).
Proof.
  intros (m & e' & Hm & He' & Hz).
  destruct (Qeq_dec q 0) as [Hq | Hq].
  { assert (E : JsNum.binary64 q = 0).
    { unfold JsNum.binary64. replace (JsNum.isZero q) with true; [done|]. symmetry.
      unfold JsNum.isZero, Qeq in *. destruct q; simpl in *. apply Z.eqb_eq. lia. }
    rewrite E. assert (E0 : Qabs (0 - q) == 0) by (rewrite Hq; reflexivity).
    rewrite E0. apply Qabs_nonneg. }
  set (E := Z.max (JsNum.binade q) (-1022)).
  assert (Hu : JsNum.ulp q = JsNum.pow2 (E - 52)) by reflexivity.
  destruct (Z_le_gt_dec (E - 52) e') as [Hle | Hgt].
  - assert (Hz' : z == inject_Z (m * 2 ^ (e' - (E - 52))) * JsNum.ulp q).
    { rewrite Hz, Hu, inject_Z_mult, <- pow2_inject by lia.
      rewrite <- Qmult_assoc, <- pow2_add. by replace (e' - (E - 52) + (E - 52))%Z with e' by lia. }
    rewrite Hz'. by apply binary64_multiple.
  - assert (HE : E = JsNum.binade q) by lia.
    destruct (binade_spec q Hq) as [Hlow _]. rewrite <- HE in Hlow.
    assert (Hsplit : JsNum.pow2 E == inject_Z (2 ^ 52) * JsNum.ulp q).
    { rewrite Hu, <- pow2_inject, <- pow2_add by lia. by replace (52 + (E - 52))%Z with E by lia. }
    assert (Hzabs : Qabs z < JsNum.pow2 E).
    { rewrite Hz, Qabs_Qmult, (Qabs_pos (JsNum.pow2 e')) by (apply Qlt_le_weak, pow2_pos).
      assert (Hm' : Qabs (inject_Z m) <= inject_Z (2 ^ 53) - 1).
      { change (inject_Z (2 ^ 53) - 1) with (inject_Z (2 ^ 53 - 1)).
        unfold Qabs, inject_Z, Qle. simpl Qnum. simpl Qden. lia. }
      assert (He1 : JsNum.pow2 e' <= JsNum.pow2 (E - 53)) by (apply pow2_mono; lia).
      assert (He2 : JsNum.pow2 E == inject_Z (2 ^ 53) * JsNum.pow2 (E - 53)).
      { rewrite <- pow2_inject, <- pow2_add by lia. by replace (53 + (E - 53))%Z with E by lia. }
      pose proof (pow2_pos e') as Hp. pose proof (pow2_pos (E - 53)) as Hp'.
      rewrite He2. change (inject_Z (2 ^ 53)) with 9007199254740992 in *.
      pose proof (Qabs_nonneg (inject_Z m)) as Hm0.
      revert Hm' Hm0 He1 Hp Hp'. generalize (Qabs (inject_Z m)) (JsNum.pow2 e') (JsNum.pow2 (E - 53)).
      intros a b c. nra. }
    pose proof (pow2_pos E) as HpE.
    destruct (Qlt_le_dec q 0) as [Hneg | Hpos].
    + pose proof (binary64_multiple q (- 2 ^ 52) Hq) as Hb.
      rewrite inject_Z_opp in Hb.
      assert (Hw : - inject_Z (2 ^ 52) * JsNum.ulp q == - JsNum.pow2 E) by (rewrite Hsplit; ring).
      rewrite Hw in Hb. rewrite (Qabs_neg q) in Hlow by lra.
      rewrite (Qabs_pos (- JsNum.pow2 E - q)) in Hb by lra.
      revert Hzabs. apply Qabs_case; intros; revert Hb; generalize (Qabs (JsNum.binary64 q - q));
        intros; apply Qabs_case; intros; lra.
    + pose proof (binary64_multiple q (2 ^ 52) Hq) as Hb.
      rewrite <- Hsplit in Hb. rewrite (Qabs_pos q) in Hlow by lra.
      rewrite (Qabs_neg (JsNum.pow2 E - q)) in Hb by lra.
      revert Hzabs. apply Qabs_case; intros; revert Hb; generalize (Qabs (JsNum.binary64 q - q));
        intros; apply Qabs_case; intros; lra.
Qed.

Lemma binary64_representable (q : Q) : JsNum.representable (JsNum.binary64 q).
Proof.
  destruct (Qeq_dec q 0) as [Hq | Hq].
  { exists 0%Z, 0%Z. split; [done|]. split; [lia|].
    unfold JsNum.binary64. replace (JsNum.isZero q) with true; [ring|]. symmetry.
    unfold JsNum.isZero, Qeq in *. destruct q; simpl in *. apply Z.eqb_eq. lia. }
  set (E := Z.max (JsNum.binade q) (-1022)).
  assert (Hu : JsNum.ulp q = JsNum.pow2 (E - 52)) by reflexivity.
  pose proof (pow2_pos (E - 52)) as Hup. rewrite <- Hu in Hup.
  destruct (binade_spec q Hq) as [_ Hhigh].
  assert (Hr : Qabs (q / JsNum.ulp q) < inject_Z (2 ^ 53)).
  { unfold Qdiv. rewrite Qabs_Qmult, (Qabs_pos (/ JsNum.ulp q)) by (apply Qlt_le_weak, Qinv_lt_0_compat, Hup).
    apply Qlt_shift_div_r; [done|].
    rewrite Hu, <- pow2_inject, <- pow2_add by lia.
    eapply Qlt_le_trans; [exact Hhigh|]. apply pow2_mono. lia. }
  pose proof (roundEven_nearest (q / JsNum.ulp q)) as Hn.
  set (M := JsNum.roundEven (q / JsNum.ulp q)) in *.
  assert (HM : (Z.abs M <= 2 ^ 53)%Z).
  { destruct (Z_le_gt_dec (Z.abs M) (2 ^ 53)) as [H | H]; [done|]. exfalso.
    assert (H1 : inject_Z (2 ^ 53) + 1 <= Qabs (inject_Z M)).
    { change 1 with (inject_Z 1). rewrite <- inject_Z_plus.
      unfold Qabs, inject_Z, Qle. simpl. lia. }
    apply Qabs_Qlt_condition in Hr.
    destruct (Qlt_le_dec (inject_Z M) 0) as [Hneg | Hpos].
    - specialize (Hn (- 2 ^ 53)%Z). rewrite inject_Z_opp in Hn.
      rewrite (Qabs_neg (inject_Z M)) in H1 by lra.
      apply (far_below (q / JsNum.ulp q) (inject_Z M) (inject_Z (2 ^ 53))); [done | done | lra].
    - specialize (Hn (2 ^ 53)%Z).
      rewrite (Qabs_pos (inject_Z M)) in H1 by lra.
      by apply (far_above (q / JsNum.ulp q) (inject_Z M) (inject_Z (2 ^ 53))). }
  destruct (Z_le_gt_dec (2 ^ 53) (Z.abs M)) as [Htop | Hin].
  - assert (HM' : (M = 2 ^ 53 \/ M = - 2 ^ 53)%Z) by lia.
    assert (Hy : JsNum.binary64 q == inject_Z M * JsNum.pow2 (E - 52)).
    { rewrite (binary64_value q Hq). fold M. by rewrite Hu. }
    clearbody M. destruct HM' as [-> | ->].
    + exists (2 ^ 52)%Z, (E - 52 + 1)%Z. split; [reflexivity|]. split; [lia|].
      rewrite Hy, pow2_add. change (JsNum.pow2 1) with 2.
      change (2 ^ 53)%Z with (2 ^ 52 * 2)%Z. rewrite inject_Z_mult.
      change (inject_Z 2) with 2. ring.
    + exists (- 2 ^ 52)%Z, (E - 52 + 1)%Z. split; [reflexivity|]. split; [lia|].
      rewrite Hy, pow2_add. change (JsNum.pow2 1) with 2.
      change (- 2 ^ 53)%Z with (- 2 ^ 52 * 2)%Z. rewrite inject_Z_mult.
      change (inject_Z 2) with 2. ring.
  - exists M, (E - 52)%Z. split; [lia|]. split; [lia|].
    rewrite (binary64_value q Hq). fold M. by rewrite Hu.
Qed.

Lemma scaled_whole_positive (k : Z) :
  (0 < k)%Z -> (1 <= Qfloor (inject_Z k * (12 # 10) + (1 # 2)))%Z.
Proof.
  intros Hk. apply (Qfloor_resp_le 1).
  assert (Hk1 : 1 <= inject_Z k).
  { change 1 with (inject_Z 1). rewrite <- Zle_Qle. lia. }
  lra.
Qed.

End Binary64.

(* ================================================================== *)
(** ** Identifiers *)
(* ================================================================== *)

Lemma index_hex (z : Z) :
  (0 <= z < 16)%Z ->
  JsString.indexForConcat hex z = [hexChar z] /\ JsString.upperUnit (hexChar z) = hexChar z.
Proof.
  intros Hz.
  assert (Hc : In z [0; 1; 2; 3; 4; 5; 6; 7; 8; 9; 10; 11; 12; 13; 14; 15]%Z)
    by (simpl; lia).
  simpl in Hc.
  repeat (destruct Hc as [<- | Hc]; [split; vm_compute; reflexivity |]).
  destruct Hc.
Qed.

Lemma hexChar_inj (z z' : Z) :
  (0 <= z < 16)%Z -> (0 <= z' < 16)%Z -> hexChar z = hexChar z' -> z = z'.
Proof.
  intros Hz Hz'.
  assert (Hv : forall x, (0 <= x < 16)%Z -> hexValue (hexChar x) = x).
  { intros x Hx.
    assert (Hc : In x [0; 1; 2; 3; 4; 5; 6; 7; 8; 9; 10; 11; 12; 13; 14; 15]%Z)
      by (simpl; lia).
    simpl in Hc.
    repeat (destruct Hc as [<- | Hc]; [vm_compute; reflexivity |]).
    destruct Hc. }
  intros E. rewrite <- (Hv z Hz), <- (Hv z' Hz'), E. reflexivity.
Qed.

(** Two assembled identifiers agree exactly when their digits do. *)
Lemma assembled_inj (d d' : nat -> Z) :
  (forall k, (0 <= d k < 16)%Z) -> (forall k, (0 <= d' k < 16)%Z) ->
  (assembled d = assembled d' <-> forall k, (k < 31)%nat -> d k = d' k).
Proof.
  intros Hd Hd'. split.
  - intros E k Hk. unfold assembled in E.
    injection E as E.
    do 31 (destruct k as [|k]; [by apply hexChar_inj|]). lia.
  - intros H. unfold assembled.
    repeat match goal with
           | |- context [hexChar (d ?k)] => rewrite (H k) by lia
           end.
    reflexivity.
Qed.

(** [generateUUID] makes 31 draws, whatever they yield. *)
Lemma generateUUID_draws (random : nat -> Q) (n : nat) :
  snd (generateUUID random n) = (31 + n)%nat.
Proof.
  lazy -[JsNum.bitOr JsNum.mul JsString.indexForConcat hex JsString.upperUnit]. reflexivity.
Qed.

Section UuidFacts.

Variable random : nat -> Q.
Hypothesis random_range : forall k, (0 <= random k)%Q /\ (random k < 1)%Q.

Lemma ToInt32_small (q : Q) (m : Z) :
  (0 <= q)%Q -> (q < inject_Z m)%Q -> (m <= 2 ^ 31)%Z ->
  (0 <= JsNum.ToInt32 q < m)%Z.
Proof.
  intros H0 Hm Hb. unfold JsNum.ToInt32.
  destruct q as [a d]. unfold Qle, Qlt in *. simpl in *.
  assert (Ha : (0 <= a)%Z) by lia.
  assert (Hq : (0 <= a ÷ Z.pos d < m)%Z).
  { rewrite Z.quot_div_nonneg by lia. split.
    - apply Z.div_pos; lia.
    - apply Z.div_lt_upper_bound; lia. }
  rewrite Z.mod_small by lia. lia.
Qed.

Lemma scaled_range (r : Q) (m : Z) :
  (0 < m)%Z -> (0 <= r)%Q -> (r < 1)%Q ->
  (0 <= JsNum.mul r (inject_Z m))%Q /\ (JsNum.mul r (inject_Z m) < inject_Z m)%Q.
Proof.
  intros Hm H0 H1. unfold JsNum.mul. rewrite Qred_correct.
  destruct r as [a d]. unfold Qle, Qlt, Qmult, inject_Z in *. simpl in *.
  split; nia.
Qed.

Lemma plain_draw (k : nat) :
  (0 <= JsNum.bitOr (JsNum.mul (random k) 16) 0 < 16)%Z.
Proof.
  destruct (random_range k) as [H0 H1].
  destruct (scaled_range (random k) 16 ltac:(lia) H0 H1) as [Ha Hb].
  pose proof (ToInt32_small _ 16 Ha Hb ltac:(lia)) as Hr.
  unfold JsNum.bitOr. change (JsNum.ToInt32 0) with 0%Z.
  rewrite Z.lor_0_r. exact Hr.
Qed.

Lemma variant_draw (k : nat) :
  (8 <= JsNum.bitOr (JsNum.mul (random k) 4) 8 < 12)%Z.
Proof.
  destruct (random_range k) as [H0 H1].
  destruct (scaled_range (random k) 4 ltac:(lia) H0 H1) as [Ha Hb].
  pose proof (ToInt32_small _ 4 Ha Hb ltac:(lia)) as Hr.
  unfold JsNum.bitOr. change (JsNum.ToInt32 8) with 8%Z.
  change (JsNum.mul (random k) 4) with (JsNum.mul (random k) (inject_Z 4)).
  revert Hr. generalize (JsNum.ToInt32 (JsNum.mul (random k) (inject_Z 4))).
  intros t Ht.
  assert (Hc : (t = 0 \/ t = 1 \/ t = 2 \/ t = 3)%Z) by lia.
  destruct Hc as [-> | [-> | [-> | ->]]]; vm_compute; split; congruence.
Qed.

Lemma hex_at (z : Z) :
  (0 <= z < 16)%Z ->
  exists c, JsString.indexForConcat hex z = [c] /\ isUpperHex c = true.
Proof.
  intros Hz.
  assert (Hc : In z [0; 1; 2; 3; 4; 5; 6; 7; 8; 9; 10; 11; 12; 13; 14; 15]%Z)
    by (simpl; lia).
  simpl in Hc.
  repeat (destruct Hc as [<- | Hc]; [eexists; split; vm_compute; reflexivity |]).
  destruct Hc.
Qed.

Lemma variant_at (z : Z) :
  (8 <= z < 12)%Z ->
  exists c, JsString.indexForConcat hex z = [c] /\ isVariant c = true.
Proof.
  intros Hz.
  assert (Hc : In z [8; 9; 10; 11]%Z) by (simpl; lia).
  simpl in Hc.
  repeat (destruct Hc as [<- | Hc]; [eexists; split; vm_compute; reflexivity |]).
  destruct Hc.
Qed.

(** The units assembled so far obey the layout. *)
Definition prefixOk (s : jstring) : Prop :=
  forall j c, s !! j = Some c -> layoutAt j c = true.

Lemma prefixOk_snoc (s : jstring) (c : N) :
  prefixOk s -> layoutAt (length s) c = true -> prefixOk (s ++ [c]).
Proof.
  intros Hs Hc j x Hj.
  destruct (decide (j < length s)%nat) as [Hlt | Hge].
  - rewrite lookup_app_l in Hj by done. eauto.
  - rewrite lookup_app_r in Hj by lia.
    destruct (j - length s)%nat as [|d] eqn:E; simpl in Hj; [|done].
    assert (j = length s) as -> by lia. congruence.
Qed.

Lemma of_nat_eqb (j k : nat) : (Z.of_nat j =? Z.of_nat k)%Z = (j =? k)%nat.
Proof.
  destruct (Z.eqb_spec (Z.of_nat j) (Z.of_nat k)), (Nat.eqb_spec j k); lia || done.
Qed.

Lemma dash_test (j : nat) :
  ((Z.of_nat j =? 8)%Z || (Z.of_nat j =? 13)%Z || (Z.of_nat j =? 18)%Z
   || (Z.of_nat j =? 23)%Z)
  = existsb (Nat.eqb j) [8; 13; 18; 23]%nat.
Proof.
  change 8%Z with (Z.of_nat 8). change 13%Z with (Z.of_nat 13).
  change 18%Z with (Z.of_nat 18). change 23%Z with (Z.of_nat 23).
  rewrite !of_nat_eqb. simpl. rewrite orb_false_r, !orb_assoc. reflexivity.
Qed.

Lemma uuidLoop_layout (k : nat) (s : jstring) (n : nat) :
  (length s + k = 36)%nat -> prefixOk s ->
  let out := uuidLoop random k (Z.of_nat (length s)) s n in
  length (fst out) = 36%nat /\ prefixOk (fst out) /\
  (snd out <= n + k)%nat.
Proof.
  revert s n; induction k as [|k IH]; intros s n Hlen Hs; simpl.
  - split; [lia | split; [done | lia]].
  - assert (Hnext : forall c, Z.of_nat (length (s ++ [c])) = (Z.of_nat (length s) + 1)%Z)
      by (intros c; rewrite length_app; simpl; lia).
    assert (Hl : forall c, (length (s ++ [c]) + k = 36)%nat)
      by (intros c; rewrite length_app; simpl; lia).
    rewrite dash_test.
    change 14%Z with (Z.of_nat 14). change 19%Z with (Z.of_nat 19).
    rewrite !of_nat_eqb.
    assert (Hstep : forall c n', layoutAt (length s) c = true -> (n' <= S n)%nat ->
              let out := uuidLoop random k (Z.of_nat (length s) + 1) (s ++ [c]) n' in
              length (fst out) = 36%nat /\ prefixOk (fst out) /\ (snd out <= n + S k)%nat).
    { intros c n' Hc Hn'. rewrite <- (Hnext c).
      destruct (IH (s ++ [c]) n' (Hl c)) as (H1 & H2 & H3).
      - by apply prefixOk_snoc.
      - split; [done | split; [done | lia]]. }
    destruct (existsb (Nat.eqb (length s)) [8; 13; 18; 23]%nat) eqn:Edash.
    { apply (Hstep 45%N n); [|lia]. unfold layoutAt. by rewrite Edash. }
    destruct (length s =? 14)%nat eqn:E14.
    { apply (Hstep 52%N n); [|lia]. unfold layoutAt. by rewrite Edash, E14. }
    destruct (length s =? 19)%nat eqn:E19.
    { unfold Gen.bind, mathRandom.
      destruct (variant_at _ (variant_draw n)) as (c & -> & Hc).
      apply (Hstep c (S n)); [|lia]. unfold layoutAt. by rewrite Edash, E14, E19. }
    unfold Gen.bind, mathRandom.
    destruct (hex_at _ (plain_draw n)) as (c & -> & Hc).
    apply (Hstep c (S n)); [|lia]. unfold layoutAt. by rewrite Edash, E14, E19.
Qed.

Lemma layoutAt_upper (j : nat) (c : N) : layoutAt j c = true -> upperUnit c = c.
Proof.
  unfold layoutAt, upperUnit, isVariant, isUpperHex, range. intros H.
  destruct ((97 <=? c)%N && (c <=? 122)%N) eqn:E; [|done].
  apply andb_prop in E as [E1 E2]. apply N.leb_le in E1, E2.
  repeat match type of H with
         | (if ?b then _ else _) = true => destruct b
         end;
    simpl in H;
    repeat match goal with
           | H : _ || _ = true |- _ => apply orb_prop in H as [H | H]
           | H : _ && _ = true |- _ => apply andb_prop in H as [? H]
           | H : (_ =? _)%N = true |- _ => apply N.eqb_eq in H
           | H : (_ <=? _)%N = true |- _ => apply N.leb_le in H
           end; try lia; try discriminate.
Qed.

Lemma generateUUID_layout (n : nat) : canonicalLayout (fst (generateUUID random n)).
Proof.
  unfold generateUUID, Gen.bind.
  pose proof (uuidLoop_layout 36 [] n eq_refl) as H.
  change (Z.of_nat (length (@nil N))) with 0%Z in H.
  specialize (H ltac:(intros j c Hj; discriminate)). cbv zeta in H.
  destruct (uuidLoop random 36 0 [] n) as [s n'].
  destruct H as (Hlen & Hok & _).
  unfold Gen.ret, fst, snd in *. unfold toUpperCase.
  assert (Hid : map upperUnit s = s).
  { apply list_eq. intros j. rewrite list_lookup_fmap.
    destruct (s !! j) as [c|] eqn:Ej; simpl; [|done].
    f_equal. eapply layoutAt_upper. eauto. }
  rewrite Hid. split; done.
Qed.

Lemma plain_hex (j : nat) :
  JsString.indexForConcat hex (JsNum.bitOr (JsNum.mul (random j) 16) 0)
  = [hexChar (plainDigit (random j))]
  /\ JsString.upperUnit (hexChar (plainDigit (random j))) = hexChar (plainDigit (random j)).
Proof. apply index_hex, plain_draw. Qed.

Lemma variant_hex (j : nat) :
  JsString.indexForConcat hex (JsNum.bitOr (JsNum.mul (random j) 4) 8)
  = [hexChar (variantDigit (random j))]
  /\ JsString.upperUnit (hexChar (variantDigit (random j)))
     = hexChar (variantDigit (random j)).
Proof.
  apply index_hex. pose proof (variant_draw j). unfold variantDigit. lia.
Qed.

Lemma drawn_range (k j : nat) : (0 <= drawnDigit k (random j) < 16)%Z.
Proof.
  unfold drawnDigit. destruct (k =? 15)%nat.
  - pose proof (variant_draw j). unfold variantDigit. lia.
  - apply plain_draw.
Qed.

(** The identifier, unit by unit: the digits of the draws [n], [n + 1], ...
    around the four dashes and the version digit. *)
Lemma generateUUID_assembled (n : nat) :
  fst (generateUUID random n) = assembled (fun k => drawnDigit k (random (k + n))).
Proof.
  unfold generateUUID, Gen.bind, Gen.ret.
  lazy -[JsNum.bitOr JsNum.mul JsString.indexForConcat hex JsString.toUpperCase app fst
         assembled drawnDigit].
  repeat match goal with
         | |- context [JsString.indexForConcat hex
                         (JsNum.bitOr (JsNum.mul (random ?j) 16) 0)] =>
             rewrite (proj1 (plain_hex j))
         | |- context [JsString.indexForConcat hex
                         (JsNum.bitOr (JsNum.mul (random ?j) 4) 8)] =>
             rewrite (proj1 (variant_hex j))
         end.
  cbn [app JsString.toUpperCase map].
  repeat match goal with
         | |- context [JsString.upperUnit (hexChar (plainDigit (random ?j)))] =>
             rewrite (proj2 (plain_hex j))
         | |- context [JsString.upperUnit (hexChar (variantDigit (random ?j)))] =>
             rewrite (proj2 (variant_hex j))
         end.
  reflexivity.
Qed.

End UuidFacts.

(** Two identifiers agree exactly when the draws they were assembled from
    give the same digits. *)
Lemma generateUUID_fresh (random random' : nat -> Q) (n m : nat) :
  (forall k, (0 <= random k)%Q /\ (random k < 1)%Q) ->
  (forall k, (0 <= random' k)%Q /\ (random' k < 1)%Q) ->
  (fst (generateUUID random' m) = fst (generateUUID random n)
   <-> forall k, (k < 31)%nat ->
         drawnDigit k (random' (k + m)) = drawnDigit k (random (k + n))).
Proof.
  intros Hr Hr'. rewrite !generateUUID_assembled by done.
  apply assembled_inj; intros k; by apply drawn_range.
Qed.

(** A string in the canonical layout matches the validator's expression. *)
Lemma canonicalLayout_matches (s : jstring) :
  canonicalLayout s -> Regex.matches uuidRegex s = true.
Proof.
  intros [Hlen Hok]. apply matches_Lang. unfold uuidRegex, dash, lit.
  do 36 (destruct s as [|? s]; [discriminate|]).
  destruct s; [|discriminate]. clear Hlen.
  assert (Hhex : forall c, isUpperHex c = true -> ignoreCase isUpperHex c = true).
  { intros c Hc. unfold ignoreCase.
    replace (upperUnit c) with c; [done|].
    unfold upperUnit. destruct ((97 <=? c)%N && (c <=? 122)%N) eqn:E; [|done].
    unfold isUpperHex, range in Hc. apply andb_prop in E as [E1 E2].
    apply N.leb_le in E1, E2.
    apply orb_prop in Hc as [Hc | Hc]; apply andb_prop in Hc as [H1 H2];
      apply N.leb_le in H1, H2; lia. }
  assert (Hvar : forall c, isVariant c = true -> ignoreCase isVariant c = true).
  { intros c Hc. unfold ignoreCase. unfold isVariant in Hc. simpl in Hc.
    repeat (apply orb_prop in Hc as [Hc | Hc]; [apply N.eqb_eq in Hc; subst; done|]).
    discriminate. }
  repeat match goal with
         | |- Lang (Cat (times ?k _) _) ?l =>
             rewrite <- (take_drop k l); simpl take; simpl drop; apply LCat;
             [apply Lang_times; [reflexivity | repeat constructor] |]
         | |- Lang (times ?k _) ?l =>
             apply Lang_times; [reflexivity | repeat constructor]
         | |- Lang (Cat _ _) (?c :: ?l) =>
             change (c :: l) with ([c] ++ l); apply LCat; [apply LClass |]
         end;
    match goal with
    | |- ignoreCase isUpperHex ?c = true =>
        apply Hhex;
        match goal with
        | |- isUpperHex ?c = true =>
            first [ apply (Hok 0%nat c eq_refl) | apply (Hok 1%nat c eq_refl)
                  | apply (Hok 2%nat c eq_refl) | apply (Hok 3%nat c eq_refl)
                  | apply (Hok 4%nat c eq_refl) | apply (Hok 5%nat c eq_refl)
                  | apply (Hok 6%nat c eq_refl) | apply (Hok 7%nat c eq_refl)
                  | apply (Hok 9%nat c eq_refl) | apply (Hok 10%nat c eq_refl)
                  | apply (Hok 11%nat c eq_refl) | apply (Hok 12%nat c eq_refl)
                  | apply (Hok 15%nat c eq_refl) | apply (Hok 16%nat c eq_refl)
                  | apply (Hok 17%nat c eq_refl) | apply (Hok 20%nat c eq_refl)
                  | apply (Hok 21%nat c eq_refl) | apply (Hok 22%nat c eq_refl)
                  | apply (Hok 24%nat c eq_refl) | apply (Hok 25%nat c eq_refl)
                  | apply (Hok 26%nat c eq_refl) | apply (Hok 27%nat c eq_refl)
                  | apply (Hok 28%nat c eq_refl) | apply (Hok 29%nat c eq_refl)
                  | apply (Hok 30%nat c eq_refl) | apply (Hok 31%nat c eq_refl)
                  | apply (Hok 32%nat c eq_refl) | apply (Hok 33%nat c eq_refl)
                  | apply (Hok 34%nat c eq_refl) | apply (Hok 35%nat c eq_refl) ]
        end
    | |- ignoreCase isVariant ?c = true => apply Hvar; apply (Hok 19%nat c eq_refl)
    | |- (45 =? ?c)%N = true =>
        rewrite N.eqb_sym;
        first [ apply (Hok 8%nat c eq_refl) | apply (Hok 13%nat c eq_refl)
              | apply (Hok 18%nat c eq_refl) | apply (Hok 23%nat c eq_refl) ]
    | |- (52 =? ?c)%N = true => rewrite N.eqb_sym; apply (Hok 14%nat c eq_refl)
    | |- _ => idtac
    end.
Qed.

(** C2. Whatever values in [0,1) the random source yields, [generateUUID]
    returns a string of 36 units with a dash at positions 8, 13, 18 and 23,
    the digit 4 at position 14, one of 8, 9, A, B at position 19 and an
    upper-case hexadecimal digit everywhere else, and [isValidUUID] accepts
    it. *)
Theorem C2_generateUUID_canonical (random : nat -> Q) (numberToString : Q -> jstring)
    (n : nat) :
  (forall k, (0 <= random k)%Q /\ (random k < 1)%Q) ->
  let id := fst (generateUUID random n) in
  length id = 36%nat
  /\ id !! 8%nat = Some 45%N /\ id !! 13%nat = Some 45%N
  /\ id !! 18%nat = Some 45%N /\ id !! 23%nat = Some 45%N
  /\ id !! 14%nat = Some 52%N
  /\ (exists c, id !! 19%nat = Some c /\ In c [56; 57; 65; 66]%N)
  /\ (forall j c, id !! j = Some c -> ~ In j [8; 13; 14; 18; 19; 23]%nat ->
                  isUpperHex c = true)
  /\ isValidUUID numberToString (VStr id) = Return true.
Proof.
  intros Hr id.
  pose proof (generateUUID_layout random Hr n) as Hl. fold id in Hl.
  pose proof (canonicalLayout_matches id Hl) as Hm.
  destruct Hl as [Hlen Hok].
  assert (Hat : forall j, (j < 36)%nat -> exists c, id !! j = Some c).
  { intros j Hj. apply lookup_lt_is_Some. lia. }
  assert (Hdash : forall j, In j [8; 13; 18; 23]%nat -> id !! j = Some 45%N).
  { intros j Hj. destruct (Hat j) as [c Hc]; [simpl in Hj; lia|].
    pose proof (Hok j c Hc) as H. unfold layoutAt in H.
    simpl in Hj. destruct Hj as [<- | [<- | [<- | [<- | []]]]]; simpl in H;
      apply N.eqb_eq in H; congruence. }
  split; [done|].
  repeat (split; [apply Hdash; simpl; tauto|]).
  split.
  { destruct (Hat 14%nat) as [c Hc]; [lia|].
    pose proof (Hok _ c Hc) as H. simpl in H. apply N.eqb_eq in H. congruence. }
  split.
  { destruct (Hat 19%nat) as [c Hc]; [lia|]. exists c. split; [done|].
    pose proof (Hok _ c Hc) as H. unfold layoutAt, isVariant in H. simpl in H.
    repeat (apply orb_prop in H as [H | H]; [apply N.eqb_eq in H; subst c; simpl; tauto|]).
    discriminate. }
  split.
  { intros j c Hc Hj. pose proof (Hok j c Hc) as H. unfold layoutAt in H.
    simpl in H.
    repeat match type of H with
           | context [(j =? ?k)%nat] =>
               destruct (Nat.eqb_spec j k);
               [exfalso; apply Hj; subst j; simpl; tauto | simpl in H]
           end.
    exact H. }
  unfold isValidUUID.
  change (toStringV numberToString (VStr id)) with (Return (A:=list N) id).
  unfold JsError.bind. by rewrite Hm.
Qed.

(** A random source that cycles through sixteen values of [0,1). *)
Lemma C2_generateUUID_canonical_witness :
  let random := fun k : nat => (Z.of_nat (k mod 16) # 16)%Q in
  let id := fst (generateUUID random 0) in
  id = u "01234567-89AB-4CDE-B012-3456789ABCDE"
  /\ isValidUUID (fun _ => u "0") (VStr id) = Return true.
Proof.
  intros random id. split; [vm_compute; reflexivity|].
  apply (C2_generateUUID_canonical random (fun _ => u "0") 0).
  intros k. unfold random, Qle, Qlt. simpl.
  pose proof (Nat.mod_upper_bound k 16). lia.
Defined.

(* ================================================================== *)
(** ** Objects *)
(* ================================================================== *)

Lemma lookup_assign_same (k : jstring) (v : value) (ps : list (jstring * value)) :
  lookup k (assign k v ps) = Some v.
Proof.
  induction ps as [|[k' v'] ps IH]; simpl.
  - by rewrite jstring_eqb_refl.
  - destruct (JsString.eqb k k') eqn:E; simpl.
    + by rewrite jstring_eqb_refl.
    + by rewrite E.
Qed.

Lemma lookup_assign_other (k k' : jstring) (v : value) (ps : list (jstring * value)) :
  k <> k' -> lookup k' (assign k v ps) = lookup k' ps.
Proof.
  intros Hne. induction ps as [|[k0 v0] ps IH]; simpl.
  - apply jstring_eqb_neq in Hne.
    assert (JsString.eqb k' k = false) as ->; [|done].
    apply jstring_eqb_neq. intros ->. by apply jstring_eqb_neq in Hne.
  - destruct (JsString.eqb k k0) eqn:E; simpl.
    + apply jstring_eqb_eq in E. subst k0.
      assert (JsString.eqb k' k = false) as ->; [|done].
      apply jstring_eqb_neq. congruence.
    + destruct (JsString.eqb k' k0); [done | apply IH].
Qed.

Lemma get_set_same (k : jstring) (v : value) (ps : list (jstring * value)) :
  get k (set k v (VObj ps)) = v.
Proof. simpl. by rewrite lookup_assign_same. Qed.

Lemma get_set_other (k k' : jstring) (v : value) (ps : list (jstring * value)) :
  k <> k' -> get k' (set k v (VObj ps)) = get k' (VObj ps).
Proof. intros H. simpl. by rewrite lookup_assign_other. Qed.

Lemma set_obj (k : jstring) (v : value) (ps : list (jstring * value)) :
  set k v (VObj ps) = VObj (assign k v ps).
Proof. reflexivity. Qed.

(* ================================================================== *)
(** ** Colours *)
(* ================================================================== *)

(** C7, the part that holds: the documented example.  [#FF0000] is read as
    full red, no green, no blue, opaque. *)
Lemma parseColor_red :
  parseColor (str "#FF0000")
  = obj [("_class", str "color"); ("alpha", VNum 1); ("red", VNum 1);
         ("green", VNum 0); ("blue", VNum 0)].
Proof. vm_compute. reflexivity. Qed.

(** C7. A sign is accepted where two hexadecimal digits are expected: the
    string [#-1] is read with a red channel of -1/255, below the unit
    interval, and the validator rejects the colour so produced. *)
Theorem C7_parseColor_signed_channel :
  get (u "red") (parseColor (str "#-1")) = VNum (-1 # 255)
  /\ ~ inUnitInterval (get (u "red") (parseColor (str "#-1")))
  /\ validateColor (parseColor (str "#-1")) (u "color")
     = [u "color.red must be a number between 0 and 1"].
Proof.
  split; [vm_compute; reflexivity|]. split.
  - vm_compute. intros [H _]. apply H. reflexivity.
  - vm_compute. reflexivity.
Qed.

(** Away from that sign the codec keeps its promise. *)
Lemma hexDigit_range (c : N) (d : Z) : hexDigit c = Some d -> (0 <= d < 16)%Z.
Proof.
  unfold hexDigit.
  repeat match goal with
         | |- context [if ?b then _ else _] => destruct b eqn:?
         end; intros [= <-];
    repeat match goal with
           | H : _ && _ = true |- _ => apply andb_prop in H as [? ?]
           | H : (_ <=? _)%N = true |- _ => apply N.leb_le in H
           end; lia.
Qed.

Lemma hexPrefix_some (s : jstring) (a : Z) :
  (0 <= a)%Z ->
  exists r, hexPrefix s (Some a) = Some r /\ (0 <= r < (a + 1) * 16 ^ Z.of_nat (length s))%Z.
Proof.
  revert a; induction s as [|c s IH]; intros a Ha; simpl.
  - exists a. split; [done | lia].
  - destruct (hexDigit c) as [d|] eqn:Ed.
    + apply hexDigit_range in Ed.
      destruct (IH (16 * a + d)%Z ltac:(lia)) as (r & -> & Hr).
      exists r. split; [done|].
      rewrite Nat2Z.inj_succ, Z.pow_succ_r by lia. nia.
    + exists a. split; [done|].
      assert (0 < 16 ^ Z.of_nat (S (length s)))%Z by (apply Z.pow_pos_nonneg; lia). nia.
Qed.

Lemma hexPrefix_none (s : jstring) :
  hexPrefix s None = None
  \/ exists r, hexPrefix s None = Some r /\ (0 <= r < 16 ^ Z.of_nat (length s))%Z.
Proof.
  destruct s as [|c s]; simpl; [by left|].
  destruct (hexDigit c) as [d|] eqn:Ed; [|by left].
  apply hexDigit_range in Ed. right. simpl.
  destruct (hexPrefix_some s d ltac:(lia)) as (r & Hr & Hb).
  replace (16 * 0 + d)%Z with d by lia.
  exists r. split; [done|].
  rewrite Nat2Z.inj_succ, Z.pow_succ_r by lia. nia.
Qed.

Lemma skipWhiteSpace_suffix (s : jstring) :
  exists p, s = p ++ skipWhiteSpace s.
Proof.
  induction s as [|c s [p Hp]]; simpl; [by exists []|].
  destruct (isStrWhiteSpace c); [|by exists []].
  exists (c :: p). simpl. by f_equal.
Qed.

Lemma sign_unsigned (s1 : jstring) :
  ~ In 45%N s1 ->
  exists s2, (length s2 <= length s1)%nat /\
    (match s1 with
     | 45%N :: r => ((-1)%Z, r)
     | 43%N :: r => (1%Z, r)
     | _ => (1%Z, s1)
     end) = (1%Z, s2).
Proof.
  intros Hm. destruct s1 as [|c r]; [by exists []|].
  assert (Hc : c <> 45%N) by (intros ->; apply Hm; by left).
  clear Hm.
  repeat match goal with
         | |- context [match ?x with _ => _ end] => is_var x; destruct x
         end;
    first [ congruence
          | eexists; split; [|reflexivity]; simpl; lia ].
Qed.

Lemma prefix_stripped (s2 : jstring) :
  (length (match s2 with
           | 48%N :: 120%N :: r => r
           | 48%N :: 88%N :: r => r
           | _ => s2
           end) <= length s2)%nat.
Proof.
  repeat match goal with
         | |- context [match ?x with _ => _ end] => is_var x; destruct x
         end; simpl; lia.
Qed.

Lemma channel_unsigned (s : jstring) :
  (length s <= 2)%nat -> ~ In 45%N s ->
  (0 <= channel s)%Q /\ (channel s <= 1)%Q.
Proof.
  intros Hlen Hminus. unfold channel, parseInt16.
  destruct (skipWhiteSpace_suffix s) as [p Hp].
  assert (Hl1 : (length (skipWhiteSpace s) <= 2)%nat).
  { rewrite Hp, length_app in Hlen. lia. }
  assert (Hm1 : ~ In 45%N (skipWhiteSpace s)).
  { intros H. apply Hminus. rewrite Hp. apply in_or_app. by right. }
  destruct (sign_unsigned _ Hm1) as (s2 & Hl2 & ->).
  pose proof (prefix_stripped s2) as Hl3.
  destruct (hexPrefix_none (match s2 with
                            | 48%N :: 120%N :: r => r
                            | 48%N :: 88%N :: r => r
                            | _ => s2
                            end)) as [-> | (r & -> & Hr)]; simpl.
  { split; done. }
  assert (Hr' : (0 <= r <= 255)%Z).
  { assert (16 ^ Z.of_nat (length (match s2 with
                                   | 48%N :: 120%N :: r => r
                                   | 48%N :: 88%N :: r => r
                                   | _ => s2
                                   end)) <= 16 ^ 2)%Z
      by (apply Z.pow_le_mono_r; lia). lia. }
  clear Hr.
  destruct (JsNum.isZero (JsNum.div (JsNum.ofZ (Z.mul 1 r)) 255)) eqn:Ez; [split; done|].
  unfold JsNum.div. rewrite Qred_correct.
  unfold JsNum.ofZ, Qdiv, Qmult, Qinv, Qle, inject_Z. simpl. lia.
Qed.

Lemma substr_short (a : nat) (s : jstring) : (length (JsString.substr a 2 s) <= 2)%nat.
Proof. unfold JsString.substr. rewrite length_take. lia. Qed.

Lemma substr_In (a : nat) (c : N) (s : jstring) :
  In c (JsString.substr a 2 s) -> In c s.
Proof.
  unfold JsString.substr. intros H.
  rewrite <- (take_drop a s). apply in_or_app. right.
  rewrite <- (take_drop 2 (drop a s)). apply in_or_app. by left.
Qed.

(** Every channel of the colour read from a value that holds no minus sign
    lies in the unit interval; a value that is no string reads black. *)
Lemma parseColor_unsigned (v : value) :
  (forall s, v = VStr s -> ~ In 45%N s) ->
  Forall (fun k => inUnitInterval (get (u k) (parseColor v)))
         ["red"; "green"; "blue"; "alpha"].
Proof.
  intros Hv.
  assert (Hblack : Forall (fun k => inUnitInterval (get (u k) black))
                          ["red"; "green"; "blue"; "alpha"]).
  { repeat (apply Forall_cons; [split; vm_compute; discriminate|]). apply Forall_nil. }
  destruct v as [| | | |s| | |]; try exact Hblack.
  destruct s as [|c rest]; [exact Hblack|].
  unfold parseColor.
  destruct (JsString.startsWith (u "#") (c :: rest)); [|exact Hblack].
  assert (Hch : forall a, inUnitInterval
            (VNum (channel (JsString.substr a 2 (JsString.slice 1 (c :: rest)))))).
  { intros a. simpl. apply channel_unsigned; [apply substr_short|].
    intros H. apply substr_In in H. apply (Hv (c :: rest) eq_refl).
    simpl in H. by right. }
  apply Forall_cons; [exact (Hch 0%nat)|].
  apply Forall_cons; [exact (Hch 2%nat)|].
  apply Forall_cons; [exact (Hch 4%nat)|].
  apply Forall_cons; [|apply Forall_nil].
  split; vm_compute; discriminate.
Qed.

(* ================================================================== *)
(** ** The node model *)
(* ================================================================== *)

Lemma Lang_star_any (s : jstring) : Lang (Star anyUnit) s.
Proof.
  induction s as [|c s IH]; [constructor|].
  change (c :: s) with ([c] ++ s). constructor; [by constructor | done].
Qed.

Lemma search_class (p : N -> bool) (s : jstring) :
  Regex.search (Class p) s = existsb p s.
Proof.
  apply eq_true_iff_eq. unfold Regex.search. rewrite matches_Lang, existsb_exists.
  split.
  - intros H. inversion H as [| |? ? s1 s23 _ H23| | | |]; subst.
    inversion H23 as [| |? ? s2 s3 H2 _| | | |]; subst.
    inversion H2; subst. exists c. split; [|done].
    apply in_or_app. right. by left.
  - intros (c & Hin & Hc). apply in_split in Hin as (s1 & s2 & ->).
    constructor; [apply Lang_star_any|].
    change (c :: s2) with ([c] ++ s2). constructor; [by constructor | apply Lang_star_any].
Qed.

Lemma hasChinese_Exists (text : jstring) :
  hasChinese text = true <-> Exists (fun c => isCJK c = true) text.
Proof.
  unfold hasChinese. rewrite search_class, existsb_exists, Exists_exists.
  reflexivity.
Qed.

Lemma numOr_nonzero (n : option Q) (d : Q) :
  JsNum.isZero d = false -> JsNum.isZero (numOr n d) = false.
Proof.
  intros Hd. unfold numOr. destruct n as [q|]; [|done].
  by destruct (JsNum.isZero q) eqn:E.
Qed.

Lemma numOr_some_nonzero (q d : Q) : JsNum.isZero q = false -> numOr (Some q) d = q.
Proof. intros H. unfold numOr. by rewrite H. Qed.

Lemma strOr_truthy (s : option jstring) (d : jstring) :
  truthy (VStr d) = true -> truthy (VStr (strOr s d)) = true.
Proof. intros Hd. unfold strOr. by destruct s as [[|c r]|]. Qed.

Lemma round_spec (q : Q) :
  JsNum.round (JsNum.fmul q (JsNum.literal (12 # 10)))
  = Qfloor (JsNum.binary64 (q * JsNum.binary64 (12 # 10)) + (1 # 2)).
Proof. reflexivity. Qed.

Lemma isZero_inject (z : Z) : JsNum.isZero (inject_Z z) = (z =? 0)%Z.
Proof. reflexivity. Qed.

(** Unfolds a constructor down to its two identifier draws. *)
Ltac draw_ids :=
  unfold createText, createRectangle, createBackgroundRect, createStyle, createLayerBase,
    Gen.bind, Gen.ret;
  repeat match goal with
         | |- context [generateUUID ?r ?n] =>
             let id := fresh "id" in
             let m := fresh "n" in
             destruct (generateUUID r n) as [id m]
         end.

(** C6, as the code has it. [createLayerBase] has no failing path: for every
    class tag, frame and options it returns a layer that carries the tag, a
    fresh identifier in the canonical layout, the four frame numbers exactly
    as given, negative or not, and the defaulted base fields (visible,
    unlocked, no rotation, resizing constraint 63, empty export options).
    The identifier is fresh in that it is the one [generateUUID] assembles
    from the next 31 values of the random source, which the call consumes:
    the layers of two calls carry the same identifier exactly when their
    31 draws give the same hexadecimal digits. *)
Theorem C6_createLayerBase_total (random : nat -> Q) (classType : jstring)
    (frame : Frame.t) (options : value) (n : nat) :
  (forall k, (0 <= random k)%Q /\ (random k < 1)%Q) ->
  let layer := fst (createLayerBase random classType frame options n) in
  get (u "_class") layer = VStr classType
  /\ (exists id, get (u "do_objectID") layer = VStr id /\ canonicalLayout id)
  /\ getPath [u "frame"; u "x"] layer = VNum (Frame.x frame)
  /\ getPath [u "frame"; u "y"] layer = VNum (Frame.y frame)
  /\ getPath [u "frame"; u "width"] layer = VNum (Frame.width frame)
  /\ getPath [u "frame"; u "height"] layer = VNum (Frame.height frame)
  /\ get (u "isVisible") layer = VBool true
  /\ get (u "isLocked") layer = VBool false
  /\ get (u "rotation") layer = int 0
  /\ get (u "resizingConstraint") layer = int 63
  /\ getPath [u "exportOptions"; u "exportFormats"] layer = VArr []
  /\ get (u "do_objectID") layer = VStr (fst (generateUUID random n))
  /\ snd (createLayerBase random classType frame options n) = (31 + n)%nat
  /\ (forall (random' : nat -> Q) (classType' : jstring) (frame' : Frame.t)
             (options' : value) (m : nat),
        (forall k, (0 <= random' k)%Q /\ (random' k < 1)%Q) ->
        get (u "do_objectID") (fst (createLayerBase random' classType' frame' options' m))
        = get (u "do_objectID") layer
        <-> forall k, (k < 31)%nat ->
              drawnDigit k (random' (k + m)) = drawnDigit k (random (k + n))).
Proof.
  intros Hr layer. subst layer.
  pose proof (generateUUID_layout random Hr n) as Hid.
  assert (Hown : forall r c f o k,
            get (u "do_objectID") (fst (createLayerBase r c f o k))
            = VStr (fst (generateUUID r k))).
  { intros r c f o k. unfold createLayerBase, Gen.bind, Gen.ret.
    destruct (generateUUID r k) as [id k']. reflexivity. }
  assert (Hdraws : snd (createLayerBase random classType frame options n) = (31 + n)%nat).
  { rewrite <- (generateUUID_draws random n). unfold createLayerBase, Gen.bind, Gen.ret.
    destruct (generateUUID random n) as [id k']. reflexivity. }
  assert (Hfresh : forall random' classType' frame' options' m,
            (forall k, (0 <= random' k)%Q /\ (random' k < 1)%Q) ->
            get (u "do_objectID") (fst (createLayerBase random' classType' frame' options' m))
            = get (u "do_objectID") (fst (createLayerBase random classType frame options n))
            <-> forall k, (k < 31)%nat ->
                  drawnDigit k (random' (k + m)) = drawnDigit k (random (k + n))).
  { intros random' classType' frame' options' m Hr'. rewrite !Hown.
    rewrite <- (generateUUID_fresh random random' n m Hr Hr').
    generalize (fst (generateUUID random' m)) (fst (generateUUID random n)).
    intros a b. split; [intros [= E]; exact E | intros E; rewrite E; reflexivity]. }
  repeat match goal with |- _ /\ _ => split end;
    try exact Hdraws; try exact Hfresh; try apply Hown;
    try (unfold createLayerBase, Gen.bind, Gen.ret;
         destruct (generateUUID random n) as [id m]; reflexivity).
  rewrite Hown. eexists. split; [reflexivity | exact Hid].
Qed.

Lemma C6_createLayerBase_total_witness :
  let random := fun _ : nat => 0%Q in
  let layer := fst (createLayerBase random (u "rectangle")
                      (Frame.make 0 0 (-5) (-3)) (obj []) 0) in
  getPath [u "frame"; u "width"] layer = VNum (-5)
  /\ getPath [u "frame"; u "height"] layer = VNum (-3)
  /\ get (u "isVisible") layer = VBool true
  /\ get (u "do_objectID") layer = str "00000000-0000-4000-8000-000000000000"
  /\ snd (createLayerBase random (u "rectangle") (Frame.make 0 0 (-5) (-3)) (obj []) 0)
     = 31%nat.
Proof.
  intros random layer.
  assert (Hr : forall k, (0 <= random k)%Q /\ (random k < 1)%Q) by (intros k; split; done).
  pose proof (C6_createLayerBase_total random (u "rectangle")
                (Frame.make 0 0 (-5) (-3)) (obj []) 0 Hr) as H.
  destruct H as (_ & _ & _ & _ & Hw & Hh & Hv & _ & _ & _ & _ & Hid & Hn & _).
  split; [exact Hw | split; [exact Hh | split; [exact Hv | split; [|exact Hn]]]].
  transitivity (VStr (fst (generateUUID random 0))); [exact Hid | vm_compute; reflexivity].
Defined.

(** C6, as stated, fails: a frame of width -5 and height -3 is not rejected.
    The call returns a layer and raises no [InvalidGeometry]. *)
Lemma C6_negative_frame_accepted :
  let call := GenE.liftG (createLayerBase (fun _ => 0%Q) (u "rectangle")
                            (Frame.make 0 0 (-5) (-3)) (obj [])) in
  ~ failsWith "InvalidGeometry" (fst (call 0%nat))
  /\ exists layer, fst (call 0%nat) = Return layer
                   /\ getPath [u "frame"; u "width"] layer = VNum (-5)
                   /\ getPath [u "frame"; u "height"] layer = VNum (-3).
Proof.
  intros call. split.
  - intros (e & He & _). vm_compute in He. discriminate.
  - eexists. split; [vm_compute; reflexivity|]. split; vm_compute; reflexivity.
Qed.

(** C8. The rectangle [createRectangle] returns has exactly four points and
    every one of them carries the configured corner radius, the style's
    [cornerRadius] or 0 when it is absent, which is also the rectangle's
    [fixedRadius]. *)
Theorem C8_createRectangle_points (random : nat -> Q) (frame : Frame.t)
    (style : StyleOptions.t) (name : jstring) (n : nat) :
  let layer := fst (createRectangle random frame style name n) in
  let radius := orElse (StyleOptions.cornerRadius style) (int 0) in
  exists points,
    get (u "points") layer = VArr points
    /\ length points = 4%nat
    /\ Forall (fun point => get (u "cornerRadius") point = radius) points
    /\ get (u "fixedRadius") layer = radius.
Proof.
  intros layer radius. subst layer radius. draw_ids.
  match goal with
  | |- context [set (u "style") ?sty _] => generalize sty; intros st
  end.
  eexists. split; [reflexivity|].
  split; [reflexivity|]. split; [|reflexivity].
  repeat constructor.
Qed.

Lemma hasOwn_assign_other (k k' : jstring) (v : value) (ps : list (jstring * value)) :
  k <> k' -> hasOwn k' (VObj (assign k v ps)) = hasOwn k' (VObj ps).
Proof. intros H. simpl. by rewrite lookup_assign_other. Qed.

Lemma numTruthy_spec (n : option Q) :
  numTruthy n = true <-> exists q, n = Some q /\ ~ (q == 0)%Q.
Proof.
  unfold numTruthy, JsNum.isZero. split.
  - destruct n as [q|]; [|done]. intros H. exists q. split; [done|].
    unfold Qeq. simpl. destruct (Z.eqb_spec (Qnum q) 0); [done | lia].
  - intros (q & -> & Hq). unfold Qeq in Hq. simpl in Hq.
    destruct (Z.eqb_spec (Qnum q) 0); [lia | done].
Qed.

(** The text-style block is there exactly when the guard holds. *)
Lemma createStyle_textStyle (random : nat -> Q) (options : StyleOptions.t) (n : nat) :
  let style := fst (createStyle random options n) in
  hasOwn (u "textStyle") style = wantsTextStyle options
  /\ (wantsTextStyle options = true -> get (u "textStyle") style = textStyleOf options).
Proof.
  intros style. subst style. draw_ids.
  destruct (StyleOptions.fills options) as [[|c cs]|];
    destruct (truthy (StyleOptions.borderColor options));
    destruct (StyleOptions.shadow options);
    destruct (wantsTextStyle options);
    (split; [reflexivity | intros; try discriminate; reflexivity]).
Qed.

(** C9, as the code has it. The style [createStyle] returns has a
    [textStyle] block if and only if the options carry a truthy
    [fontFamily], a non-zero [displayFontSize] or a truthy [color]; the
    [alignment], [verticalAlignment] and [fontSize] options alone do not
    bring it in. *)
Theorem C9_createStyle_textStyle_iff (random : nat -> Q) (options : StyleOptions.t)
    (n : nat) :
  hasOwn (u "textStyle") (fst (createStyle random options n)) = true
  <-> (truthy (StyleOptions.fontFamily options) = true
       \/ (exists q, StyleOptions.displayFontSize options = Some q /\ ~ (q == 0)%Q)
       \/ truthy (StyleOptions.color options) = true).
Proof.
  destruct (createStyle_textStyle random options n) as [-> _].
  unfold wantsTextStyle. rewrite !orb_true_iff, numTruthy_spec. tauto.
Qed.

(** C9, as stated, fails: an alignment, or a font size, supplied alone
    leaves the style without a [textStyle] block. *)
Lemma C9_alignment_alone_no_textStyle :
  let random := fun _ : nat => 0%Q in
  let onlyAlignment :=
    StyleOptions.make VUndef VUndef None VUndef VUndef VUndef None
                      VUndef None None (int 2) VUndef VUndef in
  let onlyFontSize :=
    StyleOptions.make VUndef VUndef None VUndef VUndef VUndef None
                      VUndef None (Some 14%Q) VUndef VUndef VUndef in
  hasOwn (u "textStyle") (fst (createStyle random onlyAlignment 0)) = false
  /\ hasOwn (u "textStyle") (fst (createStyle random onlyFontSize 0)) = false.
Proof. split; vm_compute; reflexivity. Qed.

Lemma lookup_fontMap (family : jstring) :
  lookup family [(u "Roboto-Bold", str "PingFangSC-Regular");
                 (u "Roboto-Regular", str "PingFangSC-Regular");
                 (u "Roboto-Medium", str "PingFangSC-Regular");
                 (u "Roboto-Light", str "PingFangSC-Regular")]
  = if memb family fontMapKeys then Some (str "PingFangSC-Regular") else None.
Proof.
  unfold memb, fontMapKeys. simpl.
  repeat match goal with
         | |- context [JsString.eqb family ?k] => destruct (JsString.eqb family k)
         end; reflexivity.
Qed.

Lemma memb_In (k : jstring) (l : list jstring) : memb k l = true <-> In k l.
Proof.
  unfold memb. rewrite existsb_exists. split.
  - intros (x & Hx & E). apply jstring_eqb_eq in E. by subst.
  - intros H. exists k. split; [done | apply jstring_eqb_refl].
Qed.

(** The family the style-level descriptor of a text with ideographs gets. *)
Lemma substitute_family (family : jstring) :
  orElse (get family CHINESE_FONT_MAP) (str "PingFangSC-Regular")
  = if memb family fontMapKeys then str "PingFangSC-Regular"
    else if memb family objectPrototype then VInherited family
    else str "PingFangSC-Regular".
Proof.
  unfold CHINESE_FONT_MAP, obj, get. simpl map.
  rewrite lookup_fontMap. unfold inherited.
  destruct (memb family fontMapKeys); [reflexivity|].
  destruct (memb family objectPrototype); reflexivity.
Qed.

(** The two font descriptors of the layer [createText] returns. *)
Lemma createText_fonts (random : nat -> Q) (text : jstring) (frame : Frame.t)
    (style : TextSpec.t) (n : nat) :
  let family := strOr (TextSpec.fontFamily style) (u "Roboto-Regular") in
  let size := numOr (TextSpec.fontSize style) 16 in
  let layer := fst (createText random text frame style n) in
  attributeFont layer = obj [("name", VStr family); ("size", VNum size)]
  /\ styleFont layer
     = obj [("name",
               orElse (if hasChinese text
                       then orElse (get family CHINESE_FONT_MAP) (str "PingFangSC-Regular")
                       else VStr family) (str "Roboto-Regular"));
            ("size",
               VNum (numOr (Some (if hasChinese text
                                  then JsNum.ofZ (JsNum.round
                                                    (JsNum.fmul size (JsNum.literal (12 # 10))))
                                  else size))
                           (numOr (Some size) 16)))].
Proof.
  intros family size layer. subst layer.
  unfold createText, createLayerBase, Gen.bind, Gen.ret.
  destruct (generateUUID random n) as [id1 n1].
  fold family size.
  match goal with
  | |- context [createStyle random ?o n1] =>
      destruct (createStyle_textStyle random o n1) as [Hown Hget];
      destruct (createStyle random o n1) as [st n2] eqn:Est
  end.
  simpl fst in *.
  assert (Hwant : forall o c, StyleOptions.color o = c -> truthy c = true ->
                    wantsTextStyle o = true).
  { intros o c <- Hc. unfold wantsTextStyle. rewrite Hc. apply orb_true_r. }
  split; [reflexivity|].
  unfold styleFont, getPath. simpl fold_left.
  rewrite Hget.
  - reflexivity.
  - eapply Hwant; [reflexivity|].
    destruct (truthy (TextSpec.color style)); [|reflexivity].
    unfold parseColor. destruct (TextSpec.color style) as [| | | |[|c r]| | |]; try reflexivity.
    destruct (JsString.startsWith (u "#") (c :: r)); reflexivity.
Qed.

Lemma prototype_not_mapped (family : jstring) :
  In family objectPrototype -> memb family fontMapKeys = false.
Proof.
  intros H. unfold objectPrototype in H. simpl in H.
  repeat (destruct H as [<- | H]; [vm_compute; reflexivity|]). destruct H.
Qed.

(** C1, as the code has it. The attribute-level descriptor of a text layer
    always carries the requested family and size (a missing or empty family
    reads Roboto-Regular, a missing or zero size reads 16). When the content
    holds an ideograph of U+4E00..U+9FA5 and the requested family is an
    ordinary font name, not the name of a member every object inherits, the
    style-level family is PingFangSC-Regular: the image of the four families
    of the substitution map and the fallback for every other family. It
    differs from the attribute-level family whenever the requested family
    is not PingFangSC-Regular itself. The style-level size is
    [Math.round(size * 1.2)], the product being the binary64 one, unless
    that is zero; then it is the requested size. For a whole-number size
    up to [2 ^ 40] the binary64 product rounds as the exact one, so the
    style-level size is round(size x 1.2) in exact arithmetic as well.
    When the content holds no such ideograph both levels carry the
    requested family and size. *)
Theorem C1_createText_dual_font (random : nat -> Q) (text : jstring) (frame : Frame.t)
    (style : TextSpec.t) (n : nat) :
  let family := strOr (TextSpec.fontFamily style) (u "Roboto-Regular") in
  let size := numOr (TextSpec.fontSize style) 16 in
  let scaled := Qfloor (JsNum.binary64 (size * JsNum.binary64 (12 # 10)) + (1 # 2)) in
  let layer := fst (createText random text frame style n) in
  get (u "name") (attributeFont layer) = VStr family
  /\ get (u "size") (attributeFont layer) = VNum size
  /\ (Exists (fun c => isCJK c = true) text ->
        (In family fontMapKeys ->
           get family CHINESE_FONT_MAP = str "PingFangSC-Regular"
           /\ get (u "name") (styleFont layer) = str "PingFangSC-Regular")
        /\ (~ In family objectPrototype ->
              get (u "name") (styleFont layer) = str "PingFangSC-Regular")
        /\ (family <> u "PingFangSC-Regular" ->
              get (u "name") (styleFont layer) <> get (u "name") (attributeFont layer))
        /\ (JsNum.finite size -> scaled <> 0%Z ->
              get (u "size") (styleFont layer) = VNum (inject_Z scaled))
        /\ (scaled = 0%Z -> get (u "size") (styleFont layer) = VNum size)
        /\ (forall k : Z, (0 < k <= 2 ^ 40)%Z -> size = inject_Z k ->
              get (u "size") (styleFont layer)
              = VNum (inject_Z (Qfloor (size * (12 # 10) + (1 # 2))))))
  /\ (~ Exists (fun c => isCJK c = true) text ->
        get (u "name") (styleFont layer) = VStr family
        /\ get (u "size") (styleFont layer) = VNum size).
Proof.
  intros family size scaled layer.
  destruct (createText_fonts random text frame style n) as [Hattr Hstyle].
  fold family size layer in Hattr, Hstyle.
  rewrite Hattr, Hstyle. clear Hattr Hstyle.
  assert (Hfam : truthy (VStr family) = true) by (by apply strOr_truthy).
  assert (Hsize : JsNum.isZero size = false) by (by apply numOr_nonzero).
  split; [reflexivity|]. split; [reflexivity|].
  change (get (u "name") (obj [("name", ?a); ("size", ?b)])) with a.
  change (get (u "size") (obj [("name", ?a); ("size", ?b)])) with b.
  split.
  - intros Hcjk. apply hasChinese_Exists in Hcjk. rewrite Hcjk.
    rewrite substitute_family.
    assert (Hname : forall P : value -> Prop,
              (memb family fontMapKeys = true -> P (str "PingFangSC-Regular")) ->
              (memb family fontMapKeys = false -> memb family objectPrototype = true ->
               P (VInherited family)) ->
              (memb family fontMapKeys = false -> memb family objectPrototype = false ->
               P (str "PingFangSC-Regular")) ->
              P (orElse (if memb family fontMapKeys then str "PingFangSC-Regular"
                         else if memb family objectPrototype then VInherited family
                              else str "PingFangSC-Regular") (str "Roboto-Regular"))).
    { intros P H1 H2 H3.
      destruct (memb family fontMapKeys) eqn:E1; [by apply H1|].
      destruct (memb family objectPrototype) eqn:E2; [by apply H2 | by apply H3]. }
    rewrite round_spec. fold scaled.
    split; [|split; [|split; [|split; [|split]]]].
    + intros Hin. apply memb_In in Hin. split.
      * unfold CHINESE_FONT_MAP, obj, get. simpl map. rewrite lookup_fontMap.
        by rewrite Hin.
      * apply Hname; intros; congruence.
    + intros Hnp. apply Hname; intros; try reflexivity.
      exfalso. apply Hnp. by apply memb_In.
    + intros Hne. apply Hname; intros; try discriminate.
      all: intros [= E]; apply Hne; symmetry; exact E.
    + intros _ Hs.
      rewrite numOr_some_nonzero; [reflexivity|].
      rewrite isZero_inject. by apply Z.eqb_neq.
    + intros Hs. rewrite Hs. unfold numOr at 1.
      change (JsNum.isZero (JsNum.ofZ 0)) with true. cbv iota.
      by rewrite numOr_some_nonzero.
    + intros k Hk Hsz.
      assert (Hsc : scaled = Qfloor (size * (12 # 10) + (1 # 2))).
      { unfold scaled. rewrite Hsz. by apply scaled_whole. }
      assert (Hpos : (1 <= scaled)%Z).
      { rewrite Hsc, Hsz. apply scaled_whole_positive. lia. }
      rewrite <- Hsc. rewrite numOr_some_nonzero; [reflexivity|].
      rewrite isZero_inject. apply Z.eqb_neq. lia.
  - intros Hcjk.
    assert (hasChinese text = false) as ->.
    { destruct (hasChinese text) eqn:E; [|done].
      apply hasChinese_Exists in E. contradiction. }
    split.
    + unfold orElse. by rewrite Hfam.
    + by rewrite !numOr_some_nonzero.
Qed.

(** The scenario of the header title: four ideographs requested in
    Roboto-Bold at 18 are styled in PingFangSC-Regular at 22 while the
    attribute level keeps Roboto-Bold at 18. And a size whose product
    binary64 rounds up to a tie: 15.416666666666666 times 1.2 is 18.5 in
    binary64 and a little less in exact arithmetic, and the style-level
    size is 19. *)
Lemma C1_createText_dual_font_witness :
  let title := [25105; 30340; 35746; 21333]%N in
  let layer :=
    fst (createText (fun _ => 0%Q) title (Frame.make 16 16 361 24)
           (TextSpec.make (str "#1C1C1E") (Some 18%Q) (Some (u "Roboto-Bold")) (str "center"))
           0) in
  let size := (8678811781911893 # 562949953421312)%Q in
  let tie :=
    fst (createText (fun _ => 0%Q) title (Frame.make 16 16 361 24)
           (TextSpec.make (str "#1C1C1E") (Some size) (Some (u "Roboto-Bold")) (str "center"))
           0) in
  (get (u "name") (attributeFont layer) = str "Roboto-Bold"
   /\ get (u "size") (attributeFont layer) = VNum 18
   /\ get (u "name") (styleFont layer) = str "PingFangSC-Regular"
   /\ get (u "size") (styleFont layer) = VNum 22
   /\ get (u "name") (styleFont layer) <> get (u "name") (attributeFont layer))
  /\ (JsNum.binary64 (15416666666666666 # 1000000000000000) = size
      /\ Qfloor (size * (12 # 10) + (1 # 2)) = 18%Z
      /\ get (u "size") (attributeFont tie) = VNum size
      /\ get (u "size") (styleFont tie) = VNum 19).
Proof.
  intros title layer size tie. split.
  - pose proof (C1_createText_dual_font (fun _ => 0%Q) title (Frame.make 16 16 361 24)
                  (TextSpec.make (str "#1C1C1E") (Some 18%Q) (Some (u "Roboto-Bold"))
                                 (str "center")) 0) as H.
    cbv zeta in H. fold layer in H.
    destruct H as (Hn & Hs & Hcjk & _).
    destruct Hcjk as (Hmap & _ & Hdiff & Hsize & _).
    { apply Exists_cons_hd. reflexivity. }
    split; [exact Hn|]. split; [exact Hs|].
    split; [apply Hmap; vm_compute; tauto|].
    split.
    + refine (eq_trans (Hsize _ _) _);
        [vm_compute; reflexivity | vm_compute; discriminate | vm_compute; reflexivity].
    + apply Hdiff. vm_compute. discriminate.
  - pose proof (C1_createText_dual_font (fun _ => 0%Q) title (Frame.make 16 16 361 24)
                  (TextSpec.make (str "#1C1C1E") (Some size) (Some (u "Roboto-Bold"))
                                 (str "center")) 0) as H.
    cbv zeta in H. fold tie in H.
    destruct H as (_ & Hs & Hcjk & _).
    destruct Hcjk as (_ & _ & _ & Hsize & _).
    { apply Exists_cons_hd. reflexivity. }
    split; [vm_compute; reflexivity|]. split; [vm_compute; reflexivity|].
    split; [exact Hs|].
    refine (eq_trans (Hsize _ _) _);
      [vm_compute; reflexivity | vm_compute; discriminate | vm_compute; reflexivity].
Defined.

(** C1, as stated, fails. An ideograph requested in PingFangSC-Regular is
    styled in the family it was requested in, so the two levels agree; and
    an ideograph requested at size 0.25 is styled at 0.25, where
    [Math.round(0.25 * 1.2)] is 0. *)
Lemma C1_same_family_at_both_levels :
  let layer :=
    fst (createText (fun _ => 0%Q) [25105%N] (Frame.make 0 0 100 20)
           (TextSpec.make VUndef (Some 18%Q) (Some (u "PingFangSC-Regular")) VUndef) 0) in
  let small :=
    fst (createText (fun _ => 0%Q) [25105%N] (Frame.make 0 0 100 20)
           (TextSpec.make VUndef (Some (1 # 4)%Q) (Some (u "Roboto-Bold")) VUndef) 0) in
  hasChinese [25105%N] = true
  /\ get (u "name") (styleFont layer) = get (u "name") (attributeFont layer)
  /\ get (u "size") (styleFont small) = VNum (1 # 4)
  /\ JsNum.round (JsNum.fmul (1 # 4) (JsNum.literal (12 # 10))) = 0%Z.
Proof. repeat split; vm_compute; reflexivity. Qed.

(* ================================================================== *)
(** ** The structural validator *)
(* ================================================================== *)

Section ValidatorFacts.

Variable numberToString : Q -> jstring.

Lemma bind_Return {A B} (a : A) (k : A -> outcome B) : JsError.bind (Return a) k = k a.
Proof. reflexivity. Qed.

Lemma bind_Throw {A B} (e : jsError) (k : A -> outcome B) :
  JsError.bind (Throw e) k = Throw e.
Proof. reflexivity. Qed.

Lemma getE_readable (k : jstring) (v : value) :
  match v with VUndef | VNull => False | _ => True end -> getE k v = Return (get k v).
Proof. by destruct v. Qed.

Lemma tagOutside_readable (tags : list string) (layer : value) :
  tagOutside tags layer ->
  getE (u "_class") layer = Return (get (u "_class") layer)
  /\ Forall (fun t => isStr t (get (u "_class") layer) = false) tags.
Proof.
  intros H. split.
  - apply getE_readable. by destruct layer.
  - assert (Hb : forallb (fun t => negb (isStr t (get (u "_class") layer))) tags = true)
      by (by destruct layer).
    apply Forall_forall. intros t Ht.
    rewrite forallb_forall in Hb. specialize (Hb t Ht).
    by apply negb_true_iff in Hb.
Qed.

(** Layers of an artboard that are neither rectangles nor texts are passed
    over. *)
Lemma artboard_layers_skipped (path : jstring) (layers : list value) (i : nat)
    (errors : list jstring) :
  Forall (tagOutside ["rectangle"; "text"]) layers ->
  forEachE (validateArtboardLayer numberToString path) i layers errors = Return errors.
Proof.
  intros H. revert i. induction H as [|layer layers Hl _ IH]; intros i; [done|].
  simpl. unfold validateArtboardLayer at 1.
  destruct (tagOutside_readable _ _ Hl) as [-> Htags].
  inversion Htags as [|? ? Hr Htags']; subst. inversion Htags' as [|? ? Ht _]; subst.
  simpl. rewrite Hr, Ht. simpl. apply IH.
Qed.

(** Layers of a page that are not artboards are passed over. *)
Lemma page_layers_skipped (path : jstring) (layers : list value) (i : nat)
    (errors : list jstring) :
  Forall (tagOutside ["artboard"]) layers ->
  forEachE (validatePageLayer numberToString path) i layers errors = Return errors.
Proof.
  intros H. revert i. induction H as [|layer layers Hl _ IH]; intros i; [done|].
  simpl. unfold validatePageLayer at 1.
  destruct (tagOutside_readable _ _ Hl) as [-> Htags].
  inversion Htags as [|? ? Ha _]; subst.
  simpl. rewrite Ha. simpl. apply IH.
Qed.

Lemma neq_layers (k : string) : u k <> u "layers" -> u "layers" <> u k.
Proof. congruence. Qed.

Lemma notObject_set (k : jstring) (v : value) (ps : list (jstring * value)) :
  notObject (set k v (VObj ps)) = false.
Proof. reflexivity. Qed.

(** Rewrites the reads of an object whose [layers] were replaced. *)
Ltac other_fields :=
  repeat match goal with
         | |- context [get (u ?k) (set (u "layers") ?v (VObj ?ps))] =>
             lazymatch k with
             | "layers" => fail
             | _ =>
                 rewrite (get_set_other (u "layers") (u k) v ps)
                   by (vm_compute; discriminate)
             end
         end.

Lemma validateArtboard_layers (ps : list (jstring * value)) (ls : list value)
    (path : jstring) :
  Forall (tagOutside ["rectangle"; "text"]) ls ->
  validateArtboard numberToString (withLayers ls (VObj ps)) path
  = validateArtboard numberToString (withLayers [] (VObj ps)) path.
Proof.
  intros H. unfold withLayers, validateArtboard, checkGroupLayout.
  rewrite !notObject_set. other_fields. rewrite !get_set_same.
  destruct (isValidUUID numberToString (get (u "do_objectID") (VObj ps))); [|done].
  unfold JsError.bind. by rewrite artboard_layers_skipped.
Qed.

Lemma validatePage_layers (ps : list (jstring * value)) (ls : list value)
    (path : jstring) :
  Forall (tagOutside ["artboard"]) ls ->
  validatePage numberToString (withLayers ls (VObj ps)) path
  = validatePage numberToString (withLayers [] (VObj ps)) path.
Proof.
  intros H. unfold withLayers, validatePage, checkGroupLayout.
  rewrite !notObject_set. other_fields. rewrite !get_set_same.
  destruct (isValidUUID numberToString (get (u "do_objectID") (VObj ps))); [|done].
  unfold JsError.bind. by rewrite page_layers_skipped.
Qed.

(** The page loop takes the references one after the other and stops at
    the first exception. *)
Lemma validatePageFiles_app (files : gmap (list (list N)) FS.node) (pagesDir : list (list N))
    (before rest : list value) (errors : list jstring) :
  validatePageFiles numberToString files pagesDir (before ++ rest) errors
  = match validatePageFiles numberToString files pagesDir before errors with
    | (errors', None) => validatePageFiles numberToString files pagesDir rest errors'
    | stopped => stopped
    end.
Proof.
  revert errors; induction before as [|ref before IH]; intros errors; simpl; [done|].
  destruct (refPageId "pageRef" ref) as [[[|c r]|]|e]; try done; try apply IH.
  destruct (negb (FS.existsSync files _)); [apply IH|].
  destruct (JsError.bind _ _); [apply IH | done].
Qed.

End ValidatorFacts.

(** The verdict of the directory validator is the emptiness of its list. *)
Lemma verdict_of_errors (numberToString : Q -> jstring)
    (files : gmap (list (list N)) FS.node) (sketchDir : list (list N)) :
  valid (validateSketchDirectory numberToString files sketchDir) = true
  <-> errors (validateSketchDirectory numberToString files sketchDir) = [].
Proof.
  unfold validateSketchDirectory.
  destruct (missingEntries files sketchDir) as [|m ms] eqn:Em; simpl.
  - destruct (tryBlock numberToString files sketchDir []) as [es [e|]]; simpl.
    + rewrite length_app. simpl. split; [intros H; apply Nat.eqb_eq in H; lia|].
      intros H. by destruct es.
    + destruct es; simpl; split; done.
  - split; done.
Qed.

(** [forEachE] over a concatenation. *)
Lemma forEachE_app {A B} (f : nat -> A -> B -> outcome B) (i : nat) (a b : list A) (acc : B) :
  forEachE f i (a ++ b) acc
  = JsError.bind (forEachE f i a acc) (forEachE f (i + length a) b).
Proof.
  revert i acc; induction a as [|x a IH]; intros i acc; simpl.
  - by rewrite Nat.add_0_r.
  - destruct (f i x acc) as [acc'|e]; simpl; [|done].
    rewrite IH. by replace (S i + length a)%nat with (i + S (length a))%nat by lia.
Qed.

(** The validators dispatch on the tag and pass over what they have no rule
    for: an artboard whose layers are all tagged with something other than
    [rectangle] and [text], and a page whose layers are all tagged with
    something other than [artboard], are reported exactly as if their layer
    lists were empty. *)
Theorem validators_pass_over_other_layers (numberToString : Q -> jstring)
    (o : value) (layers : list value) (path : jstring) :
  (Forall (tagOutside ["rectangle"; "text"]) layers ->
   validateArtboard numberToString (withLayers layers o) path
   = validateArtboard numberToString (withLayers [] o) path)
  /\ (Forall (tagOutside ["artboard"]) layers ->
      validatePage numberToString (withLayers layers o) path
      = validatePage numberToString (withLayers [] o) path).
Proof.
  destruct o; try (split; reflexivity).
  split; intros H; [by apply validateArtboard_layers | by apply validatePage_layers].
Qed.

Lemma validators_pass_over_other_layers_witness :
  let random := fun k : nat => (Z.of_nat (k mod 16) # 16)%Q in
  let artboard := fst (createArtboard random (u "Design") 393 852 (str "#F2F2F7") 0) in
  let group := obj [("_class", str "group"); ("layers", VArr [VNull])] in
  let bogus := obj [("_class", str "bogus")] in
  validateArtboard (fun _ => u "0") (withLayers [group; bogus; VNum 7] artboard) (u "artboard")
  = validateArtboard (fun _ => u "0") (withLayers [] artboard) (u "artboard")
  /\ validateArtboard (fun _ => u "0") (withLayers [] artboard) (u "artboard") = Return [].
Proof.
  intros random artboard group bogus. split; [|vm_compute; reflexivity].
  apply (validators_pass_over_other_layers (fun _ => u "0") artboard
           [group; bogus; VNum 7] (u "artboard")).
  repeat constructor.
Defined.

(** C5, as the code has it. The layer loops dispatch on the tag and have no
    branch for the rest. A layer of an artboard whose [_class] is neither
    [rectangle] nor [text], and a layer of a page whose [_class] is not
    [artboard], adds no message wherever it stands: the loop hands on the
    messages collected so far and goes on with the layers after it. *)
Theorem C5_unrecognized_layer_passed_over (numberToString : Q -> jstring)
    (layer : value) (path : jstring) (i : nat) (before after : list value)
    (errors : list jstring) :
  (tagOutside ["rectangle"; "text"] layer ->
   (forall j acc, validateArtboardLayer numberToString path j layer acc = Return acc)
   /\ forEachE (validateArtboardLayer numberToString path) i (before ++ layer :: after) errors
      = JsError.bind (forEachE (validateArtboardLayer numberToString path) i before errors)
          (forEachE (validateArtboardLayer numberToString path)
                    (S (i + length before)) after))
  /\ (tagOutside ["artboard"] layer ->
      (forall j acc, validatePageLayer numberToString path j layer acc = Return acc)
      /\ forEachE (validatePageLayer numberToString path) i (before ++ layer :: after) errors
         = JsError.bind (forEachE (validatePageLayer numberToString path) i before errors)
             (forEachE (validatePageLayer numberToString path)
                       (S (i + length before)) after)).
Proof.
  split; intros H.
  - assert (Hone : forall j acc,
              validateArtboardLayer numberToString path j layer acc = Return acc).
    { intros j acc.
      pose proof (artboard_layers_skipped numberToString path [layer] j acc
                    (Forall_cons _ _ _ H (Forall_nil _))) as E.
      simpl in E. by destruct (validateArtboardLayer numberToString path j layer acc). }
    split; [exact Hone|].
    rewrite forEachE_app.
    destruct (forEachE _ i before errors) as [es|e]; [|done].
    simpl. rewrite Hone. reflexivity.
  - assert (Hone : forall j acc,
              validatePageLayer numberToString path j layer acc = Return acc).
    { intros j acc.
      pose proof (page_layers_skipped numberToString path [layer] j acc
                    (Forall_cons _ _ _ H (Forall_nil _))) as E.
      simpl in E. by destruct (validatePageLayer numberToString path j layer acc). }
    split; [exact Hone|].
    rewrite forEachE_app.
    destruct (forEachE _ i before errors) as [es|e]; [|done].
    simpl. rewrite Hone. reflexivity.
Qed.

(** A group between two rectangles of an artboard: the messages are those
    of the rectangles, at the indices 0 and 2. *)
Lemma C5_unrecognized_layer_passed_over_witness :
  let group := obj [("_class", str "group"); ("layers", VArr [VNull])] in
  let rect := obj [("_class", str "rectangle")] in
  validateArtboardLayer digitString (u "artboard") 1 group [] = Return []
  /\ forEachE (validateArtboardLayer digitString (u "artboard")) 0 [rect; group; rect] []
     = JsError.bind (forEachE (validateArtboardLayer digitString (u "artboard")) 0 [rect] [])
         (forEachE (validateArtboardLayer digitString (u "artboard")) 2 [rect]).
Proof.
  intros group rect.
  destruct (C5_unrecognized_layer_passed_over digitString group (u "artboard") 0
              [rect] [rect] []) as [[H1 H2] _].
  - reflexivity.
  - split; [apply H1 | exact H2].
Defined.

(** C5, as stated, fails: an artboard holding a layer tagged [hologram], a
    number and a group around [null], and a page holding the same, are
    valid: the validators report nothing for them. *)
Lemma C5_unknown_tag_reported_nowhere :
  let artboard := fst (createArtboard cycle16 (u "Design") 393 852 (str "#F2F2F7") 0) in
  let page := fst (createPage cycle16 (u "Design") [] 0) in
  let strays := [obj [("_class", str "hologram")]; VNum 7;
                 obj [("_class", str "group"); ("layers", VArr [VNull])]] in
  validateArtboard digitString (withLayers strays artboard) (u "artboard") = Return []
  /\ validatePage digitString (withLayers strays page) (u "page") = Return [].
Proof. split; vm_compute; reflexivity. Qed.


(** The verdict of the directory validator is the emptiness of its list:
    [valid] holds exactly when no violation is reported. *)
Theorem validateSketchDirectory_verdict (numberToString : Q -> jstring)
    (files : gmap (list (list N)) FS.node) (sketchDir : list (list N)) :
  let v := validateSketchDirectory numberToString files sketchDir in
  valid v = true <-> errors v = [].
Proof. apply verdict_of_errors. Qed.

(** When one of [document.json], [meta.json], [user.json] or the [pages]
    directory is missing, the directory validator answers with one message
    for each missing entry, in that order, and looks at nothing else. *)
Theorem validateSketchDirectory_missing (numberToString : Q -> jstring)
    (files : gmap (list (list N)) FS.node) (sketchDir : list (list N)) :
  let present name := FS.existsSync files (sketchDir ++ [u name]) in
  present "document.json" && present "meta.json" && present "user.json" && present "pages"
  = false ->
  validateSketchDirectory numberToString files sketchDir
  = mkValidation false
      ((if present "document.json" then [] else [u "Missing required file: document.json"])
       ++ (if present "meta.json" then [] else [u "Missing required file: meta.json"])
       ++ (if present "user.json" then [] else [u "Missing required file: user.json"])
       ++ (if present "pages" then [] else [u "Missing pages directory"])).
Proof.
  intros present H. unfold validateSketchDirectory, missingEntries.
  change (FS.join sketchDir (u "pages")) with (sketchDir ++ [u "pages"]).
  simpl forEachI.
  change (FS.join sketchDir (u "document.json")) with (sketchDir ++ [u "document.json"]).
  change (FS.join sketchDir (u "meta.json")) with (sketchDir ++ [u "meta.json"]).
  change (FS.join sketchDir (u "user.json")) with (sketchDir ++ [u "user.json"]).
  fold (present "document.json") (present "meta.json") (present "user.json")
       (present "pages") in *.
  destruct (present "document.json"), (present "meta.json"), (present "user.json"),
    (present "pages"); try discriminate; reflexivity.
Qed.

Lemma validateSketchDirectory_missing_witness :
  let files : gmap (list (list N)) FS.node :=
    list_to_map [([u "out"], FS.Dir); ([u "out"; u "document.json"], FS.JsonFile VNull);
                 ([u "out"; u "pages"], FS.Dir)] in
  validateSketchDirectory (fun _ => u "0") files [u "out"]
  = mkValidation false [u "Missing required file: meta.json";
                        u "Missing required file: user.json"].
Proof.
  intros files.
  pose proof (validateSketchDirectory_missing (fun _ => u "0") files [u "out"]) as H.
  simpl in H. apply H. vm_compute. reflexivity.
Defined.

(** A file that cannot be read as JSON ends the walk: when the page file of
    a reference throws on reading, the validator reports what it has
    collected up to there, followed by the single message
    [Error parsing JSON: ...] with the text of the exception; the page
    files of the later references, [meta.json] and [user.json] are not
    looked at. *)
Theorem validateSketchDirectory_parse_failure (numberToString : Q -> jstring)
    (files : gmap (list (list N)) FS.node) (sketchDir : list (list N))
    (doc : value) (before after : list value) (ref : value) (pageId : jstring)
    (es0 es1 : list jstring) (e : jsError) :
  missingEntries files sketchDir = [] ->
  FS.readJSON files (sketchDir ++ [u "document.json"]) = Return doc ->
  validateDocument numberToString doc (u "document") = Return es0 ->
  getE (u "pages") doc = Return (VArr (before ++ ref :: after)) ->
  validatePageFiles numberToString files (sketchDir ++ [u "pages"]) before es0 = (es1, None) ->
  refPageId "pageRef" ref = Return (Some pageId) -> pageId <> [] ->
  FS.existsSync files (FS.join (sketchDir ++ [u "pages"]) (pageId ++ u ".json")) = true ->
  FS.readJSON files (FS.join (sketchDir ++ [u "pages"]) (pageId ++ u ".json")) = Throw e ->
  validateSketchDirectory numberToString files sketchDir
  = mkValidation false (es1 ++ [u "Error parsing JSON: " ++ message e]).
Proof.
  intros Hm Hdoc Hes0 Hpages Hbefore Href Hne Hex Hread.
  unfold validateSketchDirectory. rewrite Hm.
  change (0 <? length (@nil (list N)))%nat with false. cbv iota.
  unfold tryBlock.
  change (FS.join sketchDir (u "document.json")) with (sketchDir ++ [u "document.json"]).
  change (FS.join sketchDir (u "pages")) with (sketchDir ++ [u "pages"]).
  rewrite Hdoc. unfold JsError.bind at 1. rewrite Hes0. unfold JsError.bind at 1.
  cbv iota beta. rewrite Hpages. cbv iota beta.
  change ([] ++ es0) with es0.
  rewrite validatePageFiles_app, Hbefore.
  destruct pageId as [|c r]; [done|].
  unfold validatePageFiles at 1; fold validatePageFiles.
  rewrite Href, Hex. change (negb true) with false. cbv iota.
  rewrite Hread. unfold JsError.bind at 1. cbv iota beta.
  rewrite length_app, Nat.add_comm. reflexivity.
Qed.

Lemma validateSketchDirectory_parse_failure_witness :
  let ref id := obj [("_class", str "MSJSONFileReference");
                     ("_ref_class", str "MSImmutablePage");
                     ("_ref", VStr (u "pages/" ++ u id))] in
  let files : gmap (list (list N)) FS.node :=
    list_to_map [([u "out"], FS.Dir);
                 ([u "out"; u "document.json"],
                  FS.JsonFile (obj [("pages", VArr [ref "A"; ref "B"; ref "C"])]));
                 ([u "out"; u "meta.json"], FS.JsonFile (VNum 5));
                 ([u "out"; u "user.json"], FS.JsonFile VNull);
                 ([u "out"; u "pages"], FS.Dir);
                 ([u "out"; u "pages"; u "A.json"], FS.JsonFile (VNum 1));
                 ([u "out"; u "pages"; u "B.json"], FS.RawFile (u "Unexpected end of JSON input"));
                 ([u "out"; u "pages"; u "C.json"], FS.JsonFile (VNum 2))] in
  exists es1,
    In (u "page must be an object") es1
    /\ validateSketchDirectory (fun _ => u "0") files [u "out"]
       = mkValidation false (es1 ++ [u "Error parsing JSON: Unexpected end of JSON input"]).
Proof.
  intros ref files. eexists. split; cycle 1.
  - eapply (validateSketchDirectory_parse_failure (fun _ => u "0") files [u "out"]
              _ [ref "A"] [ref "C"] (ref "B") (u "B") _ _
              (syntaxError (u "Unexpected end of JSON input"))).
    + vm_compute. reflexivity.
    + vm_compute. reflexivity.
    + vm_compute. reflexivity.
    + vm_compute. reflexivity.
    + vm_compute. reflexivity.
    + vm_compute. reflexivity.
    + discriminate.
    + vm_compute. reflexivity.
    + vm_compute. reflexivity.
  - vm_compute. repeat (first [left; reflexivity | right]).
Defined.

(** C4, as the code has it. The directory validator reads the files inside
    one [try] block. The first file that cannot be read as JSON ends the
    walk: the result is what was collected up to there followed by the one
    message [Error parsing JSON: ...] with the text of the exception, which
    does not name the file. This holds for [document.json], for the page
    file of a reference, for [meta.json] and for [user.json]; the files
    that come later in the order document, pages, meta, user are not
    looked at. *)
Theorem C4_parse_failure_ends_walk (numberToString : Q -> jstring)
    (files : gmap (list (list N)) FS.node) (sketchDir : list (list N)) (e : jsError) :
  missingEntries files sketchDir = [] ->
  let read name := FS.readJSON files (FS.join sketchDir (u name)) in
  let report es := mkValidation false (es ++ [u "Error parsing JSON: " ++ message e]) in
  let result := validateSketchDirectory numberToString files sketchDir in
  (read "document.json" = Throw e -> result = report [])
  /\ (forall doc es0,
        read "document.json" = Return doc ->
        validateDocument numberToString doc (u "document") = Return es0 ->
        (forall before ref after pageId es1,
           getE (u "pages") doc = Return (VArr (before ++ ref :: after)) ->
           validatePageFiles numberToString files (FS.join sketchDir (u "pages")) before es0
           = (es1, None) ->
           refPageId "pageRef" ref = Return (Some pageId) -> pageId <> [] ->
           FS.existsSync files (FS.join (FS.join sketchDir (u "pages")) (pageId ++ u ".json"))
           = true ->
           FS.readJSON files (FS.join (FS.join sketchDir (u "pages")) (pageId ++ u ".json"))
           = Throw e ->
           result = report es1)
        /\ (forall es1,
              walkPages numberToString files sketchDir doc es0 = (es1, None) ->
              read "meta.json" = Throw e -> result = report es1)
        /\ (forall es1 meta es2,
              walkPages numberToString files sketchDir doc es0 = (es1, None) ->
              read "meta.json" = Return meta ->
              validateMeta numberToString meta (u "meta") = Return es2 ->
              read "user.json" = Throw e -> result = report (es1 ++ es2))).
Proof.
  intros Hm read report result. subst read report result.
  unfold validateSketchDirectory. rewrite Hm.
  change (0 <? length (@nil (list N)))%nat with false. cbv iota.
  assert (Hlen : forall es : list jstring,
            (length (es ++ [u "Error parsing JSON: " ++ message e]) =? 0)%nat = false).
  { intros es. rewrite length_app, Nat.add_comm. reflexivity. }
  split.
  - intros Hdoc. unfold tryBlock. rewrite Hdoc. cbn [JsError.bind]. by rewrite Hlen.
  - intros doc es0 Hdoc Hes0. unfold tryBlock. rewrite Hdoc. cbn [JsError.bind].
    rewrite Hes0. cbn [JsError.bind app].
    split; [|split].
    + intros before ref after pageId es1 Hpages Hbefore Href Hne Hex Hread.
      rewrite Hpages. rewrite validatePageFiles_app, Hbefore.
      destruct pageId as [|c r]; [done|].
      unfold validatePageFiles at 1; fold validatePageFiles.
      rewrite Href, Hex. change (negb true) with false. cbv iota.
      rewrite Hread. cbn [JsError.bind]. by rewrite Hlen.
    + intros es1 Hwalk Hmeta. unfold walkPages in Hwalk. rewrite Hwalk, Hmeta.
      cbn [JsError.bind]. by rewrite Hlen.
    + intros es1 meta es2 Hwalk Hmeta Hes2 Huser. unfold walkPages in Hwalk.
      rewrite Hwalk, Hmeta. cbn [JsError.bind]. rewrite Hes2, Huser.
      cbn [JsError.bind]. by rewrite Hlen.
Qed.

(** A directory whose second page file is cut short: the report holds what
    the first page file gave and the one parse message. The third page
    file and [meta.json], neither of them an object, go unreported. *)
Lemma C4_parse_failure_ends_walk_witness :
  let ref id := obj [("_class", str "MSJSONFileReference");
                     ("_ref_class", str "MSImmutablePage");
                     ("_ref", VStr (u "pages/" ++ u id))] in
  let files : gmap (list (list N)) FS.node :=
    list_to_map [([u "out"], FS.Dir);
                 ([u "out"; u "document.json"],
                  FS.JsonFile (obj [("pages", VArr [ref "A"; ref "B"; ref "C"])]));
                 ([u "out"; u "meta.json"], FS.JsonFile (VNum 5));
                 ([u "out"; u "user.json"], FS.JsonFile VNull);
                 ([u "out"; u "pages"], FS.Dir);
                 ([u "out"; u "pages"; u "A.json"], FS.JsonFile (VNum 1));
                 ([u "out"; u "pages"; u "B.json"], FS.RawFile (u "Unexpected end of JSON input"));
                 ([u "out"; u "pages"; u "C.json"], FS.JsonFile (VNum 2))] in
  exists es1,
    In (u "page must be an object") es1
    /\ validateSketchDirectory digitString files [u "out"]
       = mkValidation false (es1 ++ [u "Error parsing JSON: Unexpected end of JSON input"]).
Proof.
  intros ref files.
  destruct (C4_parse_failure_ends_walk digitString files [u "out"]
              (syntaxError (u "Unexpected end of JSON input")))
    as [_ H]; [vm_compute; reflexivity|].
  edestruct H as [Hpage _]; [vm_compute; reflexivity | vm_compute; reflexivity|].
  eexists. split; cycle 1.
  - eapply (Hpage [ref "A"] (ref "B") [ref "C"] (u "B")).
    + vm_compute. reflexivity.
    + vm_compute. reflexivity.
    + vm_compute. reflexivity.
    + discriminate.
    + vm_compute. reflexivity.
    + vm_compute. reflexivity.
  - vm_compute. tauto.
Defined.

(** C4, as stated, fails. With the second page file cut short the report
    ends at the parse message: nothing is said of the third page file, of
    [meta.json] or of [user.json], and the message does not name the file.
    With that one file repaired the same directory is reported for all
    three of them. *)
Lemma C4_later_files_unreported :
  let ref id := obj [("_class", str "MSJSONFileReference");
                     ("_ref_class", str "MSImmutablePage");
                     ("_ref", VStr (u "pages/" ++ u id))] in
  let files (second : FS.node) : gmap (list (list N)) FS.node :=
    list_to_map [([u "out"], FS.Dir);
                 ([u "out"; u "document.json"],
                  FS.JsonFile (obj [("pages", VArr [ref "A"; ref "B"; ref "C"])]));
                 ([u "out"; u "meta.json"], FS.JsonFile (VNum 5));
                 ([u "out"; u "user.json"], FS.JsonFile (VNum 6));
                 ([u "out"; u "pages"], FS.Dir);
                 ([u "out"; u "pages"; u "A.json"], FS.JsonFile (VNum 1));
                 ([u "out"; u "pages"; u "B.json"], second);
                 ([u "out"; u "pages"; u "C.json"], FS.JsonFile (VNum 2))] in
  let cut := errors (validateSketchDirectory digitString
                       (files (FS.RawFile (u "Unexpected end of JSON input"))) [u "out"]) in
  let whole := errors (validateSketchDirectory digitString
                         (files (FS.JsonFile (VNum 3))) [u "out"]) in
  drop 10 cut = [u "page must be an object";
                 u "Error parsing JSON: Unexpected end of JSON input"]
  /\ drop 10 whole = [u "page must be an object"; u "page must be an object";
                      u "page must be an object"; u "meta must be an object";
                      u "user must be an object"].
Proof. split; vm_compute; reflexivity. Qed.


(* ================================================================== *)
(** ** The packer *)
(* ================================================================== *)

Lemma noNewArchive_refl (fs : gmap (list (list N)) FS.node) : noNewArchive fs fs.
Proof. by intros p es H. Qed.

Lemma noNewArchive_trans (a b c : gmap (list (list N)) FS.node) :
  noNewArchive a b -> noNewArchive b c -> noNewArchive a c.
Proof. intros Hab Hbc p es H. by apply Hab, Hbc. Qed.

Lemma noNewArchive_insert (fs : gmap (list (list N)) FS.node) (p : list (list N))
    (n : FS.node) :
  (forall entries, n <> FS.ZipFile entries) -> noNewArchive fs (<[p := n]> fs).
Proof.
  intros Hn q es H. destruct (decide (p = q)) as [->|Hne].
  - rewrite lookup_insert_eq in H. injection H as ->. by destruct (Hn es).
  - by rewrite lookup_insert_ne in H.
Qed.

Lemma mkdirFrom_noNewArchive (todo done : list (list N))
    (fs fs' : gmap (list (list N)) FS.node) :
  FS.mkdirFrom fs done todo = Return fs' -> noNewArchive fs fs'.
Proof.
  revert done fs; induction todo as [|seg todo IH]; intros done fs; simpl.
  - intros [= ->]. apply noNewArchive_refl.
  - destruct (fs !! (done ++ [seg])) as [[| | |]|] eqn:E; try discriminate.
    + apply IH.
    + intros H. eapply noNewArchive_trans; [|by apply (IH _ _ H)].
      by apply noNewArchive_insert.
Qed.

Lemma rmSync_noNewArchive (fs : gmap (list (list N)) FS.node) (p : list (list N)) :
  noNewArchive fs (FS.rmSync fs p).
Proof.
  intros q es H. unfold FS.rmSync in H.
  by apply map_lookup_filter_Some in H as [H _].
Qed.

Lemma writeFileSync_noNewArchive (fs fs' : gmap (list (list N)) FS.node)
    (p : list (list N)) (n : FS.node) :
  (forall entries, n <> FS.ZipFile entries) ->
  FS.writeFileSync fs p n = Return fs' -> noNewArchive fs fs'.
Proof.
  intros Hn. unfold FS.writeFileSync. destruct p as [|s p]; [done|].
  destruct (FS.lookupNode fs (removelast (s :: p))) as [[| | |]|]; try done.
  destruct (fs !! (s :: p)) as [[| | |]|]; try done;
    intros [= <-]; by apply noNewArchive_insert.
Qed.

Section ArchiveFree.

Variable numberToString : Q -> jstring.
Variable random : nat -> Q.
Variable homedir : list (list N).
Variable now : N.

Lemma archiveFree_ret {A} (a : A) : archiveFree (IO.ret a).
Proof. intros w. apply noNewArchive_refl. Qed.

Lemma archiveFree_throw {A} (e : jsError) : archiveFree (IO.throw (A:=A) e).
Proof. intros w. apply noNewArchive_refl. Qed.

Lemma archiveFree_liftO {A} (o : outcome A) : archiveFree (IO.liftO o).
Proof. intros w. apply noNewArchive_refl. Qed.

Lemma archiveFree_liftG {A} (g : Gen.Gen A) : archiveFree (IO.liftG g).
Proof. intros w. unfold IO.liftG. destruct (g (IO.draws w)). apply noNewArchive_refl. Qed.

Lemma archiveFree_fsRead {A} (f : gmap (list (list N)) FS.node -> A) :
  archiveFree (IO.fsRead f).
Proof. intros w. apply noNewArchive_refl. Qed.

Lemma archiveFree_fsOp (f : gmap (list (list N)) FS.node -> outcome (gmap (list (list N)) FS.node)) :
  (forall fs fs', f fs = Return fs' -> noNewArchive fs fs') ->
  archiveFree (IO.fsOp f).
Proof.
  intros Hf w. unfold IO.fsOp. destruct (f (IO.files w)) eqn:E; simpl.
  - by apply Hf.
  - apply noNewArchive_refl.
Qed.

Lemma archiveFree_bind {A B} (m : IO.IO A) (k : A -> IO.IO B) :
  archiveFree m -> (forall a, archiveFree (k a)) -> archiveFree (IO.bind m k).
Proof.
  intros Hm Hk w. unfold IO.bind. specialize (Hm w).
  destruct (m w) as [[a|e] w']; simpl in *; [|done].
  eapply noNewArchive_trans; [exact Hm | apply Hk].
Qed.

Lemma archiveFree_mapIO {A B} (f : A -> IO.IO B) (l : list A) :
  (forall a, archiveFree (f a)) -> archiveFree (IO.mapIO f l).
Proof.
  intros Hf. induction l as [|x l IH]; simpl; [apply archiveFree_ret|].
  apply archiveFree_bind; [apply Hf|]. intros y.
  apply archiveFree_bind; [apply IH|]. intros ys. apply archiveFree_ret.
Qed.

Lemma archiveFree_mkdir (p : list (list N)) :
  archiveFree (IO.fsOp (fun fs => FS.mkdirSync fs p)).
Proof. apply archiveFree_fsOp. intros fs fs'. apply mkdirFrom_noNewArchive. Qed.

Lemma archiveFree_ensureOutputDir (p : list (list N)) : archiveFree (ensureOutputDir p).
Proof.
  unfold ensureOutputDir.
  apply archiveFree_bind; [apply archiveFree_fsRead|]. intros present.
  apply archiveFree_bind; [|intros; apply archiveFree_ret].
  destruct present; [apply archiveFree_ret | apply archiveFree_mkdir].
Qed.

Lemma archiveFree_writeJSON (dir : list (list N)) (name : jstring) (data : value) :
  archiveFree (writeJSON dir name data).
Proof.
  unfold writeJSON.
  apply archiveFree_bind; [|intros; apply archiveFree_ret].
  apply archiveFree_fsOp. intros fs fs'. by apply writeFileSync_noNewArchive.
Qed.

Lemma archiveFree_writePage (pagesDir : list (list N)) (page : value) :
  archiveFree (writePage numberToString pagesDir page).
Proof.
  unfold writePage.
  apply archiveFree_bind.
  { destruct (truthy _); [|apply archiveFree_ret].
    destruct (get (u "layers") _); try apply archiveFree_throw.
    apply archiveFree_bind; [apply archiveFree_liftO | intros; apply archiveFree_ret]. }
  intros page'.
  apply archiveFree_bind; [apply archiveFree_liftO|]. intros name.
  apply archiveFree_bind; [apply archiveFree_writeJSON | intros; apply archiveFree_ret].
Qed.

Lemma archiveFree_orContainer (given : value) (cls : string) :
  archiveFree (orContainer random given cls).
Proof.
  unfold orContainer. destruct (truthy given); [apply archiveFree_ret|].
  apply archiveFree_bind; [apply archiveFree_liftG | intros; apply archiveFree_ret].
Qed.

(** One step of a chain of binds. *)
Ltac quiet_step :=
  first
    [ apply archiveFree_ret
    | apply archiveFree_throw
    | apply archiveFree_liftO
    | apply archiveFree_liftG
    | apply archiveFree_fsRead
    | apply archiveFree_mkdir
    | apply archiveFree_ensureOutputDir
    | apply archiveFree_writeJSON
    | apply archiveFree_orContainer
    | apply archiveFree_mapIO; intros ?; apply archiveFree_writePage
    | apply archiveFree_fsOp; intros ? ? [= <-]; apply rmSync_noNewArchive
    | apply archiveFree_bind; [|intros ?]
    | match goal with
      | |- archiveFree (if ?b then _ else _) => destruct b
      | |- archiveFree (match ?x with _ => _ end) => destruct x
      end ].

Lemma archiveFree_layOut (documentData : value) (filename : option jstring)
    (outputDir : option (list (list N))) :
  archiveFree (layOut numberToString random homedir now documentData filename outputDir).
Proof.
  unfold layOut. cbv zeta. repeat quiet_step.
Qed.

End ArchiveFree.

Lemma writeFileSync_file (fs : gmap (list (list N)) FS.node) (p : list (list N))
    (n : FS.node) :
  isDirectory fs (removelast p) = true -> isDirectory fs p = false ->
  FS.writeFileSync fs p n = Return (<[p := n]> fs).
Proof.
  unfold isDirectory, FS.writeFileSync. intros Hparent Htarget.
  destruct p as [|s p]; [done|].
  destruct (FS.lookupNode fs (removelast (s :: p))) as [[| | |]|]; try done.
  change (FS.lookupNode fs (s :: p)) with (fs !! (s :: p)) in Htarget.
  by destruct (fs !! (s :: p)) as [[| | |]|].
Qed.

(** When validation is enabled and the validator finds a violation in what
    was laid out, [packSketch] throws [Error('Sketch validation failed')]:
    an exception with that message and no property holding the violations.
    It leaves the disk as the layout left it, and no archive exists that
    did not exist before the call. *)
Theorem packSketch_validation_failure (numberToString : Q -> jstring) (random : nat -> Q)
    (homedir cwd : list (list N)) (now : N)
    (zipSize : list (list (list N) * FS.node) -> N)
    (documentData : value) (filename : option jstring) (outputDir : option (list (list N)))
    (options : value) (w : IO.world)
    (baseDir sketchDir : list (list N)) (uniqueFilename : jstring) :
  let laid := layOut numberToString random homedir now documentData filename outputDir w in
  let violations :=
    errors (validateSketchDirectory numberToString (IO.files (snd laid)) sketchDir) in
  let thrown := newError (u "Sketch validation failed") in
  fst laid = Return (baseDir, uniqueFilename, sketchDir) ->
  validationEnabled options = true ->
  violations <> [] ->
  packSketch numberToString random homedir cwd now zipSize
             documentData filename outputDir options w
  = (Throw thrown, snd laid)
  /\ ownProps thrown = []
  /\ ~ carriesViolations thrown violations
  /\ noNewArchive (IO.files w) (IO.files (snd laid)).
Proof.
  intros laid violations thrown Hlay Hen Hbad.
  assert (Hvalid : valid (validateSketchDirectory numberToString
                            (IO.files (snd laid)) sketchDir) = false).
  { destruct (valid _) eqn:E; [|done].
    apply verdict_of_errors in E. contradiction. }
  split; [|split; [done|split]].
  - unfold packSketch, IO.bind at 1. fold laid.
    destruct laid as [r w1]. simpl in Hlay, Hvalid. subst r. rewrite Hen.
    unfold IO.bind at 1, IO.bind at 1, IO.fsRead. simpl snd. rewrite Hvalid. reflexivity.
  - intros [k Hk]. discriminate.
  - apply (archiveFree_layOut numberToString random homedir now
             documentData filename outputDir w).
Qed.

Lemma packSketch_validation_failure_witness :
  fst (packSketch digitString cycle16 [] [] 1700000000000 (fun _ => 42%N)
         brokenDesign (Some (u "demo")) None VUndef emptyDisk)
  = Throw (newError (u "Sketch validation failed")).
Proof.
  edestruct (packSketch_validation_failure digitString cycle16 [] [] 1700000000000
               (fun _ => 42%N) brokenDesign (Some (u "demo")) None VUndef emptyDisk)
    as (H1 & _).
  - vm_compute. reflexivity.
  - reflexivity.
  - vm_compute. discriminate.
  - exact (f_equal fst H1).
Defined.

(** When validation is disabled, or the validator finds nothing, [packSketch]
    goes on to the archive. If the parent of the archive path is a directory
    and the path itself is none, the call returns the path and the size of
    the archive and the disk holds, at that path, an archive of everything
    below the directory of the document. *)
Theorem packSketch_archive (numberToString : Q -> jstring) (random : nat -> Q)
    (homedir cwd : list (list N)) (now : N)
    (zipSize : list (list (list N) * FS.node) -> N)
    (documentData : value) (filename : option jstring) (outputDir : option (list (list N)))
    (options : value) (w : IO.world)
    (baseDir sketchDir : list (list N)) (uniqueFilename : jstring) :
  let laid := layOut numberToString random homedir now documentData filename outputDir w in
  let disk := IO.files (snd laid) in
  let sketchPath := FS.join baseDir (uniqueFilename ++ u ".sketch") in
  let entries := FS.below disk sketchDir in
  fst laid = Return (baseDir, uniqueFilename, sketchDir) ->
  validationEnabled options = false
  \/ errors (validateSketchDirectory numberToString disk sketchDir) = [] ->
  isDirectory disk (removelast sketchPath) = true ->
  isDirectory disk sketchPath = false ->
  exists packed,
    packSketch numberToString random homedir cwd now zipSize
               documentData filename outputDir options w
    = (Return packed,
       IO.mkWorld (<[sketchPath := FS.ZipFile entries]> disk) (IO.draws (snd laid)))
    /\ Packed.sketchPath packed = sketchPath
    /\ Packed.folderPath packed = sketchDir
    /\ Packed.size packed = zipSize entries.
Proof.
  intros laid disk sketchPath entries Hlay Hok Hparent Htarget.
  pose proof (writeFileSync_file disk sketchPath (FS.ZipFile entries) Hparent Htarget) as Ew.
  assert (Hcheck :
    (if validationEnabled options
     then (run validation <-
             IO.fsRead (fun fs => validateSketchDirectory numberToString fs sketchDir) in
           if negb (valid validation)
           then IO.throw (newError (u "Sketch validation failed"))
           else IO.ret tt)
     else IO.ret tt) (snd laid) = (Return tt, snd laid)).
  { destruct (validationEnabled options); [|done].
    destruct Hok as [? | Hv]; [done|].
    apply verdict_of_errors in Hv.
    unfold IO.bind, IO.fsRead. fold disk. by rewrite Hv. }
  unfold packSketch, IO.bind at 1. fold laid.
  subst disk. destruct laid as [r w1]. simpl in Hlay, Hcheck, Ew, entries |- *. subst r.
  unfold IO.bind at 1. rewrite Hcheck.
  unfold IO.bind at 1, createZipWithAdmZip, IO.bind at 1, IO.fsRead, IO.fsOp.
  fold sketchPath entries. rewrite Ew.
  eexists. split.
  - unfold IO.bind, IO.ret. simpl IO.files. rewrite lookup_insert_eq. reflexivity.
  - repeat split; reflexivity.
Qed.

Lemma packSketch_archive_witness :
  exists packed,
    fst (packSketch digitString cycle16 [] [] 1700000000000 (fun _ => 42%N)
           (fst (emptyDesign 0%nat)) (Some (u "demo")) None VUndef emptyDisk)
    = Return packed
    /\ Packed.sketchPath packed
       = map u [".openclaw"; "workspace"; "sketch-output"; "demo_1700000000000.sketch"].
Proof.
  edestruct (packSketch_archive digitString cycle16 [] [] 1700000000000
               (fun _ => 42%N) (fst (emptyDesign 0%nat)) (Some (u "demo")) None VUndef
               emptyDisk) as (packed & Hcall & Hpath & _).
  - vm_compute. reflexivity.
  - right. vm_compute. reflexivity.
  - vm_compute. reflexivity.
  - vm_compute. reflexivity.
  - exists packed. split; [exact (f_equal fst Hcall) | exact Hpath].
Defined.

(** C3, as the code has it. With validation enabled, [packSketch] lays the
    document out, validates the directory and then either stops or packs.
    When the validator reports a violation the call throws a plain [Error]
    with the message [Sketch validation failed]; the exception has no
    property of its own, so the violations are not handed to the caller,
    and no archive exists that did not exist before. When the validator
    reports nothing, and the archive path is free below an existing
    directory, the call returns and the disk holds the archive of the
    document directory at that path. *)
Theorem C3_packSketch_validation_gate (numberToString : Q -> jstring) (random : nat -> Q)
    (homedir cwd : list (list N)) (now : N)
    (zipSize : list (list (list N) * FS.node) -> N)
    (documentData : value) (filename : option jstring) (outputDir : option (list (list N)))
    (options : value) (w : IO.world)
    (baseDir sketchDir : list (list N)) (uniqueFilename : jstring) :
  let laid := layOut numberToString random homedir now documentData filename outputDir w in
  let disk := IO.files (snd laid) in
  let violations := errors (validateSketchDirectory numberToString disk sketchDir) in
  let sketchPath := FS.join baseDir (uniqueFilename ++ u ".sketch") in
  let call := packSketch numberToString random homedir cwd now zipSize
                documentData filename outputDir options w in
  fst laid = Return (baseDir, uniqueFilename, sketchDir) ->
  validationEnabled options = true ->
  (violations <> [] ->
     exists thrown,
       call = (Throw thrown, snd laid)
       /\ errorClass thrown = u "Error"
       /\ message thrown = u "Sketch validation failed"
       /\ ownProps thrown = []
       /\ ~ carriesViolations thrown violations
       /\ noNewArchive (IO.files w) disk)
  /\ (violations = [] ->
      isDirectory disk (removelast sketchPath) = true ->
      isDirectory disk sketchPath = false ->
      exists packed,
        call = (Return packed,
                IO.mkWorld (<[sketchPath := FS.ZipFile (FS.below disk sketchDir)]> disk)
                           (IO.draws (snd laid)))
        /\ Packed.sketchPath packed = sketchPath).
Proof.
  intros laid disk violations sketchPath call Hlay Hen. subst call. split.
  - intros Hbad.
    assert (Hvalid : valid (validateSketchDirectory numberToString disk sketchDir) = false).
    { destruct (valid _) eqn:E; [|done]. apply verdict_of_errors in E. contradiction. }
    exists (newError (u "Sketch validation failed")).
    split; [|split; [done|split; [done|split; [done|split]]]].
    + unfold packSketch, IO.bind at 1. fold laid. subst disk violations.
      destruct laid as [r w1]. simpl in Hlay, Hvalid. subst r. rewrite Hen.
      unfold IO.bind at 1, IO.bind at 1, IO.fsRead. simpl snd. rewrite Hvalid. reflexivity.
    + intros [k Hk]. discriminate.
    + apply (archiveFree_layOut numberToString random homedir now
               documentData filename outputDir w).
  - intros Hok Hparent Htarget.
    pose proof (writeFileSync_file disk sketchPath (FS.ZipFile (FS.below disk sketchDir))
                  Hparent Htarget) as Ew.
    apply verdict_of_errors in Hok.
    unfold packSketch, IO.bind at 1. fold laid. subst disk violations.
    destruct laid as [r w1]. simpl in Hlay, Hok, Ew |- *. subst r. rewrite Hen.
    unfold IO.bind at 1, IO.bind at 1, IO.fsRead at 1. simpl snd. simpl fst. rewrite Hok.
    cbn [negb]. unfold IO.ret at 1. cbv iota beta.
    unfold IO.bind at 1, createZipWithAdmZip, IO.bind at 1, IO.fsRead, IO.fsOp.
    fold sketchPath. rewrite Ew.
    eexists. split.
    + unfold IO.bind, IO.ret. simpl IO.files. rewrite lookup_insert_eq. reflexivity.
    + reflexivity.
Qed.

(** A document with a page that is no page is laid out and then refused;
    the sample document without modules is packed. *)
Lemma C3_packSketch_validation_gate_witness :
  (exists thrown,
     fst (packSketch digitString cycle16 [] [] 1700000000000 (fun _ => 42%N)
            brokenDesign (Some (u "demo")) None VUndef emptyDisk) = Throw thrown
     /\ message thrown = u "Sketch validation failed" /\ ownProps thrown = [])
  /\ (exists packed,
        fst (packSketch digitString cycle16 [] [] 1700000000000 (fun _ => 42%N)
               (fst (emptyDesign 0%nat)) (Some (u "demo")) None VUndef emptyDisk)
        = Return packed
        /\ Packed.sketchPath packed
           = map u [".openclaw"; "workspace"; "sketch-output"; "demo_1700000000000.sketch"]).
Proof.
  split.
  - edestruct (C3_packSketch_validation_gate digitString cycle16 [] [] 1700000000000
                 (fun _ => 42%N) brokenDesign (Some (u "demo")) None VUndef emptyDisk)
      as [H _].
    + vm_compute. reflexivity.
    + reflexivity.
    + destruct H as (thrown & Hcall & _ & Hmsg & Hown & _).
      * vm_compute. discriminate.
      * exists thrown. split; [exact (f_equal fst Hcall) | split; [exact Hmsg | exact Hown]].
  - edestruct (C3_packSketch_validation_gate digitString cycle16 [] [] 1700000000000
                 (fun _ => 42%N) (fst (emptyDesign 0%nat)) (Some (u "demo")) None VUndef
                 emptyDisk) as [_ H].
    + vm_compute. reflexivity.
    + reflexivity.
    + destruct H as (packed & Hcall & Hpath).
      * vm_compute. reflexivity.
      * vm_compute. reflexivity.
      * vm_compute. reflexivity.
      * exists packed. split; [exact (f_equal fst Hcall) | exact Hpath].
Defined.

(** C3, as stated, fails: the document with a page that is no page is
    refused with violations on record, and what is thrown is a plain
    [Error] with a fixed message and without any property: no
    [ValidationFailed], and no list of violations. *)
Lemma C3_failure_carries_no_violations :
  let call := packSketch digitString cycle16 [] [] 1700000000000 (fun _ => 42%N)
                brokenDesign (Some (u "demo")) None VUndef emptyDisk in
  let violations :=
    errors (validateSketchDirectory digitString (IO.files (snd call))
              (map u [".openclaw"; "workspace"; "sketch-output"; "demo_1700000000000"])) in
  violations <> []
  /\ fst call = Throw (mkError (u "Error") (u "Sketch validation failed") [])
  /\ ~ failsWith "ValidationFailed" (fst call)
  /\ forall e, fst call = Throw e -> ~ carriesViolations e violations.
Proof.
  intros call violations.
  assert (Hcall : fst call = Throw (mkError (u "Error") (u "Sketch validation failed") []))
    by (vm_compute; reflexivity).
  split; [vm_compute; discriminate|]. split; [exact Hcall|]. split.
  - intros (e & He & Hcls). rewrite Hcall in He. injection He as <-. vm_compute in Hcls.
    discriminate.
  - intros e He. rewrite Hcall in He. injection He as <-. intros [k Hk]. discriminate.
Qed.


(* ================================================================== *)
(** ** The table module *)
(* ================================================================== *)

Section TableFacts.

Variable numberToString : Q -> jstring.
Variable random : nat -> Q.

Lemma popRows_app (a b : list nat) (h : gmap nat (list value)) :
  popRows (a ++ b) h = popRows b (popRows a h).
Proof. unfold popRows. apply fold_left_app. Qed.

(** The row loop leaves the heap as the rows it got to have left it. *)
Lemma tableRows_heap (ctx : Context.t) (m : DataTable.t) (rows : list nat)
    (rowIndex : nat) (layers : list value) (h : gmap nat (list value)) (n : nat) :
  let out := tableRows numberToString random ctx m rows rowIndex layers h n in
  if truthy (DataTable.hasActions m)
  then (succeeded (fst (fst out)) = true -> snd (fst out) = popRows rows h)
       /\ exists k, (k <= length rows)%nat /\ snd (fst out) = popRows (take k rows) h
  else snd (fst out) = h.
Proof.
  cbv zeta.
  revert rowIndex layers h n.
  induction rows as [|r rest IH]; intros rowIndex layers h n.
  - cbn [tableRows fst snd]. destruct (truthy (DataTable.hasActions m)); [|done].
    split; [done|]. by exists 0%nat.
  - cbn [tableRows]. cbv zeta.
    destruct (createRectangle random _ _ _ n) as [tableRow n1].
    set (boxed := if truthy (DataTable.hasCheckbox m) then _ else _).
    destruct boxed as [[layers1 cellX] n2].
    destruct (cells _ _ _ _ _ _ _ _ _ n2) as [[ls|e] n3].
    + specialize (IH (S rowIndex) ls
                     (if truthy (DataTable.hasActions m) then alter pop r h else h) n3).
      destruct (truthy (DataTable.hasActions m)); [|done].
      destruct IH as [Hall (k & Hk & Hpre)]. split; [done|].
      exists (S k). split; [cbn [length]; lia | done].
    + cbn [fst snd]. destruct (truthy (DataTable.hasActions m)); [|done].
      split; [done|]. exists 1%nat. split; [cbn [length]; lia | done].
Qed.

Lemma generateModule_heap (m : DataTable.t) (ctx : Context.t)
    (h : gmap nat (list value)) (n : nat) :
  let out := generateModule numberToString random m ctx h n in
  match DataTable.rows m with
  | Some rows =>
      if truthy (DataTable.hasActions m)
      then (succeeded (fst (fst out)) = true -> snd (fst out) = popRows rows h)
           /\ exists k, (k <= length rows)%nat /\ snd (fst out) = popRows (take k rows) h
      else snd (fst out) = h
  | None => snd (fst out) = h
  end.
Proof.
  unfold generateModule.
  destruct (createRectangle random _ _ _ n) as [tableBg n1].
  set (titled := match DataTable.title m with Some (c :: r) => _ | _ => _ end).
  destruct titled as [layers1 n2].
  destruct (createRectangle random _ _ _ n2) as [addBtn n3].
  destruct (createText random _ _ _ n3) as [addBtnText n4].
  destruct (createRectangle random _ _ _ n4) as [theadBg n5].
  set (headed := match DataTable.columns m with Some cols => _ | None => _ end).
  destruct headed as [layers2 n6].
  destruct (DataTable.rows m) as [rows|]; [|done].
  apply tableRows_heap.
Qed.

Lemma lookup_popRows (rows : list nat) (h : gmap nat (list value)) (r : nat) :
  popRows rows h !! r = Nat.iter (count_occ Nat.eq_dec rows r) pop <$> h !! r.
Proof.
  revert h; induction rows as [|x rows IH]; intros h; simpl.
  - by destruct (h !! r).
  - unfold popRows in *. simpl. rewrite IH.
    destruct (Nat.eq_dec x r) as [->|Hne].
    + rewrite lookup_alter_eq. destruct (h !! r) as [l|]; simpl; [|done].
      f_equal. clear. induction (count_occ Nat.eq_dec rows r); simpl; [done|].
      by rewrite IHn.
    + by rewrite lookup_alter_ne.
Qed.

End TableFacts.

(** [generateModule] works on the caller's row arrays. Without [hasActions],
    or without [rows], it leaves every row array as it was. With a truthy
    [hasActions], a call that returns has removed from each row array one
    trailing element for every time the array occurs in [module.rows]. *)
Theorem generateModule_pops_rows (numberToString : Q -> jstring) (random : nat -> Q)
    (m : DataTable.t) (ctx : Context.t) (h : gmap nat (list value)) (n : nat) :
  let out := generateModule numberToString random m ctx h n in
  let h' := snd (fst out) in
  (truthy (DataTable.hasActions m) = false \/ DataTable.rows m = None -> h' = h)
  /\ (truthy (DataTable.hasActions m) = true ->
      succeeded (fst (fst out)) = true ->
      forall rows r,
        DataTable.rows m = Some rows ->
        h' !! r = Nat.iter (count_occ Nat.eq_dec rows r) pop <$> h !! r).
Proof.
  intros out h'. subst out h'.
  pose proof (generateModule_heap numberToString random m ctx h n) as H.
  cbv zeta in H. split.
  - intros [Hno | Hrows].
    + rewrite Hno in H. by destruct (DataTable.rows m).
    + by rewrite Hrows in H.
  - intros Hact Hok rows r Hrows. rewrite Hrows, Hact in H.
    destruct H as [H _]. rewrite (H Hok). apply lookup_popRows.
Qed.

Lemma generateModule_pops_rows_witness :
  let out := generateModule digitString cycle16 sharedRowsTable sampleContext
               sharedRowsHeap 0 in
  snd (fst out) !! 0%nat = Some [str "1"; str "Ann"]
  /\ snd (fst out) !! 1%nat = Some [].
Proof.
  intros out.
  destruct (generateModule_pops_rows digitString cycle16 sharedRowsTable sampleContext
              sharedRowsHeap 0) as [_ H].
  specialize (H eq_refl).
  assert (Hok : succeeded (fst (fst out)) = true) by (vm_compute; reflexivity).
  specialize (H Hok [0; 1; 0]%nat).
  split.
  - exact (eq_trans (H 0%nat eq_refl) eq_refl).
  - exact (eq_trans (H 1%nat eq_refl) eq_refl).
Defined.

Lemma length_pop (l : list value) : length (pop l) = pred (length l).
Proof.
  unfold pop. induction l as [|x [|y l] IH]; [done | done |].
  change (removelast (x :: y :: l)) with (x :: removelast (y :: l)).
  simpl length in *. by rewrite IH.
Qed.

Lemma length_iter_pop (k : nat) (l : list value) :
  length (Nat.iter k pop l) = (length l - k)%nat.
Proof.
  induction k as [|k IH]; simpl; [lia|]. rewrite length_pop, IH. lia.
Qed.

Lemma iter_pop_nil (k : nat) : Nat.iter k pop [] = [].
Proof. induction k as [|k IH]; simpl; [done|]. by rewrite IH. Qed.

(** C10, as the code has it. [generateModule] works on the caller's row
    arrays. Without a truthy [hasActions] it leaves them as they are. With
    a truthy [hasActions], a call that returns has called [row.pop()] on
    the arrays listed in [module.rows]: where no array is listed twice,
    each listed array has lost its last element and no other array has
    changed. What the caller sees afterwards differs from what it passed
    in exactly when some listed array held an element: rows that are all
    empty are left as they were. *)
Theorem C10_generateModule_pops_in_place (numberToString : Q -> jstring)
    (random : nat -> Q) (m : DataTable.t) (ctx : Context.t)
    (h : gmap nat (list value)) (n : nat) :
  let out := generateModule numberToString random m ctx h n in
  let h' := snd (fst out) in
  (truthy (DataTable.hasActions m) = false -> h' = h)
  /\ (truthy (DataTable.hasActions m) = true ->
      succeeded (fst (fst out)) = true ->
      forall rows,
        DataTable.rows m = Some rows ->
        (List.NoDup rows ->
           forall r, (In r rows -> h' !! r = pop <$> h !! r)
                     /\ (~ In r rows -> h' !! r = h !! r))
        /\ (Forall (fun r => forall l, h !! r = Some l -> l = []) rows -> h' = h)
        /\ (Exists (fun r => exists x l, h !! r = Some (x :: l)) rows -> h' <> h)).
Proof.
  intros out h'. subst out h'.
  pose proof (generateModule_heap numberToString random m ctx h n) as H.
  cbv zeta in H. split.
  - intros Hno. rewrite Hno in H. by destruct (DataTable.rows m).
  - intros Hact Hok rows Hrows. rewrite Hrows, Hact in H.
    destruct H as [H _]. rewrite (H Hok). clear H.
    split; [|split].
    + intros Hnd r. split.
      * intros Hin. rewrite lookup_popRows.
        assert (Hc : count_occ Nat.eq_dec rows r = 1%nat).
        { pose proof (proj1 (NoDup_count_occ Nat.eq_dec rows) Hnd r) as Hle.
          pose proof (proj1 (count_occ_In Nat.eq_dec rows r) Hin). lia. }
        by rewrite Hc.
      * intros Hout. rewrite lookup_popRows.
        rewrite (proj1 (count_occ_not_In Nat.eq_dec rows r) Hout).
        by destruct (h !! r).
    + intros Hall. apply map_eq. intros r. rewrite lookup_popRows.
      destruct (h !! r) as [l|] eqn:El; [|done]. simpl. f_equal.
      destruct (in_dec Nat.eq_dec r rows) as [Hin | Hout].
      * rewrite Forall_forall in Hall. rewrite (Hall r Hin l El). apply iter_pop_nil.
      * by rewrite (proj1 (count_occ_not_In Nat.eq_dec rows r) Hout).
    + intros Hex Heq. apply Exists_exists in Hex as (r & Hin & x & l & El).
      assert (E : popRows rows h !! r = h !! r) by (by rewrite Heq).
      rewrite lookup_popRows, El in E. simpl in E. injection E as E.
      apply (f_equal length) in E. rewrite length_iter_pop in E.
      pose proof (proj1 (count_occ_In Nat.eq_dec rows r) Hin). simpl in E. lia.
Qed.

(** Two rows that end in an action cell lose it. *)
Lemma C10_generateModule_pops_in_place_witness :
  let out := generateModule digitString cycle16 actionsTable sampleContext actionsHeap 0 in
  snd (fst out) !! 0%nat = Some [str "1"; str "Ann"]
  /\ snd (fst out) !! 1%nat = Some [str "2"; str "Bob"]
  /\ snd (fst out) <> actionsHeap.
Proof.
  intros out.
  destruct (C10_generateModule_pops_in_place digitString cycle16 actionsTable sampleContext
              actionsHeap 0) as [_ H].
  specialize (H eq_refl).
  assert (Hok : succeeded (fst (fst out)) = true) by (vm_compute; reflexivity).
  destruct (H Hok [0; 1]%nat eq_refl) as (Hpop & _ & Hdiff).
  assert (Hnd : List.NoDup [0; 1]%nat).
  { repeat constructor; simpl; intros F; repeat destruct F as [F | F]; discriminate || done. }
  split; [|split].
  - exact (eq_trans (proj1 (Hpop Hnd 0%nat) (or_introl eq_refl)) eq_refl).
  - exact (eq_trans (proj1 (Hpop Hnd 1%nat) (or_intror (or_introl eq_refl))) eq_refl).
  - apply Hdiff. apply Exists_cons_hd. by eexists _, _.
Defined.

(** C10, as stated, fails: with a truthy [hasActions] and rows that are
    empty arrays the call returns and the caller's arrays are what they
    were. *)
Lemma C10_empty_rows_left_alone :
  let out := generateModule digitString cycle16 actionsTable sampleContext emptyRowsHeap 0 in
  truthy (DataTable.hasActions actionsTable) = true
  /\ succeeded (fst (fst out)) = true
  /\ snd (fst out) = emptyRowsHeap.
Proof. repeat split; vm_compute; reflexivity. Qed.


(* ================================================================== *)
(** ** What the constructors build, the validator accepts *)
(* ================================================================== *)

Lemma parseColor_shape (v : value) :
  exists r g b,
    parseColor v = obj [("_class", str "color"); ("alpha", VNum 1); ("red", VNum r);
                        ("green", VNum g); ("blue", VNum b)].
Proof.
  unfold parseColor.
  destruct v as [| | | |[|c rest]| | |]; try (by exists 0%Q, 0%Q, 0%Q).
  destruct (JsString.startsWith (u "#") (c :: rest)); [|by exists 0%Q, 0%Q, 0%Q].
  by eexists _, _, _.
Qed.

Lemma truthy_parseColor (v : value) : truthy (parseColor v) = true.
Proof. by destruct (parseColor_shape v) as (r & g & b & ->). Qed.

Lemma ltb_unit (q : Q) :
  (0 <= q)%Q /\ (q <= 1)%Q -> JsNum.ltb q 0 || JsNum.ltb 1 q = false.
Proof.
  intros [H0 H1]. unfold JsNum.ltb, Qle in *. simpl in *.
  apply orb_false_iff. split; apply Z.ltb_ge; lia.
Qed.

Lemma validateColor_parseColor (v : value) (path : jstring) :
  unsignedColor v -> validateColor (parseColor v) path = [].
Proof.
  intros Hv. pose proof (parseColor_unsigned v Hv) as Hch.
  destruct (parseColor_shape v) as (r & g & b & E).
  inversion Hch as [|? ? Hr Hch1]; subst. inversion Hch1 as [|? ? Hg Hch2]; subst.
  inversion Hch2 as [|? ? Hb Hch3]; subst. inversion Hch3 as [|? ? Ha _]; subst.
  clear Hch Hch1 Hch2 Hch3.
  rewrite E in Hr, Hg, Hb, Ha |- *.
  change (inUnitInterval (VNum r)) in Hr. change (inUnitInterval (VNum g)) in Hg.
  change (inUnitInterval (VNum b)) in Hb. change (inUnitInterval (VNum 1)) in Ha.
  unfold inUnitInterval in *.
  unfold validateColor.
  change (notObject _) with false. cbv iota.
  change (isStr "color" _) with true.
  cbn [forEachI].
  change (get (u "red") _) with (VNum r).
  change (get (u "green") _) with (VNum g).
  change (get (u "blue") _) with (VNum b).
  change (get (u "alpha") _) with (VNum 1).
  cbv beta iota. rewrite !ltb_unit by assumption. reflexivity.
Qed.

Lemma validateFill_fillOf (c : value) (path : jstring) :
  unsignedColor c -> validateFill (fillOf c) path = [].
Proof.
  intros Hc. unfold validateFill, fillOf.
  lazy -[validateColor parseColor app truthy].
  change (get (u "color") _) with (parseColor c).
  rewrite truthy_parseColor. rewrite validateColor_parseColor by done. reflexivity.
Qed.

Lemma forEachI_clean {A} (f : nat -> A -> list jstring -> list jstring) (l : list A)
    (i : nat) (es : list jstring) :
  Forall (fun x => forall i es, f i x es = es) l -> forEachI f i l es = es.
Proof.
  intros H. revert i es. induction H as [|x l Hx _ IH]; intros i es; simpl; [done|].
  by rewrite Hx, IH.
Qed.

Section Accepted.
Variable numberToString : Q -> jstring.
Variable random : nat -> Q.
Hypothesis random_range : forall k, (0 <= random k)%Q /\ (random k < 1)%Q.

Lemma generateUUID_valid (n : nat) :
  isValidUUID numberToString (VStr (fst (generateUUID random n))) = Return true.
Proof.
  unfold isValidUUID.
  change (toStringV numberToString (VStr ?id)) with (Return (A:=list N) id).
  unfold JsError.bind.
  by rewrite (canonicalLayout_matches _ (generateUUID_layout random random_range n)).
Qed.

Lemma validateStyle_createStyle (o : StyleOptions.t) (n : nat) (path : jstring) :
  (forall cs c, StyleOptions.fills o = Some cs -> In c cs -> unsignedColor c) ->
  validateStyle numberToString (fst (createStyle random o n)) path = Return [].
Proof.
  intros Hfills.
  unfold createStyle, Gen.bind, Gen.ret.
  pose proof (generateUUID_valid n) as Hid.
  destruct (generateUUID random n) as [id m]. cbn [fst] in Hid |- *.
  assert (Hfs : match StyleOptions.fills o with
                | Some cs => Forall (fun f => forall i es,
                               es ++ validateFill f
                                  (path ++ u ".fills[" ++ JsString.ofNat i ++ u "]") = es)
                               (map fillOf cs)
                | None => True
                end).
  { destruct (StyleOptions.fills o) as [cs|]; [|done].
    specialize (Hfills cs). apply Forall_forall. intros f Hf.
    apply in_map_iff in Hf as (c & <- & Hc). intros i es.
    rewrite validateFill_fillOf; [apply app_nil_r | by apply (Hfills c)]. }
  destruct (StyleOptions.fills o) as [[|c cs]|];
    [| revert Hfs; generalize (map fillOf (c :: cs)); intros fs Hfs |];
    destruct (truthy (StyleOptions.borderColor o));
    destruct (StyleOptions.shadow o);
    destruct (wantsTextStyle o);
    unfold validateStyle;
    lazy -[isValidUUID validateFill forEachI JsString.ofNat app];
    rewrite Hid;
    destruct id;
    lazy -[isValidUUID validateFill forEachI JsString.ofNat app];
    (rewrite forEachI_clean; [reflexivity | first [exact Hfs | apply Forall_nil]]).
Qed.

Lemma validateRectangle_createRectangle (frame : Frame.t) (style : StyleOptions.t)
    (name : jstring) (n : nat) (path : jstring) :
  (truthy (StyleOptions.cornerRadius style) = true ->
   isType TNumber (StyleOptions.cornerRadius style) = true) ->
  (forall cs c, StyleOptions.fills style = Some cs -> In c cs -> unsignedColor c) ->
  validateRectangle numberToString (fst (createRectangle random frame style name n)) path
  = Return [].
Proof.
  intros Hcr Hfills.
  unfold createRectangle, createLayerBase, Gen.bind, Gen.ret.
  pose proof (generateUUID_valid n) as Hid.
  destruct (generateUUID random n) as [id m]. cbn [fst] in Hid.
  pose proof (fun p => validateStyle_createStyle style m p Hfills) as Hst.
  destruct (createStyle random style m) as [st m2]. cbn [fst] in Hst |- *.
  assert (Hr : isType TNumber (orElse (StyleOptions.cornerRadius style) (int 0)) = true).
  { unfold orElse. destruct (truthy (StyleOptions.cornerRadius style)); [by apply Hcr | done]. }
  revert Hr. generalize (orElse (StyleOptions.cornerRadius style) (int 0)). intros r Hr.
  destruct r as [| | | q | | | | k]; try discriminate Hr;
    [clear Hr | by unfold isType, typeof in Hr; destruct (JsString.eqb k _)].
  generalize (orElse (StyleOptions.constrainProportions style) (VBool false)). intros cp.
  destruct frame as [fx fy fw fh]. cbn [Frame.x Frame.y Frame.width Frame.height].
  unfold validateRectangle.
  lazy -[isValidUUID validateStyle app].
  rewrite Hid. lazy -[isValidUUID validateStyle app].
  rewrite Hst.
  match goal with |- (if ?c then _ else _) = _ => destruct c end; reflexivity.
Qed.

Lemma validateText_createText (text : jstring) (frame : Frame.t) (style : TextSpec.t)
    (n : nat) (path : jstring) :
  validateText numberToString (fst (createText random text frame style n)) path = Return [].
Proof.
  unfold createText, createLayerBase, Gen.bind, Gen.ret.
  pose proof (generateUUID_valid n) as Hid.
  destruct (generateUUID random n) as [id m]. cbn [fst] in Hid.
  match goal with
  | |- context [createStyle random ?o m] =>
      assert (Hst : forall p, validateStyle numberToString (fst (createStyle random o m)) p
                              = Return [])
        by (intros p; apply validateStyle_createStyle;
            intros cs c Hcs Hc; injection Hcs as <-; destruct Hc);
      destruct (createStyle random o m) as [st m2]
  end.
  cbn [fst] in Hst |- *.
  assert (Hn : exists s, orElse (VStr (substring0 30 text)) (str "Text") = VStr s)
    by (unfold orElse; destruct (truthy _); eauto).
  destruct Hn as [nm ->].
  destruct frame as [fx fy fw fh]. cbn [Frame.x Frame.y Frame.width Frame.height].
  unfold validateText.
  lazy -[isValidUUID validateStyle app].
  rewrite Hid. lazy -[isValidUUID validateStyle app].
  rewrite Hst.
  match goal with |- (if ?c then _ else _) = _ => destruct c end; reflexivity.
Qed.

Lemma validatePage_artboard (pageName name : jstring) (width height : Q)
    (backgroundColor : value) (n : nat) (path : jstring) :
  unsignedColor backgroundColor ->
  let artboard := createArtboard random name width height backgroundColor n in
  validateArtboard numberToString (fst artboard) path = Return []
  /\ validatePage numberToString
       (fst (createPage random pageName [fst artboard] (snd artboard))) path = Return [].
Proof.
  intros Hbg. cbv zeta.
  unfold createPage, createArtboard, createBackgroundRect, createLayerBase, Gen.bind, Gen.ret.
  pose proof (generateUUID_valid n) as Hid.
  destruct (generateUUID random n) as [id m]. cbn [fst] in Hid.
  pose proof (generateUUID_valid m) as Hid1.
  destruct (generateUUID random m) as [id1 m1]. cbn [fst] in Hid1.
  match goal with
  | |- context [createStyle random ?o m1] =>
      assert (Hst : forall p, validateStyle numberToString (fst (createStyle random o m1)) p
                              = Return [])
        by (intros p; apply validateStyle_createStyle;
            intros cs c Hcs Hc; injection Hcs as <-; destruct Hc as [<- | []]; exact Hbg);
      destruct (createStyle random o m1) as [st m2]
  end.
  cbn [fst snd] in Hst |- *.
  pose proof (generateUUID_valid m2) as Hid2.
  destruct (generateUUID random m2) as [id2 m3]. cbn [fst] in Hid2 |- *.
  pose proof (fun p => validateColor_parseColor backgroundColor p Hbg) as Hcol.
  destruct (parseColor_shape backgroundColor) as (r & g & b & E).
  rewrite E in Hcol |- *. clear E.
  lazy -[validateColor app] in Hcol.
  unfold validateArtboard, validatePage.
  lazy -[isValidUUID validateStyle validateColor app].
  rewrite ?Hid, ?Hid1, ?Hid2.
  lazy -[isValidUUID validateStyle validateColor app].
  rewrite !Hst, !Hcol.
  split; destruct st as [| |[]|[[|?|?] ?]|[|? ?]| | |]; reflexivity.
Qed.

Lemma accepted_nil : accepted numberToString [].
Proof. by intros path i es. Qed.

Lemma accepted_app (a b : list value) :
  accepted numberToString a -> accepted numberToString b -> accepted numberToString (a ++ b).
Proof.
  intros Ha Hb path i es. rewrite forEachE_app, Ha. simpl. apply Hb.
Qed.

Lemma accepted_rectangle (frame : Frame.t) (style : StyleOptions.t)
    (name : jstring) (n : nat) :
  (truthy (StyleOptions.cornerRadius style) = true ->
   isType TNumber (StyleOptions.cornerRadius style) = true) ->
  (forall cs c, StyleOptions.fills style = Some cs -> In c cs -> unsignedColor c) ->
  accepted numberToString [fst (createRectangle random frame style name n)].
Proof.
  intros Hcr Hfills path i es.
  pose proof (validateRectangle_createRectangle frame style name n
                (path ++ u ".layers[" ++ JsString.ofNat i ++ u "]") Hcr Hfills) as Hv.
  cbn [forEachE]. unfold validateArtboardLayer.
  assert (Hc : getE (u "_class") (fst (createRectangle random frame style name n))
               = Return (str "rectangle")).
  { unfold createRectangle, createLayerBase, Gen.bind, Gen.ret.
    destruct (generateUUID random n) as [id m].
    destruct (createStyle random style m) as [st m2]. reflexivity. }
  rewrite Hc. cbn [JsError.bind].
  change (isStr "rectangle" (str "rectangle")) with true. cbv iota.
  rewrite Hv. cbn [JsError.bind]. by rewrite app_nil_r.
Qed.

Lemma accepted_text (text : jstring) (frame : Frame.t) (style : TextSpec.t) (n : nat) :
  accepted numberToString [fst (createText random text frame style n)].
Proof.
  intros path i es.
  pose proof (validateText_createText text frame style n
                (path ++ u ".layers[" ++ JsString.ofNat i ++ u "]")) as Hv.
  cbn [forEachE]. unfold validateArtboardLayer.
  assert (Hc : getE (u "_class") (fst (createText random text frame style n))
               = Return (str "text")).
  { unfold createText, createLayerBase, Gen.bind, Gen.ret.
    destruct (generateUUID random n) as [id m].
    destruct (createStyle random _ m) as [st m2]. reflexivity. }
  rewrite Hc. cbn [JsError.bind].
  change (isStr "rectangle" (str "text")) with false.
  change (isStr "text" (str "text")) with true. cbv iota.
  rewrite Hv. cbn [JsError.bind]. by rewrite app_nil_r.
Qed.

Lemma accepted_snoc_rectangle (layers : list value) (frame : Frame.t)
    (style : StyleOptions.t) (name : jstring) (n : nat) :
  (truthy (StyleOptions.cornerRadius style) = true ->
   isType TNumber (StyleOptions.cornerRadius style) = true) ->
  (forall cs c, StyleOptions.fills style = Some cs -> In c cs -> unsignedColor c) ->
  accepted numberToString layers ->
  accepted numberToString (layers ++ [fst (createRectangle random frame style name n)]).
Proof. intros. apply accepted_app; [done | by apply accepted_rectangle]. Qed.

Lemma accepted_snoc_text (layers : list value) (text : jstring) (frame : Frame.t)
    (style : TextSpec.t) (n : nat) :
  accepted numberToString layers ->
  accepted numberToString (layers ++ [fst (createText random text frame style n)]).
Proof. intros. apply accepted_app; [done | apply accepted_text]. Qed.

Lemma columnHeaders_accepted (ctx : Context.t) (cols : list Column.t) (colX : Q)
    (layers : list value) (n : nat) :
  accepted numberToString layers ->
  accepted numberToString (fst (columnHeaders random ctx cols colX layers n)).
Proof.
  revert colX layers n. induction cols as [|col cols IH]; intros colX layers n Hl; [done|].
  cbn [columnHeaders]. unfold Gen.bind.
  pose proof (accepted_snoc_text layers (Column.name col)
    (Frame.make colX (JsNum.add (Context.y ctx) 62) (Column.width col) 20)
    (textOf 13 "Roboto-Medium" (Palette.textSecondary (Context.colorPalette ctx)) "left")
    n Hl) as Hs.
  destruct (createText random _ _ _ n) as [colHeader n1]. by apply IH.
Qed.

Lemma cells_accepted (ctx : Context.t) (columns : option (list Column.t)) (rowY : Q)
    (row : list value) (colIndex : nat) (cellX : Q) (layers : list value) (n : nat)
    (layers' : list value) :
  accepted numberToString layers ->
  fst (cells numberToString random ctx columns rowY row colIndex cellX layers n)
  = Return layers' ->
  accepted numberToString layers'.
Proof.
  revert colIndex cellX layers n.
  induction row as [|cell row IH]; intros colIndex cellX layers n Hl.
  - cbn [cells GenE.ret fst]. by intros [= <-].
  - cbn [cells]. unfold GenE.bind, GenE.liftO, GenE.liftG.
    destruct (toStringV numberToString cell) as [text|e]; [|done].
    destruct (columnWidth columns colIndex) as [w|e]; [|done].
    pose proof (accepted_snoc_text layers text
      (Frame.make cellX (JsNum.add rowY 12) w 20)
      (textOf 13 "Roboto-Regular" (Palette.textPrimary (Context.colorPalette ctx)) "left")
      n Hl) as Hs.
    destruct (createText random _ _ _ n) as [cellText n1]. by apply IH.
Qed.

Lemma cells_returns (ctx : Context.t) (cols : list Column.t) (rowY : Q)
    (row : list value) (colIndex : nat) (cellX : Q) (layers : list value) (n : nat) :
  Forall (printable numberToString) row ->
  succeeded (fst (cells numberToString random ctx (Some cols) rowY row colIndex cellX
                    layers n)) = true.
Proof.
  intros Hrow. revert colIndex cellX layers n.
  induction Hrow as [|cell row [text Hc] _ IH]; intros colIndex cellX layers n; [done|].
  cbn [cells]. unfold GenE.bind, GenE.liftO, GenE.liftG. rewrite Hc.
  cbn [columnWidth].
  destruct (createText random _ _ _ n) as [cellText n1]. apply IH.
Qed.


Lemma printable_pop (l : list value) :
  Forall (printable numberToString) l -> Forall (printable numberToString) (pop l).
Proof.
  unfold pop. induction 1 as [|x l Hx Hl IH]; [constructor|].
  simpl. destruct l; [constructor|]. by constructor.
Qed.

Lemma printableHeap_pop (h : gmap nat (list value)) (r : nat) :
  printableHeap numberToString h -> printableHeap numberToString (alter pop r h).
Proof.
  intros Hh r' l. destruct (decide (r = r')) as [<-|Hne].
  - rewrite lookup_alter_eq. destruct (h !! r) as [l0|] eqn:E; [|done].
    intros [= <-]. apply printable_pop. by apply (Hh r).
  - rewrite lookup_alter_ne by done. apply Hh.
Qed.

Lemma printableHeap_deref (h : gmap nat (list value)) (r : nat) :
  printableHeap numberToString h -> Forall (printable numberToString) (DataTable.deref h r).
Proof.
  intros Hh. unfold DataTable.deref. destruct (h !! r) as [l|] eqn:E; [|constructor].
  by apply (Hh r).
Qed.

Lemma fillsOnly_ok (c : value) :
  unsignedColor c ->
  (truthy (StyleOptions.cornerRadius (fillsOnly c)) = true ->
   isType TNumber (StyleOptions.cornerRadius (fillsOnly c)) = true)
  /\ (forall cs c', StyleOptions.fills (fillsOnly c) = Some cs -> In c' cs -> unsignedColor c').
Proof.
  intros Hc. split; [done|]. intros cs c' [= <-] [<- | []]. exact Hc.
Qed.

Lemma fillsRounded_ok (c : value) (radius : Z) :
  unsignedColor c ->
  (truthy (StyleOptions.cornerRadius (fillsRounded c radius)) = true ->
   isType TNumber (StyleOptions.cornerRadius (fillsRounded c radius)) = true)
  /\ (forall cs c', StyleOptions.fills (fillsRounded c radius) = Some cs -> In c' cs ->
                    unsignedColor c').
Proof.
  intros Hc. split; [done|]. intros cs c' [= <-] [<- | []]. exact Hc.
Qed.

Lemma tableRows_accepted (ctx : Context.t) (m : DataTable.t) (rows : list nat)
    (rowIndex : nat) (layers : list value) (h : gmap nat (list value)) (n : nat) :
  paletteUnsigned (Context.colorPalette ctx) ->
  accepted numberToString layers ->
  let out := tableRows numberToString random ctx m rows rowIndex layers h n in
  (forall layers', fst (fst out) = Return layers' -> accepted numberToString layers')
  /\ (DataTable.columns m <> None -> printableHeap numberToString h -> succeeded (fst (fst out)) = true).
Proof.
  intros (Hprimary & Hbackground & Hsurface & Hborder). cbv zeta.
  revert rowIndex layers h n.
  induction rows as [|r rest IH]; intros rowIndex layers h n Hl.
  - cbn [tableRows fst]. split; [by intros ? [= <-] | done].
  - cbn [tableRows]. cbv zeta.
    match goal with
    | |- context [createRectangle random ?f (fillsOnly ?c) ?nm n] =>
        assert (Hc : unsignedColor c) by (by destruct (_ =? _)%nat);
        pose proof (accepted_snoc_rectangle layers f (fillsOnly c) nm n
                      (proj1 (fillsOnly_ok c Hc)) (proj2 (fillsOnly_ok c Hc)) Hl) as Hrow;
        destruct (createRectangle random f (fillsOnly c) nm n) as [tableRow n1]
    end.
    cbn [fst] in Hrow.
    set (boxed := if truthy (DataTable.hasCheckbox m) then _ else _).
    assert (Hboxed : accepted numberToString (fst (fst boxed))).
    { subst boxed. destruct (truthy (DataTable.hasCheckbox m)); [|exact Hrow].
      match goal with
      | |- context [createRectangle random ?f (fillsRounded ?c ?k) ?nm n1] =>
          pose proof (accepted_snoc_rectangle (layers ++ [tableRow]) f (fillsRounded c k) nm n1
                        (proj1 (fillsRounded_ok c k Hborder))
                        (proj2 (fillsRounded_ok c k Hborder)) Hrow) as Hbox;
          destruct (createRectangle random f (fillsRounded c k) nm n1) as [checkbox n2]
      end.
      exact Hbox. }
    destruct boxed as [[layers1 cellX] n2]. cbn [fst] in Hboxed.
    set (h1 := if truthy (DataTable.hasActions m) then alter pop r h else h).
    pose proof (cells_accepted ctx (DataTable.columns m)
                  (JsNum.add (JsNum.add (Context.y ctx) 92)
                             (JsNum.mul (JsNum.ofNat rowIndex) 44))
                  (DataTable.deref h1 r) 0 cellX layers1 n2) as Hcells.
    destruct (cells _ _ _ _ _ _ _ _ _ n2) as [[ls|e] n3] eqn:Ecells.
    + specialize (IH (S rowIndex) ls h1 n3 (Hcells ls Hboxed eq_refl)).
      destruct IH as [IHa IHr]. split; [exact IHa|].
      intros Hcols Hh. apply IHr; [done|].
      subst h1. destruct (truthy (DataTable.hasActions m)); [by apply printableHeap_pop | done].
    + cbn [fst]. split; [done|].
      intros Hcols Hh. destruct (DataTable.columns m) as [cols|]; [|done].
      assert (Hrow' : Forall (printable numberToString) (DataTable.deref h1 r)).
      { apply printableHeap_deref. subst h1.
        destruct (truthy (DataTable.hasActions m)); [by apply printableHeap_pop | done]. }
      pose proof (cells_returns ctx cols
                    (JsNum.add (JsNum.add (Context.y ctx) 92)
                               (JsNum.mul (JsNum.ofNat rowIndex) 44))
                    (DataTable.deref h1 r) 0 cellX layers1 n2 Hrow') as Hret.
      rewrite Ecells in Hret. discriminate Hret.
Qed.

Lemma generateModule_accepted (m : DataTable.t) (ctx : Context.t)
    (h : gmap nat (list value)) (n : nat) :
  paletteUnsigned (Context.colorPalette ctx) ->
  let out := generateModule numberToString random m ctx h n in
  (forall layers, fst (fst out) = Return layers -> accepted numberToString layers)
  /\ (DataTable.columns m <> None -> printableHeap numberToString h -> succeeded (fst (fst out)) = true).
Proof.
  intros Hp. pose proof Hp as (Hprimary & Hbackground & Hsurface & Hborder). cbv zeta.
  unfold generateModule.
  match goal with
  | |- context [createRectangle random ?f (fillsRounded ?c ?k) ?nm n] =>
      pose proof (accepted_snoc_rectangle [] f (fillsRounded c k) nm n
                    (proj1 (fillsRounded_ok c k Hsurface))
                    (proj2 (fillsRounded_ok c k Hsurface)) accepted_nil) as H1;
      destruct (createRectangle random f (fillsRounded c k) nm n) as [tableBg n1]
  end.
  cbn [fst] in H1.
  set (titled := match DataTable.title m with Some (c :: r) => _ | _ => _ end).
  assert (H2 : accepted numberToString (fst titled)).
  { subst titled. destruct (DataTable.title m) as [[|c r]|]; try exact H1.
    match goal with
    | |- context [createText random ?t ?f ?s n1] =>
        pose proof (accepted_snoc_text ([] ++ [tableBg]) t f s n1 H1) as Ht;
        destruct (createText random t f s n1) as [tableTitle n2]
    end.
    exact Ht. }
  destruct titled as [layers1 n2]. cbn [fst] in H2.
  match goal with
  | |- context [createRectangle random ?f (fillsRounded ?c ?k) ?nm n2] =>
      pose proof (accepted_snoc_rectangle layers1 f (fillsRounded c k) nm n2
                    (proj1 (fillsRounded_ok c k Hprimary))
                    (proj2 (fillsRounded_ok c k Hprimary)) H2) as H3;
      destruct (createRectangle random f (fillsRounded c k) nm n2) as [addBtn n3]
  end.
  cbn [fst] in H3.
  match goal with
  | |- context [createText random ?t ?f ?s n3] =>
      pose proof (accepted_snoc_text (layers1 ++ [addBtn]) t f s n3 H3) as H4;
      destruct (createText random t f s n3) as [addBtnText n4]
  end.
  cbn [fst] in H4.
  match goal with
  | |- context [createRectangle random ?f (fillsOnly ?c) ?nm n4] =>
      pose proof (accepted_snoc_rectangle ((layers1 ++ [addBtn]) ++ [addBtnText]) f
                    (fillsOnly c) nm n4
                    (proj1 (fillsOnly_ok c Hbackground))
                    (proj2 (fillsOnly_ok c Hbackground)) H4) as H5;
      destruct (createRectangle random f (fillsOnly c) nm n4) as [theadBg n5]
  end.
  cbn [fst] in H5.
  set (headed := match DataTable.columns m with Some cols => _ | None => _ end).
  assert (H6 : accepted numberToString (fst headed)).
  { subst headed. destruct (DataTable.columns m) as [cols|]; [|exact H5].
    by apply columnHeaders_accepted. }
  destruct headed as [layers2 n6]. cbn [fst] in H6.
  destruct (DataTable.rows m) as [rows|].
  - by apply tableRows_accepted.
  - cbn [fst]. split; [by intros ? [= <-] | done].
Qed.

End Accepted.

(** A colour argument without a minus sign is read into channels that all
    lie in [0,1], and [validateColor] has nothing to say about the result.
    This covers every value that is not a string (it reads as black), every
    string that does not start with [#] and every malformed hexadecimal
    string. *)
Theorem parseColor_unsigned_accepted (v : value) (path : jstring) :
  unsignedColor v ->
  Forall (fun k => inUnitInterval (get (u k) (parseColor v)))
         ["red"; "green"; "blue"; "alpha"]
  /\ validateColor (parseColor v) path = [].
Proof.
  intros Hv. split; [by apply parseColor_unsigned | by apply validateColor_parseColor].
Qed.

Lemma parseColor_unsigned_accepted_witness :
  Forall (fun k => inUnitInterval (get (u k) (parseColor (str "#FF80zz"))))
         ["red"; "green"; "blue"; "alpha"]
  /\ validateColor (parseColor (str "#FF80zz")) (u "fill.color") = [].
Proof.
  apply (parseColor_unsigned_accepted (str "#FF80zz") (u "fill.color")).
  intros s [= <-] H. vm_compute in H. intuition discriminate.
Defined.

(** A rectangle built by [createRectangle] passes [validateRectangle]
    without a message, whatever the frame and the name, provided the random
    source stays in [0,1), the corner radius is a number when it is truthy
    and no fill colour holds a minus sign. *)
Theorem createRectangle_accepted (numberToString : Q -> jstring) (random : nat -> Q)
    (frame : Frame.t) (style : StyleOptions.t) (name : jstring) (n : nat)
    (path : jstring) :
  (forall k, (0 <= random k)%Q /\ (random k < 1)%Q) ->
  (truthy (StyleOptions.cornerRadius style) = true ->
   isType TNumber (StyleOptions.cornerRadius style) = true) ->
  (forall cs c, StyleOptions.fills style = Some cs -> In c cs -> unsignedColor c) ->
  validateRectangle numberToString (fst (createRectangle random frame style name n)) path
  = Return [].
Proof. intros Hr. by apply validateRectangle_createRectangle. Qed.

Lemma cycle16_range (k : nat) : (0 <= cycle16 k)%Q /\ (cycle16 k < 1)%Q.
Proof.
  unfold cycle16, Qle, Qlt. simpl.
  pose proof (Nat.mod_upper_bound k 16). lia.
Defined.

Lemma unsigned_sample (s : string) :
  forallb (fun c => negb (c =? 45)%N) (u s) = true -> unsignedColor (str s).
Proof.
  intros H t [= <-] Hin. rewrite forallb_forall in H.
  specialize (H _ Hin). by rewrite N.eqb_refl in H.
Defined.

Lemma createRectangle_accepted_witness :
  validateRectangle digitString
    (fst (createRectangle cycle16 (Frame.make 16 0 361 (-44))
            (fillsRounded (str "#FFFFFF") 8) (u "Card") 0))
    (u "layer")
  = Return [].
Proof.
  apply (createRectangle_accepted digitString cycle16).
  - exact cycle16_range.
  - reflexivity.
  - intros cs c [= <-] [<- | []]. by apply unsigned_sample.
Defined.

(** A text layer built by [createText] passes [validateText] without a
    message for every content, frame and style: the colour of a text is
    never looked at by the validator. *)
Theorem createText_accepted (numberToString : Q -> jstring) (random : nat -> Q)
    (text : jstring) (frame : Frame.t) (style : TextSpec.t) (n : nat) (path : jstring) :
  (forall k, (0 <= random k)%Q /\ (random k < 1)%Q) ->
  validateText numberToString (fst (createText random text frame style n)) path = Return [].
Proof. intros Hr. by apply validateText_createText. Qed.

Lemma createText_accepted_witness :
  validateText digitString
    (fst (createText cycle16 [26032%N; 22686%N] (Frame.make 0 0 80 20)
            (TextSpec.make (str "#-1") None (Some (u "toString")) (str "middle")) 0))
    (u "layer")
  = Return [].
Proof. apply (createText_accepted digitString cycle16). exact cycle16_range. Defined.

(** An artboard built by [createArtboard] passes [validateArtboard], its
    background rectangle included, and the page [createPage] builds around
    it passes [validatePage], provided the random source stays in [0,1) and
    the background colour holds no minus sign. *)
Theorem createPage_artboard_accepted (numberToString : Q -> jstring) (random : nat -> Q)
    (pageName name : jstring) (width height : Q) (backgroundColor : value) (n : nat)
    (path pagePath : jstring) :
  (forall k, (0 <= random k)%Q /\ (random k < 1)%Q) ->
  unsignedColor backgroundColor ->
  let artboard := createArtboard random name width height backgroundColor n in
  validateArtboard numberToString (fst artboard) path = Return []
  /\ validatePage numberToString
       (fst (createPage random pageName [fst artboard] (snd artboard))) pagePath
     = Return [].
Proof.
  intros Hr Hbg artboard.
  destruct (validatePage_artboard numberToString random Hr pageName name width height
              backgroundColor n path Hbg) as [Ha _].
  destruct (validatePage_artboard numberToString random Hr pageName name width height
              backgroundColor n pagePath Hbg) as [_ Hp].
  split; [exact Ha | exact Hp].
Qed.

Lemma createPage_artboard_accepted_witness :
  let artboard := createArtboard cycle16 (u "Design") 393 852 (str "#F2F2F7") 0 in
  validateArtboard digitString (fst artboard) (u "artboard") = Return []
  /\ validatePage digitString
       (fst (createPage cycle16 (u "Design") [fst artboard] (snd artboard))) (u "page")
     = Return [].
Proof.
  apply (createPage_artboard_accepted digitString cycle16).
  - exact cycle16_range.
  - by apply unsigned_sample.
Defined.

(** For a table description that is typed as [DataTable.t] has it (the
    title, if any, a string; the height, if any, a number; every entry of
    [module.columns] a string [name] with a numeric [width]), the layers
    [generateModule] returns are all accepted by the layer loop of the
    artboard validator, so pushing them onto an artboard adds no violation,
    provided the random source stays in [0,1) and the palette colours used
    for fills hold no minus sign.  For such a description the call does
    return when [module.columns] is present and every cell can be rendered.
    A column entry without a string name, on which [createText] throws, or
    without a numeric width, whose header the validator rejects, is not
    such a description. *)
Theorem generateModule_layers_accepted (numberToString : Q -> jstring) (random : nat -> Q)
    (m : DataTable.t) (ctx : Context.t) (h : gmap nat (list value)) (n : nat) :
  (forall k, (0 <= random k)%Q /\ (random k < 1)%Q) ->
  paletteUnsigned (Context.colorPalette ctx) ->
  let out := generateModule numberToString random m ctx h n in
  (forall layers, fst (fst out) = Return layers -> accepted numberToString layers)
  /\ (DataTable.columns m <> None -> printableHeap numberToString h ->
      succeeded (fst (fst out)) = true).
Proof. intros Hr. by apply generateModule_accepted. Qed.

Lemma sharedRowsHeap_printable : printableHeap digitString sharedRowsHeap.
Proof.
  intros r l Hl. apply elem_of_list_to_map_2 in Hl.
  repeat (apply elem_of_cons in Hl as [[= -> ->] | Hl];
          [repeat (apply Forall_cons; [eexists; reflexivity|]); apply Forall_nil|]).
  by apply elem_of_nil in Hl.
Defined.

Lemma sampleContext_unsigned : paletteUnsigned (Context.colorPalette sampleContext).
Proof.
  repeat split; try (by apply unsigned_sample). by intros s.
Defined.

Lemma generateModule_layers_accepted_witness :
  let out := generateModule digitString cycle16 sharedRowsTable sampleContext
               sharedRowsHeap 0 in
  (forall layers, fst (fst out) = Return layers -> accepted digitString layers)
  /\ succeeded (fst (fst out)) = true.
Proof.
  intros out.
  destruct (generateModule_layers_accepted digitString cycle16 sharedRowsTable
              sampleContext sharedRowsHeap 0 cycle16_range sampleContext_unsigned)
    as [Hacc Hret].
  split; [exact Hacc|].
  apply Hret; [discriminate | exact sharedRowsHeap_printable].
Defined.
Lemma deref_pop (h : gmap nat (list value)) (r : nat) :
  DataTable.deref (alter pop r h) r = pop (DataTable.deref h r).
Proof.
  unfold DataTable.deref. rewrite lookup_alter_eq. by destruct (h !! r).
Qed.

(** [generateModule] reads [module.columns] for every cell without checking
    that it is there.  For a table without [columns] whose first row still
    holds a cell after the action column is dropped, the call throws the
    engine's [TypeError] on that cell; by then the first row array has lost
    its last element if [hasActions] is truthy, and no other row has been
    touched. *)
Theorem generateModule_missing_columns (numberToString : Q -> jstring) (random : nat -> Q)
    (m : DataTable.t) (ctx : Context.t) (h : gmap nat (list value)) (n : nat)
    (r : nat) (rest : list nat) (cell : value) (more : list value) :
  DataTable.columns m = None ->
  DataTable.rows m = Some (r :: rest) ->
  (if truthy (DataTable.hasActions m) then pop (DataTable.deref h r)
   else DataTable.deref h r) = cell :: more ->
  printable numberToString cell ->
  let out := generateModule numberToString random m ctx h n in
  fst (fst out)
  = Throw (typeError (u "Cannot read properties of undefined (reading '0')"))
  /\ snd (fst out) = (if truthy (DataTable.hasActions m) then alter pop r h else h).
Proof.
  intros Hcols Hrows Hrow [text Hcell]. cbv zeta.
  unfold generateModule. rewrite Hcols, Hrows.
  destruct (createRectangle random _ _ _ n) as [tableBg n1].
  set (titled := match DataTable.title m with Some (c :: r) => _ | _ => _ end).
  destruct titled as [layers1 n2].
  destruct (createRectangle random _ _ _ n2) as [addBtn n3].
  destruct (createText random _ _ _ n3) as [addBtnText n4].
  destruct (createRectangle random _ _ _ n4) as [theadBg n5].
  cbn [tableRows]. cbv zeta.
  destruct (createRectangle random _ _ _ n5) as [tableRow n6].
  set (boxed := if truthy (DataTable.hasCheckbox m) then _ else _).
  destruct boxed as [[layers2 cellX] n7].
  assert (Hd : DataTable.deref
                 (if truthy (DataTable.hasActions m) then alter pop r h else h) r
               = cell :: more).
  { rewrite <- Hrow. destruct (truthy (DataTable.hasActions m)); [apply deref_pop | done]. }
  rewrite Hd, Hcols. cbn [cells]. unfold GenE.bind, GenE.liftO. rewrite Hcell.
  cbn [columnWidth fst snd]. split; reflexivity.
Qed.

Lemma generateModule_missing_columns_witness :
  let out := generateModule digitString cycle16 headlessTable sampleContext
               sharedRowsHeap 0 in
  fst (fst out)
  = Throw (typeError (u "Cannot read properties of undefined (reading '0')"))
  /\ snd (fst out) = alter pop 0%nat sharedRowsHeap.
Proof.
  apply (generateModule_missing_columns digitString cycle16 headlessTable sampleContext
           sharedRowsHeap 0 0%nat [] (str "1") [str "Ann"; str "edit"]).
  - reflexivity.
  - reflexivity.
  - reflexivity.
  - by exists (u "1").
Defined.

(* ================================================================== *)
(** ** The layout validator *)
(* ================================================================== *)

Section LayoutFacts.

Import LayoutValidator.

Lemma horizontalOverlap_spec (a b : Box.t) :
  horizontalOverlap a b
  = if _isOverlapping a b
    then Some (Overlap.make (u "horizontal") (Box.id a) (Box.id b)
                 (Box.id a ++ and_ ++ Box.id b ++ horizontalTail))
    else None.
Proof.
  unfold horizontalOverlap, _isOverlapping.
  destruct (Measure.le (Box.right a) (Box.x b)), (Measure.le (Box.bottom a) (Box.y b)),
    (Measure.le (Box.right b) (Box.x a)), (Measure.le (Box.bottom b) (Box.y a)); reflexivity.
Qed.

Lemma omap_horizontal (a : Box.t) (rest : list Box.t) :
  map namedPair (omap (horizontalOverlap a) rest)
  = map idPair (List.filter (fun p => _isOverlapping (fst p) (snd p)) (map (pair a) rest)).
Proof.
  induction rest as [|b rest IH]; [done|].
  cbn [omap map List.filter list_omap]. rewrite horizontalOverlap_spec.
  cbn [fst snd]. destruct (_isOverlapping a b); cbn [map]; by rewrite IH.
Qed.

(** What [_checkHorizontalOverlap] calls a horizontal overlap is the plain
    intersection of two rectangles: it reports, in order, exactly the pairs
    of modules [_isOverlapping] holds for, whatever their positions, [NaN]
    included. *)
Theorem horizontal_overlaps_are_intersections (modules : list Box.t) :
  map namedPair (_checkHorizontalOverlap modules)
  = map idPair (List.filter (fun p => _isOverlapping (fst p) (snd p)) (orderedPairs modules)).
Proof.
  induction modules as [|a rest IH]; [done|].
  cbn [_checkHorizontalOverlap orderedPairs].
  by rewrite map_app, filter_app, map_app, omap_horizontal, IH.
Qed.

(** *** Numbers *)

Lemma ltb_Qlt (a b : Q) : JsNum.ltb a b = true <-> (a < b)%Q.
Proof. unfold JsNum.ltb, Qlt. apply Z.ltb_lt. Qed.

Lemma le_not_gt (a b : Measure.t) : Measure.le a b = true -> Measure.gt a b = false.
Proof.
  unfold Measure.le, Measure.gt, Measure.lt.
  destruct (Measure.toNum a) as [x|], (Measure.toNum b) as [y|]; try done.
  intros H. apply Qle_bool_iff in H. apply not_true_is_false. intros Hlt.
  apply ltb_Qlt in Hlt. by apply Qlt_not_le in Hlt.
Qed.

Lemma add_le (x h : Q) : (0 <= h)%Q -> (x <= JsNum.add x h)%Q.
Proof.
  intros Hh. unfold JsNum.add. rewrite Qred_correct.
  rewrite <- (Qplus_0_r x) at 1. apply Qplus_le_compat; [apply Qle_refl | exact Hh].
Qed.

(** *** The list of positions *)

Lemma ForallOrdPairs_snoc {A} (R : A -> A -> Prop) (l : list A) (x : A) :
  ForallOrdPairs R l -> Forall (fun a => R a x) l -> ForallOrdPairs R (l ++ [x]).
Proof.
  induction 1 as [|a l Ha Hl IH]; intros Hx; simpl.
  - constructor; constructor.
  - inversion Hx as [|? ? Hax Hlx]; subst. constructor.
    + apply Forall_app. split; [exact Ha | by constructor].
    + by apply IH.
Qed.

Lemma fold_addModule_snoc (this : LayoutValidator.t) (ms : list ModuleSpec.t)
    (m : ModuleSpec.t) :
  fold_left addModule (ms ++ [m]) this = addModule (fold_left addModule ms this) m.
Proof. by rewrite fold_left_app. Qed.

(** Apart from the two lists, [addModule] leaves the instance as it is. *)
Lemma fold_addModule_fields (this : LayoutValidator.t) (ms : list ModuleSpec.t) :
  let that := fold_left addModule ms this in
  artboardWidth that = artboardWidth this /\ artboardHeight that = artboardHeight this
  /\ padding that = padding this /\ moduleGap that = moduleGap this.
Proof.
  revert this; induction ms as [|m ms IH]; intros this; [done|].
  simpl. destruct (IH (addModule this m)) as (-> & -> & -> & ->). done.
Qed.

Lemma stacked_invariant (options : LayoutOptions.t) (ms : list ModuleSpec.t) :
  (0 <= Measure.numOr (LayoutOptions.moduleGap options) 8)%Q ->
  Forall autoPlaced ms ->
  let this := fold_left addModule ms (new options) in
  exists top, (forall type, _calculateY this type = Measure.Num top)
              /\ stackedUpTo top (modulePositions this).
Proof.
  intros Hgap Hms. cbv zeta. revert Hms.
  induction ms as [|m ms IH] using rev_ind; intros Hms.
  - exists (Measure.numOr (LayoutOptions.padding options) 16).
    split; [done|]. split; constructor.
  - apply Forall_app in Hms as [Hms Hm]. specialize (IH Hms).
    inversion Hm as [|? ? Hm' _]; subst. clear Hm. rename Hm' into Hm.
    rewrite fold_addModule_snoc.
    pose proof (fold_addModule_fields (new options) ms) as (_ & _ & _ & Hg).
    cbv zeta in Hg. change (moduleGap (new options))
      with (Measure.numOr (LayoutOptions.moduleGap options) 8) in Hg.
    destruct IH as (top & Htop & Hbelow & Hpairs).
    set (this := fold_left addModule ms (new options)) in *.
    destruct Hm as (Hy & h & Hh & Hh0).
    unfold addModule. rewrite Hy, Hh. cbn [Measure.defined]. rewrite (Htop (ModuleSpec.type m)).
    cbn [modulePositions modules Box.x Box.y Box.width Box.height].
    exists (JsNum.add (JsNum.add top h) (moduleGap this)). split.
    + intros type. unfold _calculateY. cbn [modules]. rewrite last_snoc. reflexivity.
    + assert (Hstep : (JsNum.add top h <= JsNum.add (JsNum.add top h) (moduleGap this))%Q).
      { apply add_le. by rewrite Hg. }
      assert (Htop' : (top <= JsNum.add (JsNum.add top h) (moduleGap this))%Q).
      { eapply Qle_trans; [apply add_le, Hh0 | exact Hstep]. }
      split.
      * apply Forall_app. split.
        -- eapply Forall_impl; [|exact Hbelow]. intros p (b & Hb & Hle).
           exists b. split; [exact Hb | by eapply Qle_trans].
        -- constructor; [|constructor]. exists (JsNum.add top h). split; [reflexivity | exact Hstep].
      * apply ForallOrdPairs_snoc; [exact Hpairs|].
        eapply Forall_impl; [|exact Hbelow]. intros p (b & Hb & Hle).
        cbn [Box.y]. rewrite Hb. unfold Measure.le. cbn [Measure.toNum].
        by apply Qle_bool_iff.
Qed.

Lemma no_overlap_checks (numberToString : Q -> jstring) (positions : list Box.t) :
  ForallOrdPairs (fun p q => Measure.le (Box.bottom p) (Box.y q) = true) positions ->
  _checkVerticalOverlap numberToString positions = []
  /\ _checkHorizontalOverlap positions = [].
Proof.
  induction 1 as [|p rest Hp Hrest [IHv IHh]]; [done|].
  cbn [_checkVerticalOverlap _checkHorizontalOverlap]. rewrite IHv, IHh, !app_nil_r.
  clear IHv IHh Hrest. induction Hp as [|q rest Hq Hrest [IHv IHh]]; [done|].
  cbn [omap list_omap]. cbn [omap] in IHv, IHh. rewrite IHv, IHh.
  unfold verticalOverlap, horizontalOverlap.
  rewrite (le_not_gt _ _ Hq), Hq. done.
Qed.

(** *** What [addModule] records, and what the repairs read *)

Lemma positions_sizeless (this : LayoutValidator.t) (ms : list ModuleSpec.t) :
  Forall sizeless (modulePositions this) ->
  Forall sizeless (modulePositions (fold_left addModule ms this)).
Proof.
  revert this; induction ms as [|m ms IH]; intros this H; [done|].
  simpl. apply IH. unfold addModule. cbn [modulePositions].
  apply Forall_app. split; [exact H|]. by repeat constructor.
Qed.

Lemma positions_length (this : LayoutValidator.t) (ms : list ModuleSpec.t) :
  length (modulePositions (fold_left addModule ms this))
  = (length (modulePositions this) + length ms)%nat.
Proof.
  revert this; induction ms as [|m ms IH]; intros this; simpl; [lia|].
  rewrite IH. unfold addModule. cbn [modulePositions]. rewrite length_app. simpl. lia.
Qed.

Lemma stackFrom_NaN (this : LayoutValidator.t) (ps : list Box.t) :
  Forall sizeless ps ->
  stackFrom this Measure.NaN ps = map (fun p => Box.restack p Measure.NaN Measure.NaN) ps.
Proof.
  induction 1 as [|p ps [Hh Ho] _ IH]; [done|].
  cbn [stackFrom map]. rewrite Ho, Hh. cbn [Measure.defined andb Measure.add Measure.toNum].
  by rewrite IH.
Qed.

Lemma autoFixStack_sizeless (this : LayoutValidator.t) (ps : list Box.t) :
  Forall sizeless ps ->
  _autoFixStack this ps
  = match ps with
    | [] => []
    | p :: rest =>
        Box.restack p (Measure.Num (padding this)) Measure.NaN
        :: map (fun q => Box.restack q Measure.NaN Measure.NaN) rest
    end.
Proof.
  intros H. unfold _autoFixStack. destruct H as [|p ps [Hh Ho] Hps]; [done|].
  cbn [stackFrom]. rewrite Ho, Hh. cbn [Measure.defined andb Measure.add Measure.toNum].
  by rewrite stackFrom_NaN.
Qed.

Lemma ltb_irrefl (q : Q) : JsNum.ltb q q = false.
Proof. unfold JsNum.ltb. apply Z.ltb_irrefl. Qed.

Lemma gridFrom_NaN (this : LayoutValidator.t) (colWidth p0 : Q) (ps : list Box.t) :
  Forall sizeless ps ->
  let x := JsNum.add (padding this)
             (JsNum.mul (JsNum.ofNat 0) (JsNum.add colWidth (padding this))) in
  gridFrom this colWidth [Measure.NaN; Measure.Num p0] ps
  = map (fun p => Box.regrid p (Measure.Num x) Measure.NaN (Measure.Num colWidth)
                    (Measure.Num (JsNum.add x colWidth)) Measure.NaN) ps.
Proof.
  cbv zeta. induction 1 as [|p ps [Hh Ho] _ IH]; [done|].
  cbn [gridFrom map]. rewrite Hh.
  change (minColumn [Measure.NaN; Measure.Num p0]) with 0%nat.
  simpl. unfold Measure.add at 1 2 3. cbn [Measure.toNum]. by rewrite IH.
Qed.

Lemma autoFixGrid_sizeless (this : LayoutValidator.t) (ps : list Box.t) :
  Forall sizeless ps ->
  exists x w,
    _autoFixGrid this ps
    = match ps with
      | [] => []
      | p :: rest =>
          Box.regrid p (Measure.Num x) (Measure.Num (padding this)) (Measure.Num w)
                     (Measure.Num (JsNum.add x w)) Measure.NaN
          :: map (fun q => Box.regrid q (Measure.Num x) Measure.NaN (Measure.Num w)
                             (Measure.Num (JsNum.add x w)) Measure.NaN) rest
      end.
Proof.
  intros H. unfold _autoFixGrid. eexists _, _.
  destruct H as [|p ps [Hh Ho] Hps]; [done|].
  cbn [gridFrom replicate cols]. rewrite Hh.
  assert (Hmin : minColumn [Measure.Num (padding this); Measure.Num (padding this)] = 0%nat).
  { unfold minColumn, cols. simpl. unfold Measure.lt. cbn [Measure.toNum].
    by rewrite ltb_irrefl. }
  rewrite Hmin. simpl. unfold Measure.add at 1 2 3. cbn [Measure.toNum].
  rewrite (gridFrom_NaN this _ (padding this) ps Hps). reflexivity.
Qed.

(** The checks on a layout whose entries have lost their bottoms. *)
Lemma bottomless_pair (numberToString : Q -> jstring) (p r q s : Box.t) :
  bottomless p r -> bottomless q s ->
  verticalOverlap numberToString r s = None
  /\ horizontalOverlap r s
     = if xRangesMeet p q
       then Some (Overlap.make (u "horizontal") (Box.id p) (Box.id q)
                    (Box.id p ++ and_ ++ Box.id q ++ horizontalTail))
       else None.
Proof.
  intros (Hid & Hx & Hr & Hb) (Hid' & Hx' & Hr' & Hb').
  unfold verticalOverlap, horizontalOverlap, xRangesMeet.
  rewrite Hb, Hb', Hid, Hid', Hx, Hx', Hr, Hr'.
  unfold Measure.gt, Measure.lt, Measure.le at 1 2. cbn [Measure.toNum].
  destruct (Measure.toNum (Box.y s)), (Measure.toNum (Box.y r)); done.
Qed.

Lemma bottomless_row (numberToString : Q -> jstring) (p r : Box.t) (ps rs : list Box.t) :
  bottomless p r -> Forall2 bottomless ps rs ->
  omap (verticalOverlap numberToString r) rs = []
  /\ map namedPair (omap (horizontalOverlap r) rs)
     = map idPair (List.filter (fun p => xRangesMeet (fst p) (snd p)) (map (pair p) ps)).
Proof.
  intros Hpr. induction 1 as [|q s ps rs Hqs _ [IHv IHh]]; [done|].
  destruct (bottomless_pair numberToString p r q s Hpr Hqs) as [Hv Hh].
  cbn [omap list_omap map List.filter fst snd]. cbn [omap] in IHv, IHh.
  rewrite Hv, Hh, IHv. split; [done|].
  destruct (xRangesMeet p q); cbn [map]; by rewrite IHh.
Qed.

Lemma bottomless_checks (numberToString : Q -> jstring) (ps rs : list Box.t) :
  Forall2 bottomless ps rs ->
  _checkVerticalOverlap numberToString rs = []
  /\ map namedPair (_checkHorizontalOverlap rs)
     = map idPair (List.filter (fun p => xRangesMeet (fst p) (snd p)) (orderedPairs ps)).
Proof.
  induction 1 as [|p r ps rs Hpr Hrest [IHv IHh]]; [done|].
  cbn [_checkVerticalOverlap _checkHorizontalOverlap orderedPairs].
  destruct (bottomless_row numberToString p r ps rs Hpr Hrest) as [Hv Hh].
  by rewrite IHv, Hv, map_app, filter_app, map_app, IHh, Hh.
Qed.

Lemma existsb_nonEmpty {A} (l : list A) : nonEmpty l = false -> l = [].
Proof. by destruct l. Qed.

Lemma new_positions_sizeless (options : LayoutOptions.t) (ms : list ModuleSpec.t) :
  Forall sizeless (modulePositions (fold_left addModule ms (new options))).
Proof. apply positions_sizeless. constructor. Qed.

Lemma restacked_bottomless (ps : list Box.t) (y : Measure.t) :
  Forall2 bottomless ps (map (fun q => Box.restack q y Measure.NaN) ps).
Proof. induction ps as [|p ps IH]; constructor; [done | exact IH]. Qed.

(** Modules placed by [addModule] itself never overlap: when every module
    is added without a [y] of its own and with a height that is not
    negative, and the gap is not negative, [validate] finds no vertical and
    no horizontal overlap, whatever the widths. *)
Theorem stacked_modules_never_overlap (numberToString : Q -> jstring)
    (options : LayoutOptions.t) (ms : list ModuleSpec.t) (opts : ValidateOptions.t) :
  (0 <= Measure.numOr (LayoutOptions.moduleGap options) 8)%Q ->
  Forall autoPlaced ms ->
  let this := fold_left addModule ms (new options) in
  _checkVerticalOverlap numberToString (modulePositions this) = []
  /\ _checkHorizontalOverlap (modulePositions this) = []
  /\ (truthy (ValidateOptions.autoFix opts) = false ->
      LayoutResult.hasOverlaps (validate numberToString this opts) = false
      /\ LayoutResult.overlaps (validate numberToString this opts) = []).
Proof.
  intros Hgap Hms this.
  destruct (stacked_invariant options ms Hgap Hms) as (top & _ & _ & Hpairs).
  fold this in Hpairs.
  destruct (no_overlap_checks numberToString _ Hpairs) as [Hv Hh].
  split; [exact Hv|]. split; [exact Hh|].
  intros Hoff. unfold validate. rewrite Hoff, Hv, Hh. done.
Qed.

Lemma stacked_modules_never_overlap_witness :
  let this := fold_left addModule stackedModules (new LayoutOptions.empty) in
  LayoutResult.hasOverlaps (validate digitString this ValidateOptions.empty) = false
  /\ LayoutResult.hasOverflows (validate digitString this ValidateOptions.empty) = true.
Proof.
  intros this. split; [|vm_compute; reflexivity].
  apply (stacked_modules_never_overlap digitString LayoutOptions.empty stackedModules
           ValidateOptions.empty).
  - vm_compute. discriminate.
  - repeat (apply Forall_cons;
            [split; [reflexivity | eexists; split; [reflexivity | vm_compute; discriminate]]|]).
    apply Forall_nil.
  - reflexivity.
Defined.

(** A repair never works on heights: [validate] hands [modulePositions] to
    the repair, and those entries carry neither [height] nor [originalY].
    Whenever [validate] reports [wasAutoFixed], with either strategy, every
    module of the result has the bottom [NaN] and every module but the
    first has the position [NaN]; no vertical overlap is reported any more,
    and with the stack strategy a horizontal overlap is reported for
    exactly the pairs of modules whose horizontal extents meet. *)
Theorem autoFix_loses_heights (numberToString : Q -> jstring)
    (options : LayoutOptions.t) (ms : list ModuleSpec.t) (opts : ValidateOptions.t) :
  let this := fold_left addModule ms (new options) in
  let result := validate numberToString this opts in
  LayoutResult.wasAutoFixed result = true ->
  length (LayoutResult.modules result) = length ms
  /\ Forall (fun b => Box.bottom b = Measure.NaN) (LayoutResult.modules result)
  /\ Forall (fun b => Box.y b = Measure.NaN) (tail (LayoutResult.modules result))
  /\ (isStr "grid" (ValidateOptions.fixStrategy opts) = false ->
      map namedPair (LayoutResult.overlaps result)
      = map idPair (List.filter (fun p => xRangesMeet (fst p) (snd p))
                                (orderedPairs (modulePositions this)))).
Proof.
  intros this result Hfixed. subst result.
  pose proof (new_positions_sizeless options ms) as Hs. fold this in Hs.
  pose proof (positions_length (new options) ms) as Hlen. fold this in Hlen.
  cbn [new modulePositions length Nat.add] in Hlen.
  unfold validate in *.
  destruct (truthy (ValidateOptions.autoFix opts) && _); [|discriminate Hfixed].
  cbn [LayoutResult.modules LayoutResult.overlaps]. clear Hfixed.
  destruct (isStr "grid" (ValidateOptions.fixStrategy opts)).
  - destruct (autoFixGrid_sizeless this _ Hs) as (x & w & ->).
    destruct (modulePositions this) as [|p ps]; simpl in Hlen |- *.
    + repeat split; try constructor; done.
    + rewrite length_map. split; [exact Hlen|]. split; [|split; [|done]].
      * constructor; [done|]. apply Forall_forall. intros b Hb.
        apply in_map_iff in Hb as (q & <- & _). done.
      * apply Forall_forall. intros b Hb. apply in_map_iff in Hb as (q & <- & _). done.
  - rewrite (autoFixStack_sizeless this _ Hs).
    destruct (modulePositions this) as [|p ps]; cbn [length tail] in Hlen |- *.
    + repeat split; try constructor; done.
    + rewrite length_map. split; [exact Hlen|]. split; [|split].
      * constructor; [done|]. apply Forall_forall. intros b Hb.
        apply in_map_iff in Hb as (q & <- & _). done.
      * apply Forall_forall. intros b Hb. apply in_map_iff in Hb as (q & <- & _). done.
      * intros _.
        assert (H2 : Forall2 bottomless (p :: ps)
                       (Box.restack p (Measure.Num (padding this)) Measure.NaN
                        :: map (fun q => Box.restack q Measure.NaN Measure.NaN) ps)).
        { constructor; [done | apply restacked_bottomless]. }
        destruct (bottomless_checks numberToString _ _ H2) as [Hv Hh].
        cbn [orderedPairs] in Hh. by rewrite Hv.
Qed.

Lemma autoFix_loses_heights_witness :
  let this := fold_left addModule pinnedModules (new LayoutOptions.empty) in
  let result := validate digitString this (ValidateOptions.make (VBool true) VUndef) in
  map Box.bottom (LayoutResult.modules result) = [Measure.NaN; Measure.NaN]
  /\ map namedPair (LayoutResult.overlaps result) = [(u "a", u "b")].
Proof.
  intros this result.
  destruct (autoFix_loses_heights digitString LayoutOptions.empty pinnedModules
              (ValidateOptions.make (VBool true) VUndef)) as (Hlen & Hb & _ & Ho).
  { vm_compute. reflexivity. }
  fold this in Hlen, Hb, Ho. fold result in Hlen, Hb, Ho.
  split.
  - destruct (LayoutResult.modules result) as [|b1 [|b2 [|b3 l]]]; try discriminate Hlen.
    inversion Hb as [|? ? H1 Hb']; subst. inversion Hb' as [|? ? H2 _]; subst.
    cbn [map]. by rewrite H1, H2.
  - rewrite (Ho eq_refl). vm_compute. reflexivity.
Defined.

End LayoutFacts.

(* ================================================================== *)
(** ** What the validator's expressions accept *)
(* ================================================================== *)

Lemma Lang_times_inv (n : nat) (p : N -> bool) (s : jstring) :
  Lang (times n (Class p)) s -> length s = n /\ Forall (fun c => p c = true) s.
Proof.
  revert s; induction n as [|n IH]; intros s H; simpl in H.
  - inversion H; subst. by split.
  - inversion H as [| |? ? s1 s2 H1 H2| | | |]; subst.
    inversion H1; subst. destruct (IH _ H2) as [Hl Hf].
    split; [simpl; by rewrite Hl | by constructor].
Qed.

Lemma Lang_class_inv (p : N -> bool) (s : jstring) :
  Lang (Class p) s -> exists c, s = [c] /\ p c = true.
Proof. intros H. inversion H; subst. eauto. Qed.

Lemma upperUnit_fixed (c d : N) :
  upperUnit c = d -> (d < 65 \/ 90 < d)%N -> c = d.
Proof.
  unfold upperUnit. destruct ((97 <=? c)%N && (c <=? 122)%N) eqn:E; [|done].
  apply andb_prop in E as [E1 E2]. apply N.leb_le in E1, E2. lia.
Qed.

Ltac invert_lang :=
  repeat match goal with
         | H : Lang (Cat _ _) _ |- _ => inversion H; subst; clear H
         | H : Lang (Class _) _ |- _ => inversion H; subst; clear H
         | H : Lang Empty _ |- _ => inversion H; subst; clear H
         end.

Lemma matches_caseBlind (s : jstring) :
  Regex.matches uuidRegex s = true -> caseBlindLayout s.
Proof.
  intros H. apply matches_Lang in H. unfold uuidRegex, dash, lit, hexClass, variantClass in H.
  invert_lang. cbn [app].
  split; [reflexivity|].
  intros j x Hj.
  do 36 (destruct j as [|j];
         [injection Hj as <-; first [assumption
            | match goal with
              | H : (_ =? ?x)%N = true |- _ =>
                  apply N.eqb_eq in H; subst x; reflexivity
              end] |]).
  discriminate Hj.
Qed.

Lemma caseBlind_matches (s : jstring) :
  caseBlindLayout s -> Regex.matches uuidRegex s = true.
Proof.
  intros [Hlen Hok]. apply matches_Lang. unfold uuidRegex, dash, lit.
  do 36 (destruct s as [|? s]; [discriminate|]).
  destruct s; [|discriminate]. clear Hlen.
  repeat match goal with
         | |- Lang (Cat (times ?k _) _) ?l =>
             rewrite <- (take_drop k l); simpl take; simpl drop; apply LCat;
             [apply Lang_times; [reflexivity | repeat constructor] |]
         | |- Lang (times ?k _) ?l =>
             apply Lang_times; [reflexivity | repeat constructor]
         | |- Lang (Cat _ _) (?c :: ?l) =>
             change (c :: l) with ([c] ++ l); apply LCat; [apply LClass |]
         end;
    match goal with
    | |- ignoreCase isUpperHex ?c = true =>
        first [ apply (Hok 0%nat c eq_refl) | apply (Hok 1%nat c eq_refl)
              | apply (Hok 2%nat c eq_refl) | apply (Hok 3%nat c eq_refl)
              | apply (Hok 4%nat c eq_refl) | apply (Hok 5%nat c eq_refl)
              | apply (Hok 6%nat c eq_refl) | apply (Hok 7%nat c eq_refl)
              | apply (Hok 9%nat c eq_refl) | apply (Hok 10%nat c eq_refl)
              | apply (Hok 11%nat c eq_refl) | apply (Hok 12%nat c eq_refl)
              | apply (Hok 15%nat c eq_refl) | apply (Hok 16%nat c eq_refl)
              | apply (Hok 17%nat c eq_refl) | apply (Hok 20%nat c eq_refl)
              | apply (Hok 21%nat c eq_refl) | apply (Hok 22%nat c eq_refl)
              | apply (Hok 24%nat c eq_refl) | apply (Hok 25%nat c eq_refl)
              | apply (Hok 26%nat c eq_refl) | apply (Hok 27%nat c eq_refl)
              | apply (Hok 28%nat c eq_refl) | apply (Hok 29%nat c eq_refl)
              | apply (Hok 30%nat c eq_refl) | apply (Hok 31%nat c eq_refl)
              | apply (Hok 32%nat c eq_refl) | apply (Hok 33%nat c eq_refl)
              | apply (Hok 34%nat c eq_refl) | apply (Hok 35%nat c eq_refl) ]
    | |- ignoreCase isVariant ?c = true => apply (Hok 19%nat c eq_refl)
    | |- (45 =? ?c)%N = true =>
        apply N.eqb_eq; symmetry; apply upperUnit_fixed; [|lia]; apply N.eqb_eq;
        first [ apply (Hok 8%nat c eq_refl) | apply (Hok 13%nat c eq_refl)
              | apply (Hok 18%nat c eq_refl) | apply (Hok 23%nat c eq_refl) ]
    | |- (52 =? ?c)%N = true =>
        apply N.eqb_eq; symmetry; apply upperUnit_fixed; [|lia]; apply N.eqb_eq;
        apply (Hok 14%nat c eq_refl)
    | |- _ => idtac
    end.
Qed.

(** [isValidUUID] accepts a string exactly when it has 36 units that, read
    without regard to letter case, are hexadecimal digits with a dash at
    positions 8, 13, 18 and 23, the digit 4 at position 14 and one of 8, 9,
    A, B at position 19.  What it is given is first converted to a string:
    an array holding one identifier is accepted like the identifier, while
    [undefined] and [null] are rejected. *)
Theorem isValidUUID_layout (numberToString : Q -> jstring) (s : jstring) :
  (isValidUUID numberToString (VStr s) = Return true <-> caseBlindLayout s)
  /\ (exists b, isValidUUID numberToString (VStr s) = Return b)
  /\ isValidUUID numberToString (VArr [VStr s]) = isValidUUID numberToString (VStr s)
  /\ isValidUUID numberToString VUndef = Return false
  /\ isValidUUID numberToString VNull = Return false.
Proof.
  assert (Hs : isValidUUID numberToString (VStr s) = Return (Regex.matches uuidRegex s))
    by reflexivity.
  split; [|split; [|split; [|split]]].
  - rewrite Hs. split.
    + intros [= H]. by apply matches_caseBlind.
    + intros H. by rewrite (caseBlind_matches s H).
  - eauto.
  - rewrite Hs. unfold isValidUUID. cbn [toStringV JsError.bind].
    change (@nil N ++ s ++ []) with (s ++ []). by rewrite app_nil_r.
  - vm_compute. reflexivity.
  - vm_compute. reflexivity.
Qed.

(** The CJK rule of [createText] looks at single UTF-16 code units: it fires
    exactly when some unit of the text lies between U+4E00 and U+9FA5.
    Kana, hangul, full-width punctuation and the ideographs outside the
    basic block (surrogate pairs among them) do not trigger it. *)
Theorem hasChinese_range (text : jstring) :
  hasChinese text = true
  <-> exists c, In c text /\ (19968 <= c)%N /\ (c <= 40869)%N.
Proof.
  rewrite hasChinese_Exists, Exists_exists. unfold isCJK, range.
  split; intros (c & Hin & Hc); exists c; (split; [exact Hin|]).
  - apply andb_prop in Hc as [H1 H2]. by apply N.leb_le in H1, H2.
  - destruct Hc as [H1 H2]. apply andb_true_intro. split; by apply N.leb_le.
Qed.
